(** * Strategic Alliance Builder: scoring, ROI and collaboration tracking

    A shallow embedding of the three JavaScript modules that carry the
    program's logic:

    - [PartnerMatcher]  (partner matching module): compatibility scoring,
      sorting and truncation of partner lists;
    - [ROICalculator]   (ROI calculator module): financial ROI, strategic
      value, risk assessment and the combined recommendation;
    - [ProjectManager]  (js/data.js): task bookkeeping on collaborations and
      the progress calculator.

    Conventions of the embedding.

    - A JavaScript number that the code keeps finite is a rational [Q]; the
      arithmetic is exact.  Where the code can divide by zero or start from
      an unparsable date, the four-way type [number] adds the two
      infinities and NaN.
    - [Math.round] is [floor (x + 1/2)], [Math.ceil] is the ceiling.
    - A property that may be missing is an [option]; [None] stands for
      [undefined] or [null] where the code does not tell them apart.
    - An object literal used as a lookup table is a [gmap] searched by its
      own keys.
    - Arrays that are shared between objects live in an explicit heap.
    - A [throw] is the [Throw] outcome of [completion]. *)

From Stdlib Require Import QArith Qround Qminmax Lqa ZArith Lia Sorted.
From stdpp Require Import gmap strings list fin_maps sorting.

Local Open Scope string_scope.

(** ** JavaScript primitives shared by the modules *)

Module JS.

Local Open Scope Q_scope.

(** [Math.round]: the nearest integer, halves towards plus infinity. *)
Definition Math_round (x : Q) : Z := Qfloor (x + 0.5).

(** [Math.ceil]. *)
Definition Math_ceil (x : Q) : Z := Qceiling x.

(** [x < y] and [x > 0] style tests on finite numbers. *)
Definition Qltb (x y : Q) : bool := negb (Qle_bool y x).

(** Numbers with the IEEE special values the code can produce. Signed
    zeros are not distinguished. *)
Inductive number :=
  | Fin (q : Q)
  | PosInfinity
  | NegInfinity
  | NaN.

(** [x - y]. *)
Definition nsub (x y : number) : number :=
  match x, y with
  | NaN, _ | _, NaN => NaN
  | Fin a, Fin b => Fin (a - b)
  | PosInfinity, PosInfinity => NaN
  | NegInfinity, NegInfinity => NaN
  | PosInfinity, _ => PosInfinity
  | NegInfinity, _ => NegInfinity
  | Fin _, PosInfinity => NegInfinity
  | Fin _, NegInfinity => PosInfinity
  end.

(** Sign of a finite number as a comparison with zero. *)
Definition Qsign (a : Q) : comparison := a ?= 0.

(** [x * y]. *)
Definition nmul (x y : number) : number :=
  match x, y with
  | NaN, _ | _, NaN => NaN
  | Fin a, Fin b => Fin (a * b)
  | Fin a, PosInfinity | PosInfinity, Fin a =>
      match Qsign a with Gt => PosInfinity | Lt => NegInfinity | Eq => NaN end
  | Fin a, NegInfinity | NegInfinity, Fin a =>
      match Qsign a with Gt => NegInfinity | Lt => PosInfinity | Eq => NaN end
  | PosInfinity, PosInfinity | NegInfinity, NegInfinity => PosInfinity
  | PosInfinity, NegInfinity | NegInfinity, PosInfinity => NegInfinity
  end.

(** [x / y]; a finite number over zero is an infinity of its sign, zero
    over zero is NaN. *)
Definition ndiv (x y : number) : number :=
  match x, y with
  | NaN, _ | _, NaN => NaN
  | Fin a, Fin b =>
      match Qsign b with
      | Eq => match Qsign a with Gt => PosInfinity | Lt => NegInfinity | Eq => NaN end
      | _ => Fin (a / b)
      end
  | Fin _, (PosInfinity | NegInfinity) => Fin 0
  | PosInfinity, Fin b =>
      match Qsign b with Lt => NegInfinity | _ => PosInfinity end
  | NegInfinity, Fin b =>
      match Qsign b with Lt => PosInfinity | _ => NegInfinity end
  | (PosInfinity | NegInfinity), (PosInfinity | NegInfinity) => NaN
  end.

(** [Math.round] and [Math.ceil] leave infinities and NaN as they are. *)
Definition nround (x : number) : number :=
  match x with Fin a => Fin (inject_Z (Math_round a)) | _ => x end.

Definition nceil (x : number) : number :=
  match x with Fin a => Fin (inject_Z (Math_ceil a)) | _ => x end.

(** [x < y]; false as soon as one side is NaN. *)
Definition nlt (x y : number) : bool :=
  match x, y with
  | NaN, _ | _, NaN => false
  | Fin a, Fin b => Qltb a b
  | Fin _, PosInfinity => true
  | NegInfinity, (Fin _ | PosInfinity) => true
  | _, _ => false
  end.

(** Outcome of a call that may throw. *)
Inductive completion (A : Type) :=
  | Return (a : A)
  | Throw (error : string).
Arguments Return {A} a.
Arguments Throw {A} error.

(** Truthiness of a property that holds a string when present. *)
Definition truthy_string (s : option string) : bool :=
  match s with
  | Some s => negb (String.eqb s "")
  | None => false
  end.

(** [array.includes(x)] on an array of strings. *)
Definition includes (l : list string) (x : string) : bool :=
  existsb (String.eqb x) l.

(** [array.sort(compareFn)]: the sort is stable, so for a consistent
    comparator the result is the one a stable insertion sort gives. *)
Fixpoint sort_insert {A} (compareFn : A -> A -> Z) (x : A) (l : list A) : list A :=
  match l with
  | [] => [x]
  | y :: l' =>
      if (compareFn x y <=? 0)%Z then x :: y :: l'
      else y :: sort_insert compareFn x l'
  end.

Definition sort {A} (compareFn : A -> A -> Z) (l : list A) : list A :=
  foldr (sort_insert compareFn) [] l.

(** The comparator lets [x] stand before [y]: [compareFn(x, y) <= 0]. *)
Definition before {A} (compareFn : A -> A -> Z) (x y : A) : Prop :=
  (compareFn x y <= 0)%Z.

(** Consecutive [array.push(x)] calls. *)
Definition push_all {A} (array items : list A) : list A := (array ++ items)%list.

(** [array.slice(start, end)] with integer arguments; a negative index
    counts from the end of the array. *)
Definition slice_index (len i : Z) : Z :=
  if (i <? 0)%Z then Z.max (len + i) 0 else Z.min i len.

Definition slice {A} (l : list A) (start end_ : Z) : list A :=
  let len := Z.of_nat (length l) in
  let k := slice_index len start in
  let final := slice_index len end_ in
  take (Z.to_nat (final - k)) (drop (Z.to_nat k) l).

(** [array.filter(callback)] for a callback that may throw: the first throw
    ends the call. *)
Fixpoint filter_throwing {A} (callback : A -> completion bool) (array : list A)
    : completion (list A) :=
  match array with
  | [] => Return []
  | x :: rest =>
      match callback x with
      | Throw e => Throw e
      | Return keep =>
          match filter_throwing callback rest with
          | Throw e => Throw e
          | Return kept => Return (if keep then x :: kept else kept)
          end
      end
  end.

(** The error of reading [property] from [undefined]. *)
Definition type_error (property : string) : string :=
  "TypeError: Cannot read properties of undefined (reading '" ++ property ++ "')".

(** [if (condition) array.push(x)]. *)
Definition push_if {A} (condition : bool) (x : A) (array : list A) : list A :=
  if condition then push_all array [x] else array.

(** An object literal: a later property of the same name overwrites an
    earlier one. *)
Definition object_literal {V} (properties : list (string * V)) : gmap string V :=
  list_to_map (reverse properties).

End JS.

(** ** Partner matching module *)

Module PartnerMatcher.
Import JS.
Local Open Scope Q_scope.

Record Partnership := { objectives : option (list string) }.

Record BrandProfile := {
  industry : option string;
  values : option (list string);
  partnership : option Partnership;
  geographicFocus : option string;
  companySize : option string
}.

(** Matching criteria weights. *)
Module weights.
Definition industry : Q := 0.20.
Definition values : Q := 0.25.
Definition objectives : Q := 0.25.
Definition geography : Q := 0.15.
Definition companySize : Q := 0.15.
End weights.

Definition complementaryIndustries : gmap string (list string) :=
  list_to_map [
    ("sports", ["entertainment"; "healthcare"; "retail"]);
    ("entertainment", ["sports"; "technology"; "retail"]);
    ("technology", ["entertainment"; "financial"; "healthcare"]);
    ("retail", ["sports"; "entertainment"; "food"]);
    ("financial", ["technology"; "education"]);
    ("healthcare", ["sports"; "technology"; "education"]);
    ("education", ["technology"; "healthcare"; "financial"]);
    ("food", ["retail"; "healthcare"]);
    ("automotive", ["technology"; "retail"])
  ].

(** [complementaryIndustries[industry1]] is read among the properties the
    literal itself defines. *)
Definition calculateIndustryScore (industry1 industry2 : option string) : Q :=
  if negb (truthy_string industry1) || negb (truthy_string industry2) then 0
  else match industry1, industry2 with
  | Some i1, Some i2 =>
      if String.eqb i1 i2 then 1.0
      else
        match complementaryIndustries !! i1 with
        | Some l => if includes l i2 then 0.7 else 0.3
        | None => 0.3
        end
  | _, _ => 0
  end.

Definition Q_of_nat (n : nat) : Q := inject_Z (Z.of_nat n).

(** [None] is a value for which [Array.isArray] is false. *)
Definition calculateValuesScore (values1 values2 : option (list string)) : Q :=
  match values1, values2 with
  | Some values1, Some values2 =>
      if (length values1 =? 0)%nat || (length values2 =? 0)%nat then 0
      else
        let sharedValues := List.filter (fun value => includes values2 value) values1 in
        let maxPossibleShared := Nat.min (length values1) (length values2) in
        Q_of_nat (length sharedValues) / Q_of_nat maxPossibleShared
  | _, _ => 0
  end.

Definition calculateObjectivesScore (objectives1 objectives2 : option (list string)) : Q :=
  match objectives1, objectives2 with
  | Some objectives1, Some objectives2 =>
      if (length objectives1 =? 0)%nat || (length objectives2 =? 0)%nat then 0
      else
        let sharedObjectives := List.filter (fun obj => includes objectives2 obj) objectives1 in
        let maxPossibleShared := Nat.min (length objectives1) (length objectives2) in
        Q_of_nat (length sharedObjectives) / Q_of_nat maxPossibleShared
  | _, _ => 0
  end.

(** The [compatibilityMatrix] of [calculateGeographyScore]. *)
Definition geographyMatrix : gmap string (gmap string Q) :=
  list_to_map [
    ("local", list_to_map [("local", 1.0); ("regional", 0.8); ("national", 0.4); ("international", 0.2); ("global", 0.1)]);
    ("regional", list_to_map [("local", 0.8); ("regional", 1.0); ("national", 0.7); ("international", 0.3); ("global", 0.2)]);
    ("national", list_to_map [("local", 0.4); ("regional", 0.7); ("national", 1.0); ("international", 0.7); ("global", 0.5)]);
    ("international", list_to_map [("local", 0.2); ("regional", 0.3); ("national", 0.7); ("international", 1.0); ("global", 0.8)]);
    ("global", list_to_map [("local", 0.1); ("regional", 0.2); ("national", 0.5); ("international", 0.8); ("global", 1.0)])
  ].

(** The [compatibilityMatrix] of [calculateSizeScore]. *)
Definition sizeMatrix : gmap string (gmap string Q) :=
  list_to_map [
    ("startup", list_to_map [("startup", 1.0); ("small", 0.9); ("medium", 0.6); ("large", 0.4); ("enterprise", 0.2)]);
    ("small", list_to_map [("startup", 0.9); ("small", 1.0); ("medium", 0.8); ("large", 0.5); ("enterprise", 0.3)]);
    ("medium", list_to_map [("startup", 0.6); ("small", 0.8); ("medium", 1.0); ("large", 0.8); ("enterprise", 0.6)]);
    ("large", list_to_map [("startup", 0.4); ("small", 0.5); ("medium", 0.8); ("large", 1.0); ("enterprise", 0.9)]);
    ("enterprise", list_to_map [("startup", 0.2); ("small", 0.3); ("medium", 0.6); ("large", 0.9); ("enterprise", 1.0)])
  ].

(** [matrix[k1] && matrix[k1][k2]]: the entry when both keys are present
    and the entry is not zero.  Both are read among the properties the
    literals themselves define. *)
Definition matrix_entry (matrix : gmap string (gmap string Q)) (k1 k2 : string) : option Q :=
  match matrix !! k1 with
  | Some row =>
      match row !! k2 with
      | Some v => if Qeq_bool v 0 then None else Some v
      | None => None
      end
  | None => None
  end.

Definition calculateGeographyScore (geography1 geography2 : option string) : Q :=
  if negb (truthy_string geography1) || negb (truthy_string geography2) then 0
  else match geography1, geography2 with
  | Some g1, Some g2 =>
      if String.eqb g1 g2 then 1.0
      else
        match matrix_entry geographyMatrix g1 g2 with
        | Some v => v
        | None => 0.3
        end
  | _, _ => 0
  end.

Definition calculateSizeScore (size1 size2 : option string) : Q :=
  if negb (truthy_string size1) || negb (truthy_string size2) then 0
  else match size1, size2 with
  | Some s1, Some s2 =>
      if String.eqb s1 s2 then 1.0
      else
        match matrix_entry sizeMatrix s1 s2 with
        | Some v => v
        | None => 0.5
        end
  | _, _ => 0
  end.

(** [brand.partnership?.objectives || []]. *)
Definition objectives_or_empty (brand : BrandProfile) : option (list string) :=
  match partnership brand with
  | Some p =>
      match objectives p with
      | Some l => Some l
      | None => Some []
      end
  | None => Some []
  end.

(** [None] is a missing ([null] or [undefined]) profile. *)
Definition calculateCompatibilityScore (brand1 brand2 : option BrandProfile) : Z :=
  match brand1, brand2 with
  | Some brand1, Some brand2 =>
      let totalScore := 0 in
      let industryScore := calculateIndustryScore (industry brand1) (industry brand2) in
      let totalScore := totalScore + industryScore * weights.industry in
      let valuesScore := calculateValuesScore (values brand1) (values brand2) in
      let totalScore := totalScore + valuesScore * weights.values in
      let objectivesScore :=
        calculateObjectivesScore (objectives_or_empty brand1) (objectives_or_empty brand2) in
      let totalScore := totalScore + objectivesScore * weights.objectives in
      let geographyScore :=
        calculateGeographyScore (geographicFocus brand1) (geographicFocus brand2) in
      let totalScore := totalScore + geographyScore * weights.geography in
      let sizeScore := calculateSizeScore (companySize brand1) (companySize brand2) in
      let totalScore := totalScore + sizeScore * weights.companySize in
      Math_round (totalScore * 100)
  | _, _ => 0%Z
  end.

(** An entry of the scored list: the partner's own properties and the
    score added to them. *)
Record ScoredPartner := {
  partner : option BrandProfile;
  compatibilityScore : Z
}.

(** [order] is [None] when the caller leaves it out (default ['desc']). *)
Definition sortPartnersByScore (partners : option (list ScoredPartner))
    (order : option string) : list ScoredPartner :=
  match partners with
  | None => []
  | Some partners =>
      if (length partners =? 0)%nat then []
      else
        let order := default "desc" order in
        if String.eqb order "asc" then
          sort (fun a b => (compatibilityScore a - compatibilityScore b)%Z) partners
        else
          sort (fun a b => (compatibilityScore b - compatibilityScore a)%Z) partners
  end.

(** [limit] is [None] when the caller leaves it out (default 5). *)
Definition findMostPromisingPartners (brand : option BrandProfile)
    (partners : option (list (option BrandProfile))) (limit : option Z)
    : list ScoredPartner :=
  let limit := default 5%Z limit in
  match brand, partners with
  | Some _, Some partners =>
      if (length partners =? 0)%nat then []
      else
        let partnersWithScores :=
          map (fun partner =>
                 {| partner := partner;
                    compatibilityScore := calculateCompatibilityScore brand partner |})
              partners in
        let sortedPartners := sortPartnersByScore (Some partnersWithScores) None in
        slice sortedPartners 0 limit
  | _, _ => []
  end.

(** The [filters] argument of [filterPartners]. *)
Module Filters.
Record t := {
  industry : option string;
  companySize : option string;
  geographicFocus : option string;
  values : option (list string);
  objectives : option (list string)
}.
End Filters.

(** [wanted && actual !== wanted] for a filter on a name. *)
Definition differs (wanted actual : option string) : bool :=
  truthy_string wanted && negb (bool_decide (actual = wanted)).

(** [filters.values && filters.values.length > 0 &&
    !filters.values.some(value => partner.values.includes(value))]. *)
Definition values_reject (filters : Filters.t) (partner : BrandProfile) : completion bool :=
  match Filters.values filters with
  | Some (value :: rest) =>
      match values partner with
      | Some owned => Return (negb (existsb (includes owned) (value :: rest)))
      | None => Throw (type_error "includes")
      end
  | _ => Return false
  end.

(** The same test on [partner.partnership.objectives]. *)
Definition objectives_reject (filters : Filters.t) (partner : BrandProfile)
    : completion bool :=
  match Filters.objectives filters with
  | Some (obj :: rest) =>
      match partnership partner with
      | Some p =>
          match objectives p with
          | Some owned => Return (negb (existsb (includes owned) (obj :: rest)))
          | None => Throw (type_error "includes")
          end
      | None => Throw (type_error "objectives")
      end
  | _ => Return false
  end.

(** The callback of [filterPartners]; [filters] is [None] when the caller
    passes none. *)
Definition passes_filters (filters : option Filters.t) (partner : BrandProfile)
    : completion bool :=
  match filters with
  | None => Throw (type_error "industry")
  | Some filters =>
      if differs (Filters.industry filters) (industry partner) then Return false
      else if differs (Filters.companySize filters) (companySize partner) then Return false
      else if differs (Filters.geographicFocus filters) (geographicFocus partner)
      then Return false
      else
        match values_reject filters partner with
        | Throw e => Throw e
        | Return true => Return false
        | Return false =>
            match objectives_reject filters partner with
            | Throw e => Throw e
            | Return true => Return false
            | Return false => Return true
            end
        end
  end.

Definition filterPartners (partners : option (list BrandProfile))
    (filters : option Filters.t) : completion (list BrandProfile) :=
  match partners with
  | None => Return []
  | Some partners =>
      if (length partners =? 0)%nat then Return []
      else filter_throwing (passes_filters filters) partners
  end.

Module DimensionScores.
Record t := {
  industry : Z;
  values : Z;
  objectives : Z;
  geography : Z;
  size : Z
}.
End DimensionScores.

Record CompatibilityReport := {
  overallScore : Z;
  dimensionScores : DimensionScores.t;
  strengths : list string;
  weaknesses : list string;
  recommendations : list string;
  suggestedPartnershipTypes : list string
}.

(** [brand.partnership?.objectives.includes(objective)]: without a
    partnership the chain is [undefined]; with a partnership that has no
    objectives the call throws. *)
Definition mentions (brand : BrandProfile) (objective : string) : completion bool :=
  match partnership brand with
  | None => Return false
  | Some p =>
      match objectives p with
      | Some l => Return (includes l objective)
      | None => Throw (type_error "includes")
      end
  end.

(** [mentions brand || mentions partner], the second read only when the
    first is false. *)
Definition either_mentions (brand partner : BrandProfile) (objective : string)
    : completion bool :=
  match mentions brand objective with
  | Throw e => Throw e
  | Return true => Return true
  | Return false => mentions partner objective
  end.

(** [if (score >= 70 && (brand mentions || partner mentions)) push]. *)
Definition suggest_if_mentioned (score : Z) (brand partner : BrandProfile)
    (objective suggestion : string) (suggested : list string)
    : completion (list string) :=
  if (70 <=? score)%Z then
    match either_mentions brand partner objective with
    | Throw e => Throw e
    | Return mentioned => Return (push_if mentioned suggestion suggested)
    end
  else Return suggested.

(** A missing name is [undefined] on both sides of [!==]. *)
Definition generateCompatibilityReport (brand partner : option BrandProfile)
    : completion (option CompatibilityReport) :=
  match brand, partner with
  | Some brand, Some partner =>
      let overallScore := calculateCompatibilityScore (Some brand) (Some partner) in
      let industryScore :=
        Math_round (calculateIndustryScore (industry brand) (industry partner) * 100) in
      let valuesScore :=
        Math_round (calculateValuesScore (values brand) (values partner) * 100) in
      let objectivesScore :=
        Math_round (calculateObjectivesScore (objectives_or_empty brand)
                      (objectives_or_empty partner) * 100) in
      let geographyScore :=
        Math_round (calculateGeographyScore (geographicFocus brand)
                      (geographicFocus partner) * 100) in
      let sizeScore :=
        Math_round (calculateSizeScore (companySize brand) (companySize partner) * 100) in
      let strengths := [] in
      let strengths := push_if (70 <=? industryScore)%Z "industry alignment" strengths in
      let strengths := push_if (70 <=? valuesScore)%Z "shared values" strengths in
      let strengths := push_if (70 <=? objectivesScore)%Z "compatible objectives" strengths in
      let strengths := push_if (70 <=? geographyScore)%Z "geographic alignment" strengths in
      let strengths := push_if (70 <=? sizeScore)%Z "company size compatibility" strengths in
      let weaknesses := [] in
      let weaknesses := push_if (industryScore <? 50)%Z "industry alignment" weaknesses in
      let weaknesses := push_if (valuesScore <? 50)%Z "shared values" weaknesses in
      let weaknesses := push_if (objectivesScore <? 50)%Z "compatible objectives" weaknesses in
      let weaknesses := push_if (geographyScore <? 50)%Z "geographic alignment" weaknesses in
      let weaknesses :=
        push_if (sizeScore <? 50)%Z "company size compatibility" weaknesses in
      let recommendations := [] in
      let recommendations :=
        push_if (includes weaknesses "industry alignment")
          "Focus on cross-industry innovation opportunities." recommendations in
      let recommendations :=
        push_if (includes weaknesses "shared values")
          "Identify and emphasize the specific values that do align." recommendations in
      let recommendations :=
        push_if (includes weaknesses "compatible objectives")
          "Define clear partnership goals that benefit both organizations."
          recommendations in
      let recommendations :=
        push_if (includes weaknesses "geographic alignment")
          "Consider a geographically focused pilot initiative." recommendations in
      let recommendations :=
        push_if (includes weaknesses "company size compatibility")
          "Establish clear roles and responsibilities that leverage each organization's strengths."
          recommendations in
      let suggestedPartnershipTypes := [] in
      let suggestedPartnershipTypes :=
        push_if ((70 <=? valuesScore)%Z
                 && negb (bool_decide (industry brand = industry partner)))
          "co-branding" suggestedPartnershipTypes in
      match suggest_if_mentioned industryScore brand partner "product"
              "product development" suggestedPartnershipTypes with
      | Throw e => Throw e
      | Return suggestedPartnershipTypes =>
          match suggest_if_mentioned objectivesScore brand partner "content"
                  "content creation" suggestedPartnershipTypes with
          | Throw e => Throw e
          | Return suggestedPartnershipTypes =>
              let suggestedPartnershipTypes :=
                push_if ((70 <=? geographyScore)%Z
                         && negb (bool_decide (geographicFocus brand
                                               = geographicFocus partner)))
                  "distribution" suggestedPartnershipTypes in
              Return (Some {|
                overallScore := overallScore;
                dimensionScores :=
                  {| DimensionScores.industry := industryScore;
                     DimensionScores.values := valuesScore;
                     DimensionScores.objectives := objectivesScore;
                     DimensionScores.geography := geographyScore;
                     DimensionScores.size := sizeScore |};
                strengths := strengths;
                weaknesses := weaknesses;
                recommendations := recommendations;
                suggestedPartnershipTypes := suggestedPartnershipTypes |})
          end
      end
  | _, _ => Return None
  end.

End PartnerMatcher.

(** ** ROI calculator module *)

Module ROICalculator.
Import JS.
Local Open Scope Q_scope.

(** A property that is read as a number.  [Undefined]: the property is
    absent.  [NotANumber]: it holds [null], [NaN] or the empty string,
    which are falsy and which [parseFloat] reads as NaN.  [Num q]: it holds
    the finite number [q].  Infinite numbers and strings with other content
    are not represented. *)
Inductive field :=
  | Undefined
  | NotANumber
  | Num (q : Q).

(** [if (x)]. *)
Definition truthy (x : field) : bool :=
  match x with
  | Num q => negb (Qeq_bool q 0)
  | _ => false
  end.

(** [parseFloat(x)]; [None] is NaN. *)
Definition parseFloat (x : field) : option Q :=
  match x with
  | Num q => Some q
  | _ => None
  end.

(** [n || 0] for a number [n]: NaN and zero give zero. *)
Definition or_zero (n : option Q) : Q :=
  match n with
  | Some q => q
  | None => 0
  end.

Record Investment := {
  directCosts : field;
  staffHours : field;
  hourlyRate : field;
  resourceAllocation : field;
  marketingCosts : field;
  technologyCosts : field;
  otherCosts : field
}.

Record Returns := {
  directRevenue : field;
  costSavings : field;
  newCustomers : field;
  customerLTV : field;
  marketShareIncrease : field;
  marketShareValue : field;
  otherReturns : field
}.

Record Partnership := {
  investment : option Investment;
  returns : option Returns;
  timeframeMonths : field;
  (* strategic value inputs *)
  audienceReach : field;
  audienceOverlap : field;
  audienceEngagement : field;
  brandAlignment : field;
  reputationEnhancement : field;
  brandVisibility : field;
  innovationPotential : field;
  technologyAccess : field;
  ipCreation : field;
  newMarketAccess : field;
  channelExpansion : field;
  competitiveAdvantage : field;
  strategicAlignment : field;
  longTermPotential : field;
  ecosystemIntegration : field;
  (* risk inputs *)
  investmentSize : field;
  revenueUncertainty : field;
  costOverrunRisk : field;
  partnerReputationRisk : field;
  brandAlignmentRisk : field;
  integrationComplexity : field;
  resourceConflictRisk : field;
  timelineRisk : field;
  goalMisalignmentRisk : field;
  dependencyRisk : field;
  competitiveDisclosureRisk : field
}.

Definition calculateTotalInvestment (investment : Investment) : Q :=
  let total := 0 in
  let total :=
    if truthy (directCosts investment)
    then total + or_zero (parseFloat (directCosts investment)) else total in
  let total :=
    if truthy (staffHours investment) && truthy (hourlyRate investment) then
      let staffHours := or_zero (parseFloat (staffHours investment)) in
      let hourlyRate := or_zero (parseFloat (hourlyRate investment)) in
      total + staffHours * hourlyRate
    else total in
  let total :=
    if truthy (resourceAllocation investment)
    then total + or_zero (parseFloat (resourceAllocation investment)) else total in
  let total :=
    if truthy (marketingCosts investment)
    then total + or_zero (parseFloat (marketingCosts investment)) else total in
  let total :=
    if truthy (technologyCosts investment)
    then total + or_zero (parseFloat (technologyCosts investment)) else total in
  let total :=
    if truthy (otherCosts investment)
    then total + or_zero (parseFloat (otherCosts investment)) else total in
  total.

Definition calculateTotalReturns (returns : Returns) (timeframeMonths : Q) : Q :=
  let total := 0 in
  let total :=
    if truthy (directRevenue returns) then
      let monthlyRevenue := or_zero (parseFloat (directRevenue returns)) in
      total + monthlyRevenue * timeframeMonths
    else total in
  let total :=
    if truthy (costSavings returns) then
      let monthlySavings := or_zero (parseFloat (costSavings returns)) in
      total + monthlySavings * timeframeMonths
    else total in
  let total :=
    if truthy (newCustomers returns) && truthy (customerLTV returns) then
      let newCustomers := or_zero (parseFloat (newCustomers returns)) in
      let customerLTV := or_zero (parseFloat (customerLTV returns)) in
      total + newCustomers * customerLTV
    else total in
  let total :=
    if truthy (marketShareIncrease returns) && truthy (marketShareValue returns) then
      let marketShareIncrease := or_zero (parseFloat (marketShareIncrease returns)) in
      let marketShareValue := or_zero (parseFloat (marketShareValue returns)) in
      total + marketShareIncrease * marketShareValue
    else total in
  let total :=
    if truthy (otherReturns returns)
    then total + or_zero (parseFloat (otherReturns returns)) else total in
  total.

Record FinancialROI := {
  totalInvestment : Q;
  totalReturns : Q;
  netReturn : Q;
  roiPercentage : Q;
  paybackMonths : number;
  roi_timeframeMonths : Q
}.

(** [timeframeMonths] is [None] when the caller leaves it out (default 12);
    the result [None] is [null]. *)
Definition calculateFinancialROI (investment : option Investment)
    (returns : option Returns) (timeframeMonths : option Q) : option FinancialROI :=
  let timeframeMonths := default 12 timeframeMonths in
  match investment, returns with
  | Some investment, Some returns =>
      if Qle_bool timeframeMonths 0 then None
      else
        let totalInvestment := calculateTotalInvestment investment in
        let totalReturns := calculateTotalReturns returns timeframeMonths in
        let netReturn := totalReturns - totalInvestment in
        let roiPercentage :=
          if Qltb 0 totalInvestment then (netReturn / totalInvestment) * 100 else 0 in
        let paybackMonths :=
          if Qltb 0 totalReturns
          then Fin (totalInvestment / (totalReturns / timeframeMonths))
          else PosInfinity in
        Some {| totalInvestment := totalInvestment;
                totalReturns := totalReturns;
                netReturn := netReturn;
                roiPercentage := roiPercentage;
                paybackMonths := paybackMonths;
                roi_timeframeMonths := timeframeMonths |}
  | _, _ => None
  end.

(** [Math.min(100, Math.round(score))]. *)
Definition capped_round (score : Q) : Z := Z.min 100 (Math_round score).

Definition calculateAudienceScore (partnership : Partnership) : Z :=
  let score := 0 in
  let score :=
    if truthy (audienceReach partnership) then
      let reach := or_zero (parseFloat (audienceReach partnership)) in
      score + Qmin 30 reach * 2
    else score in
  let score :=
    match audienceOverlap partnership with
    | Undefined => score
    | _ =>
        let overlap := or_zero (parseFloat (audienceOverlap partnership)) in
        score + (100 - overlap) * 0.2
    end in
  let score :=
    if truthy (audienceEngagement partnership) then
      let engagement := or_zero (parseFloat (audienceEngagement partnership)) in
      score + engagement * 4
    else score in
  capped_round score.

(** The pattern every other dimension follows:
    [if (p.x) { score += (parseFloat(p.x) || 0) * points; }]. *)
Definition add_points (score : Q) (x : field) (points : Q) : Q :=
  if truthy x then score + or_zero (parseFloat x) * points else score.

Definition calculateBrandScore (partnership : Partnership) : Z :=
  let score := 0 in
  let score := add_points score (brandAlignment partnership) 10 in
  let score := add_points score (reputationEnhancement partnership) 6 in
  let score := add_points score (brandVisibility partnership) 0.2 in
  capped_round score.

Definition calculateInnovationScore (partnership : Partnership) : Z :=
  let score := 0 in
  let score := add_points score (innovationPotential partnership) 10 in
  let score := add_points score (technologyAccess partnership) 6 in
  let score := add_points score (ipCreation partnership) 4 in
  capped_round score.

Definition calculateMarketAccessScore (partnership : Partnership) : Z :=
  let score := 0 in
  let score := add_points score (newMarketAccess partnership) 10 in
  let score := add_points score (channelExpansion partnership) 6 in
  let score := add_points score (competitiveAdvantage partnership) 4 in
  capped_round score.

Definition calculateRelationshipScore (partnership : Partnership) : Z :=
  let score := 0 in
  let score := add_points score (strategicAlignment partnership) 10 in
  let score := add_points score (longTermPotential partnership) 8 in
  let score := add_points score (ecosystemIntegration partnership) 2 in
  capped_round score.

Record DimensionScores := {
  audience : Z;
  brand : Z;
  innovation : Z;
  marketAccess : Z;
  relationship : Z
}.

Record StrategicValue := {
  overallScore : Z;
  dimensionScores : DimensionScores
}.

Definition calculateStrategicValue (partnership : option Partnership)
    : option StrategicValue :=
  match partnership with
  | None => None
  | Some partnership =>
      let audienceScore := calculateAudienceScore partnership in
      let brandScore := calculateBrandScore partnership in
      let innovationScore := calculateInnovationScore partnership in
      let marketAccessScore := calculateMarketAccessScore partnership in
      let relationshipScore := calculateRelationshipScore partnership in
      let overallScore :=
        Math_round
          (inject_Z (audienceScore + brandScore + innovationScore
                     + marketAccessScore + relationshipScore) / 5) in
      Some {| overallScore := overallScore;
              dimensionScores :=
                {| audience := audienceScore;
                   brand := brandScore;
                   innovation := innovationScore;
                   marketAccess := marketAccessScore;
                   relationship := relationshipScore |} |}
  end.

Definition calculateFinancialRisk (partnership : Partnership) : Z :=
  let riskScore := 0 in
  let riskScore := add_points riskScore (investmentSize partnership) 10 in
  let riskScore := add_points riskScore (revenueUncertainty partnership) 6 in
  let riskScore := add_points riskScore (costOverrunRisk partnership) 4 in
  capped_round riskScore.

Definition calculateReputationRisk (partnership : Partnership) : Z :=
  let riskScore := 0 in
  let riskScore := add_points riskScore (partnerReputationRisk partnership) 12 in
  let riskScore := add_points riskScore (brandAlignmentRisk partnership) 8 in
  capped_round riskScore.

Definition calculateOperationalRisk (partnership : Partnership) : Z :=
  let riskScore := 0 in
  let riskScore := add_points riskScore (integrationComplexity partnership) 10 in
  let riskScore := add_points riskScore (resourceConflictRisk partnership) 6 in
  let riskScore := add_points riskScore (timelineRisk partnership) 4 in
  capped_round riskScore.

Definition calculateStrategicRisk (partnership : Partnership) : Z :=
  let riskScore := 0 in
  let riskScore := add_points riskScore (goalMisalignmentRisk partnership) 10 in
  let riskScore := add_points riskScore (dependencyRisk partnership) 8 in
  let riskScore := add_points riskScore (competitiveDisclosureRisk partnership) 2 in
  capped_round riskScore.

Record RiskScores := {
  financial : Z;
  reputation : Z;
  operational : Z;
  strategic : Z
}.

(** The argument of [generateRiskMitigationRecommendations] carries the
    four scores under the names [financialRisk], [reputationRisk],
    [operationalRisk] and [strategicRisk]. *)
Definition generateRiskMitigationRecommendations
    (financialRisk reputationRisk operationalRisk strategicRisk : Z) : list string :=
  let recommendations := [] in
  let recommendations :=
    if (60 <=? financialRisk)%Z then
      push_all recommendations
        ["Implement phased investment approach with clear go/no-go decision points.";
         "Establish detailed financial monitoring with regular review intervals."]
    else if (30 <=? financialRisk)%Z then
      push_all recommendations
        ["Set clear financial metrics and performance indicators.";
         "Include contingency funding in the partnership budget."]
    else recommendations in
  let recommendations :=
    if (60 <=? reputationRisk)%Z then
      push_all recommendations
        ["Conduct thorough reputation due diligence before finalizing the partnership.";
         "Create a comprehensive crisis communication plan."]
    else if (30 <=? reputationRisk)%Z then
      push_all recommendations
        ["Define brand usage guidelines for the partnership.";
         "Implement a media monitoring system for early risk detection."]
    else recommendations in
  let recommendations :=
    if (60 <=? operationalRisk)%Z then
      push_all recommendations
        ["Appoint dedicated integration managers from both organizations.";
         "Develop detailed implementation roadmap with clear dependencies and critical path."]
    else if (30 <=? operationalRisk)%Z then
      push_all recommendations
        ["Establish a joint steering committee for operational oversight.";
         "Create clear escalation paths for operational issues."]
    else recommendations in
  let recommendations :=
    if (60 <=? strategicRisk)%Z then
      push_all recommendations
        ["Define a detailed exit strategy before partnership launch.";
         "Implement formal quarterly strategic alignment reviews."]
    else if (30 <=? strategicRisk)%Z then
      push_all recommendations
        ["Document shared strategic objectives with measurable outcomes.";
         "Define clear intellectual property rights and usage agreements."]
    else recommendations in
  recommendations.

Record RiskAssessment := {
  overallRisk : Z;
  riskLevel : string;
  riskScores : RiskScores;
  risk_recommendations : list string
}.

Definition calculateRiskAssessment (partnership : option Partnership)
    : option RiskAssessment :=
  match partnership with
  | None => None
  | Some partnership =>
      let financialRisk := calculateFinancialRisk partnership in
      let reputationRisk := calculateReputationRisk partnership in
      let operationalRisk := calculateOperationalRisk partnership in
      let strategicRisk := calculateStrategicRisk partnership in
      let overallRisk :=
        Math_round
          (inject_Z (financialRisk + reputationRisk + operationalRisk + strategicRisk) / 4) in
      let riskLevel :=
        if (overallRisk <? 25)%Z then "Low"
        else if (overallRisk <? 50)%Z then "Moderate"
        else if (overallRisk <? 75)%Z then "High"
        else "Critical" in
      let recommendations :=
        generateRiskMitigationRecommendations
          financialRisk reputationRisk operationalRisk strategicRisk in
      Some {| overallRisk := overallRisk;
              riskLevel := riskLevel;
              riskScores :=
                {| financial := financialRisk;
                   reputation := reputationRisk;
                   operational := operationalRisk;
                   strategic := strategicRisk |};
              risk_recommendations := recommendations |}
  end.

Record PartnershipROI := {
  roi_overallScore : Z;
  recommendation : string;
  financialROI : FinancialROI;
  strategicValue : StrategicValue;
  riskAssessment : RiskAssessment
}.

(** Reading a property of [null] throws. *)
Definition property_of {A} (name : string) (object : option A) : completion A :=
  match object with
  | Some o => Return o
  | None => Throw ("TypeError: Cannot read properties of null (reading '" ++ name ++ "')")
  end.

(** [partnership.timeframeMonths || 12]. *)
Definition timeframe_or_12 (partnership : Partnership) : Q :=
  if truthy (timeframeMonths partnership)
  then or_zero (parseFloat (timeframeMonths partnership)) else 12.

Definition calculatePartnershipROI (partnership : option Partnership)
    : completion (option PartnershipROI) :=
  match partnership with
  | None => Return None
  | Some p =>
      let financialROI :=
        calculateFinancialROI (investment p) (returns p) (Some (timeframe_or_12 p)) in
      let strategicValue := calculateStrategicValue partnership in
      let riskAssessment := calculateRiskAssessment partnership in
      let overallScore := 0 in
      match property_of "roiPercentage" financialROI with
      | Throw e => Throw e
      | Return roi =>
          let overallScore :=
            if Qltb 200 (roiPercentage roi) then overallScore + 40
            else if Qltb 100 (roiPercentage roi) then overallScore + 30
            else if Qltb 50 (roiPercentage roi) then overallScore + 20
            else if Qltb 0 (roiPercentage roi) then overallScore + 10
            else overallScore in
          match property_of "overallScore" strategicValue with
          | Throw e => Throw e
          | Return sv =>
              let overallScore := overallScore + inject_Z (ROICalculator.overallScore sv) * 0.4 in
              match property_of "overallRisk" riskAssessment with
              | Throw e => Throw e
              | Return ra =>
                  let overallScore :=
                    overallScore + (100 - inject_Z (overallRisk ra)) * 0.2 in
                  let overallScore := Math_round overallScore in
                  let recommendation :=
                    if (80 <=? overallScore)%Z then "Strongly Recommended"
                    else if (60 <=? overallScore)%Z then "Recommended"
                    else if (40 <=? overallScore)%Z then "Consider with Modifications"
                    else "Not Recommended" in
                  Return (Some {| roi_overallScore := overallScore;
                                  recommendation := recommendation;
                                  financialROI := roi;
                                  strategicValue := sv;
                                  riskAssessment := ra |})
              end
          end
      end
  end.

End ROICalculator.

(** ** Project management module (js/data.js) *)

Module ProjectManager.
Import JS.
Local Open Scope Q_scope.

(** Values held by the properties of task and milestone objects. *)
Inductive value :=
  | Null
  | Str (s : string).

#[export] Instance value_eq_dec : EqDecision value.
Proof. solve_decision. Defined.

(** A task or a milestone: a JavaScript object as a finite map from
    property names to values. *)
Abbreviation object := (gmap string value).

(** Arrays have an identity: two objects may hold the same array.  The heap
    maps the location of an array to its current content. *)
Abbreviation loc := nat.
Abbreviation heap := (gmap loc (list object)).

(** A date property, by what [new Date(x)] makes of it. *)
Inductive date :=
  | DateUndefined
  | DateNull
  | DateEmpty                 (* the empty string *)
  | DateInvalid               (* a string that does not parse *)
  | DateTime (ms : Z).        (* a string that parses to this time value *)

Definition truthy_date (d : date) : bool :=
  match d with
  | DateInvalid | DateTime _ => true
  | _ => false
  end.

(** The time value of [new Date(d)]. *)
Definition Date_getTime (d : date) : number :=
  match d with
  | DateTime ms => Fin (inject_Z ms)
  | DateNull => Fin 0
  | _ => NaN
  end.

Record Collaboration := {
  id : string;
  name : string;
  startDate : date;
  endDate : date;
  tasks : option loc;
  milestones : option loc;
  status : string;
  createdAt : string;
  updatedAt : string
}.

(** [{ ...collaboration }] followed by assignments to [tasks] and
    [updatedAt] of the copy. *)
Definition with_tasks (c : Collaboration) (tasks : option loc) (updatedAt : string)
    : Collaboration :=
  {| id := id c; name := name c; startDate := startDate c; endDate := endDate c;
     tasks := tasks; milestones := milestones c; status := status c;
     createdAt := createdAt c; updatedAt := updatedAt |}.

Definition truthy_value (v : option value) : bool :=
  match v with
  | Some (Str s) => negb (String.eqb s "")
  | _ => false
  end.

(** [x || d]. *)
Definition or_else (x : option value) (d : value) : value :=
  match x with
  | Some v => if truthy_value x then v else d
  | None => d
  end.

(** [addTask(collaboration, task)].  [now] is what
    [new Date().toISOString()] returns and [newId] what [generateId()]
    returns during the call.  The result is the returned object and the heap
    after the call. *)
Definition addTask (now newId : string) (collaboration : option Collaboration)
    (task : option object) (h : heap) : option Collaboration * heap :=
  match collaboration, task with
  | Some c, Some task =>
      (* the copy holds the same array as [c] *)
      let '(tasksRef, h) :=
        match tasks c with
        | Some l => (l, h)
        | None => let l := fresh (dom h) in (l, <[l := []]> h)
        end in
      let newTask : object :=
        list_to_map [
          ("id", or_else (task !! "id") (Str newId));
          ("title", or_else (task !! "title") (Str "Untitled Task"));
          ("description", or_else (task !! "description") (Str ""));
          ("assignedTo", or_else (task !! "assignedTo") (Str ""));
          ("dueDate", or_else (task !! "dueDate") Null);
          ("status", or_else (task !! "status") (Str "pending"));
          ("priority", or_else (task !! "priority") (Str "medium"));
          ("createdAt", or_else (task !! "createdAt") (Str now));
          ("updatedAt", Str now)
        ] in
      (* updatedCollaboration.tasks.push(newTask) *)
      let h := alter (fun array => push_all array [newTask]) tasksRef h in
      (Some (with_tasks c (Some tasksRef) now), h)
  | _, _ => (collaboration, h)
  end.

(** The assignments of the [Object.keys(updates).forEach] loop: every
    property of [updates] but [id] and [createdAt] overwrites the task's. *)
Definition apply_updates (updates task : object) : object :=
  filter (fun kv => kv.1 <> "id" /\ kv.1 <> "createdAt") updates ∪ task.

(** [updateTask(collaboration, taskId, updates)]. *)
Definition updateTask (now : string) (collaboration : option Collaboration)
    (taskId : option string) (updates : option object) (h : heap)
    : option Collaboration * heap :=
  match collaboration, updates with
  | Some c, Some updates =>
      if negb (truthy_string taskId) then (collaboration, h)
      else
        match tasks c with
        | None => (Some c, h)
        | Some l =>
            let array := default [] (h !! l) in
            match list_find (fun task => task !! "id" = Str <$> taskId) array with
            | None => (Some c, h)
            | Some (taskIndex, found) =>
                let updatedTask := apply_updates updates found in
                let updatedTask := <["updatedAt" := Str now]> updatedTask in
                (* updatedCollaboration.tasks[taskIndex] = updatedTask *)
                let h := alter (fun array => <[taskIndex := updatedTask]> array) l h in
                (Some (with_tasks c (Some l) now), h)
            end
        end
  | _, _ => (collaboration, h)
  end.

(** What a caller that still holds [c] sees of it: its properties and the
    content of its task array. *)
Definition observe (h : heap) (c : Collaboration) : Collaboration * option (list object) :=
  (c, tasks c ≫= fun l => h !! l).

Definition has_status (s : string) (o : object) : bool :=
  bool_decide (o !! "status" = Some (Str s)).

Module TaskStats.
Record t := {
  total : Z;
  completed : Z;
  inProgress : Z;
  pending : Z;
  progressPercentage : Z
}.
End TaskStats.

Module MilestoneStats.
Record t := {
  total : Z;
  completed : Z;
  pending : Z;
  missed : Z;
  progressPercentage : Z
}.
End MilestoneStats.

Definition count (s : string) (l : list object) : Z :=
  Z.of_nat (length (List.filter (has_status s) l)).

(** [None] is a value for which [Array.isArray] is false. *)
Definition calculateTaskProgress (tasks : option (list object)) : TaskStats.t :=
  match tasks with
  | None =>
      {| TaskStats.total := 0; TaskStats.completed := 0; TaskStats.inProgress := 0;
         TaskStats.pending := 0; TaskStats.progressPercentage := 0 |}
  | Some tasks =>
      let total := Z.of_nat (length tasks) in
      let completed := count "completed" tasks in
      let inProgress := count "in-progress" tasks in
      let pending := count "pending" tasks in
      let progressPercentage :=
        if (0 <? total)%Z then
          Math_round
            (((inject_Z completed + inject_Z inProgress * 0.5) / inject_Z total) * 100)
        else 0%Z in
      {| TaskStats.total := total; TaskStats.completed := completed;
         TaskStats.inProgress := inProgress; TaskStats.pending := pending;
         TaskStats.progressPercentage := progressPercentage |}
  end.

Definition calculateMilestoneProgress (milestones : option (list object))
    : MilestoneStats.t :=
  match milestones with
  | None =>
      {| MilestoneStats.total := 0; MilestoneStats.completed := 0;
         MilestoneStats.pending := 0; MilestoneStats.missed := 0;
         MilestoneStats.progressPercentage := 0 |}
  | Some milestones =>
      let total := Z.of_nat (length milestones) in
      let completed := count "completed" milestones in
      let pending := count "pending" milestones in
      let missed := count "missed" milestones in
      let progressPercentage :=
        if (0 <? total)%Z
        then Math_round ((inject_Z completed / inject_Z total) * 100)
        else 0%Z in
      {| MilestoneStats.total := total; MilestoneStats.completed := completed;
         MilestoneStats.pending := pending; MilestoneStats.missed := missed;
         MilestoneStats.progressPercentage := progressPercentage |}
  end.

Record Progress := {
  overallProgress : Z;
  progress_status : string;
  daysRemaining : option number;
  taskStats : TaskStats.t;
  milestoneStats : MilestoneStats.t
}.

(** [array || []] for an array property read through the heap. *)
Definition array_or_empty (h : heap) (array : option loc) : option (list object) :=
  match array with
  | Some l => Some (default [] (h !! l))
  | None => Some []
  end.

Definition msPerDay : number := Fin (1000 * 60 * 60 * 24).

(** [calculateProgress(collaboration)]; [now] is the time value of
    [new Date()] during the call. *)
Definition calculateProgress (now : Z) (h : heap) (collaboration : option Collaboration)
    : option Progress :=
  match collaboration with
  | None => None
  | Some collaboration =>
      let taskStats := calculateTaskProgress (array_or_empty h (tasks collaboration)) in
      let milestoneStats :=
        calculateMilestoneProgress (array_or_empty h (milestones collaboration)) in
      let overallProgress :=
        Math_round (inject_Z (TaskStats.progressPercentage taskStats) * 0.6
                    + inject_Z (MilestoneStats.progressPercentage milestoneStats) * 0.4) in
      let daysRemaining :=
        if truthy_date (endDate collaboration) then
          let endDate := Date_getTime (endDate collaboration) in
          let currentDate := Fin (inject_Z now) in
          let timeDiff := nsub endDate currentDate in
          Some (nceil (ndiv timeDiff msPerDay))
        else None in
      let status := "On Track" in
      let status :=
        match daysRemaining with
        | Some daysRemaining =>
            let totalDuration :=
              ndiv (nsub (Date_getTime (endDate collaboration))
                         (Date_getTime (startDate collaboration)))
                   msPerDay in
            let elapsedDuration := nsub totalDuration daysRemaining in
            let expectedProgress :=
              nround (nmul (ndiv elapsedDuration totalDuration) (Fin 100)) in
            if nlt (Fin (inject_Z overallProgress)) (nsub expectedProgress (Fin 10))
            then "Behind Schedule"
            else if nlt (Fin (inject_Z overallProgress)) (nsub expectedProgress (Fin 20))
            then "At Risk"
            else status
        | None => status
        end in
      Some {| overallProgress := overallProgress;
              progress_status := status;
              daysRemaining := daysRemaining;
              taskStats := taskStats;
              milestoneStats := milestoneStats |}
  end.

(** [task.id !== taskId]. *)
Definition other_id (taskId : option string) (o : object) : bool :=
  negb (bool_decide (o !! "id" = Str <$> taskId)).

(** [deleteTask(collaboration, taskId)]: [filter] builds a new array, which
    the copy gets. *)
Definition deleteTask (now : string) (collaboration : option Collaboration)
    (taskId : option string) (h : heap) : option Collaboration * heap :=
  match collaboration with
  | Some c =>
      if negb (truthy_string taskId) then (collaboration, h)
      else
        match tasks c with
        | None => (Some c, h)
        | Some l =>
            let array := default [] (h !! l) in
            let kept := List.filter (other_id taskId) array in
            let l' := fresh (dom h) in
            (Some (with_tasks c (Some l') now), <[l' := kept]> h)
        end
  | None => (collaboration, h)
  end.

(** [{ ...collaboration }] followed by assignments to [milestones] and
    [updatedAt] of the copy. *)
Definition with_milestones (c : Collaboration) (milestones : option loc)
    (updatedAt : string) : Collaboration :=
  {| id := id c; name := name c; startDate := startDate c; endDate := endDate c;
     tasks := tasks c; milestones := milestones; status := status c;
     createdAt := createdAt c; updatedAt := updatedAt |}.

(** [addMilestone(collaboration, milestone)]. *)
Definition addMilestone (now newId : string) (collaboration : option Collaboration)
    (milestone : option object) (h : heap) : option Collaboration * heap :=
  match collaboration, milestone with
  | Some c, Some milestone =>
      let '(milestonesRef, h) :=
        match milestones c with
        | Some l => (l, h)
        | None => let l := fresh (dom h) in (l, <[l := []]> h)
        end in
      let newMilestone : object :=
        list_to_map [
          ("id", or_else (milestone !! "id") (Str newId));
          ("title", or_else (milestone !! "title") (Str "Untitled Milestone"));
          ("description", or_else (milestone !! "description") (Str ""));
          ("dueDate", or_else (milestone !! "dueDate") Null);
          ("status", or_else (milestone !! "status") (Str "pending"));
          ("createdAt", or_else (milestone !! "createdAt") (Str now));
          ("updatedAt", Str now)
        ] in
      let h := alter (fun array => push_all array [newMilestone]) milestonesRef h in
      (Some (with_milestones c (Some milestonesRef) now), h)
  | _, _ => (collaboration, h)
  end.

(** [updateMilestone(collaboration, milestoneId, updates)]. *)
Definition updateMilestone (now : string) (collaboration : option Collaboration)
    (milestoneId : option string) (updates : option object) (h : heap)
    : option Collaboration * heap :=
  match collaboration, updates with
  | Some c, Some updates =>
      if negb (truthy_string milestoneId) then (collaboration, h)
      else
        match milestones c with
        | None => (Some c, h)
        | Some l =>
            let array := default [] (h !! l) in
            match list_find (fun milestone => milestone !! "id" = Str <$> milestoneId)
                    array with
            | None => (Some c, h)
            | Some (milestoneIndex, found) =>
                let updatedMilestone := apply_updates updates found in
                let updatedMilestone := <["updatedAt" := Str now]> updatedMilestone in
                let h :=
                  alter (fun array => <[milestoneIndex := updatedMilestone]> array) l h in
                (Some (with_milestones c (Some l) now), h)
            end
        end
  | _, _ => (collaboration, h)
  end.

(** [deleteMilestone(collaboration, milestoneId)]. *)
Definition deleteMilestone (now : string) (collaboration : option Collaboration)
    (milestoneId : option string) (h : heap) : option Collaboration * heap :=
  match collaboration with
  | Some c =>
      if negb (truthy_string milestoneId) then (collaboration, h)
      else
        match milestones c with
        | None => (Some c, h)
        | Some l =>
            let array := default [] (h !! l) in
            let kept := List.filter (other_id milestoneId) array in
            let l' := fresh (dom h) in
            (Some (with_milestones c (Some l') now), <[l' := kept]> h)
        end
  | None => (collaboration, h)
  end.

End ProjectManager.

(** ** Data manager (js/data.js) *)

Module DataManager.
Import JS.
Import PartnerMatcher.

(** The [complementaryIndustries] table of this module. *)
Definition complementaryIndustries : gmap string (list string) :=
  object_literal [
    ("sports", ["entertainment"; "healthcare"; "retail"]);
    ("entertainment", ["sports"; "technology"; "retail"]);
    ("technology", ["entertainment"; "financial"; "healthcare"]);
    ("retail", ["sports"; "entertainment"]);
    ("financial", ["technology"]);
    ("healthcare", ["sports"; "technology"])
  ].

(** The [sizeCompatibility] table; the row of 'medium' names 'small'
    twice. *)
Definition sizeCompatibility : gmap string (gmap string Z) :=
  object_literal [
    ("startup", object_literal
       [("startup", 15); ("small", 12); ("medium", 8); ("large", 5); ("enterprise", 3)]);
    ("small", object_literal
       [("startup", 12); ("small", 15); ("medium", 12); ("large", 8); ("enterprise", 5)]);
    ("medium", object_literal
       [("startup", 8); ("small", 12); ("medium", 15); ("large", 12); ("small", 8)]);
    ("large", object_literal
       [("startup", 5); ("small", 8); ("medium", 12); ("large", 15); ("enterprise", 12)]);
    ("enterprise", object_literal
       [("startup", 3); ("small", 5); ("medium", 8); ("large", 12); ("enterprise", 15)])
  ]%Z.

(** [table[key]] for a key that may be [undefined]: the property of that
    name among the properties the literal itself defines. *)
Definition property {V} (table : gmap string V) (key : option string) : option V :=
  match key with
  | Some k => table !! k
  | None => None
  end.

(** [names.includes(x)] for an [x] that may be [undefined]. *)
Definition includes_name (names : list string) (x : option string) : bool :=
  match x with
  | Some s => includes names s
  | None => false
  end.

Definition industry_points (brand1 brand2 : BrandProfile) : Z :=
  if bool_decide (industry brand1 = industry brand2) then 20
  else
    match property complementaryIndustries (industry brand1) with
    | Some l => if includes_name l (industry brand2) then 10 else 0
    | None => 0
    end.

Definition geography_points (brand1 brand2 : BrandProfile) : Z :=
  let g1 := geographicFocus brand1 in
  let g2 := geographicFocus brand2 in
  if bool_decide (g1 = g2) then 15
  else if (bool_decide (g1 = Some "global") && includes_name ["international"; "national"] g2)
          || (bool_decide (g2 = Some "global") && includes_name ["international"; "national"] g1)
  then 10
  else if (bool_decide (g1 = Some "international") && bool_decide (g2 = Some "national"))
          || (bool_decide (g2 = Some "international") && bool_decide (g1 = Some "national"))
  then 8
  else 0.

(** [list1.filter(x => list2.includes(x))] where either list may be
    missing: the first must be an array, the second is read only when the
    first has an element. *)
Definition shared (list1 list2 : option (list string)) (method : string)
    : completion (list string) :=
  match list1 with
  | None => Throw (type_error method)
  | Some [] => Return []
  | Some l1 =>
      match list2 with
      | None => Throw (type_error "includes")
      | Some l2 => Return (List.filter (fun x => includes l2 x) l1)
      end
  end.

Definition size_points (brand1 brand2 : BrandProfile) : Z :=
  match property sizeCompatibility (companySize brand1) with
  | Some row =>
      match property row (companySize brand2) with
      | Some points => points
      | None => 0
      end
  | None => 0
  end.

(** [DataManager.calculateCompatibilityScore(brand1, brand2)]; the profiles
    are read without any check. *)
Definition calculateCompatibilityScore (brand1 brand2 : option BrandProfile)
    : completion Z :=
  match brand1, brand2 with
  | Some brand1, Some brand2 =>
      let score := 0%Z in
      let score := (score + industry_points brand1 brand2)%Z in
      let score := (score + geography_points brand1 brand2)%Z in
      match shared (values brand1) (values brand2) "filter" with
      | Throw e => Throw e
      | Return sharedValues =>
          let score := (score + Z.min 25 (Z.of_nat (length sharedValues) * 8))%Z in
          match partnership brand1, partnership brand2 with
          | Some p1, Some p2 =>
              match shared (objectives p1) (objectives p2) "filter" with
              | Throw e => Throw e
              | Return sharedObjectives =>
                  let score :=
                    (score + Z.min 25 (Z.of_nat (length sharedObjectives) * 10))%Z in
                  let score := (score + size_points brand1 brand2)%Z in
                  Return (Z.min 100 (Z.max 0 score))
              end
          | _, _ => Throw (type_error "objectives")
          end
      end
  | _, _ => Throw (type_error "industry")
  end.

End DataManager.

(** * Vocabulary of the properties

    The predicates the statements below are written with, and the concrete
    records they are tried on. *)

(** ** Partner matching *)

Module PartnerMatcherSpec.
Import JS PartnerMatcher.
Local Open Scope Q_scope.

(** The names the two compatibility matrices know. *)
Definition geographies : list string :=
  ["local"; "regional"; "national"; "international"; "global"].

Definition sizes : list string :=
  ["startup"; "small"; "medium"; "large"; "enterprise"].

(** A matrix over [names]: one row per name, one entry per name in each
    row, every entry above 0 and at most 1. *)
Definition full_matrix (names : list string) (matrix : gmap string (gmap string Q)) : Prop :=
  dom matrix = list_to_set names /\
  map_Forall (fun _ row =>
    dom row = (list_to_set names : gset string) /\
    map_Forall (fun _ v => Qltb 0 v && Qle_bool v 1 = true) row) matrix.

(** A profile that lists no value and no objective twice. *)
Definition lists_without_duplicates (brand : option BrandProfile) : Prop :=
  forall b, brand = Some b ->
    (forall l, values b = Some l -> NoDup l) /\
    (forall l, objectives_or_empty b = Some l -> NoDup l).

(** A profile with nothing missing: the three names are non-empty strings
    and both lists have at least one element. *)
Definition complete_profile (a : BrandProfile) : Prop :=
  truthy_string (industry a) = true /\
  truthy_string (geographicFocus a) = true /\
  truthy_string (companySize a) = true /\
  (exists v vs, values a = Some (v :: vs)) /\
  (exists p o os, partnership a = Some p /\ objectives p = Some (o :: os)).

(** A profile whose list of values is empty. *)
Definition profile_without_values : BrandProfile :=
  {| industry := Some "technology";
     values := Some [];
     partnership := Some {| objectives := Some ["awareness"] |};
     geographicFocus := Some "global";
     companySize := Some "large" |}.

(** A complete profile. *)
Definition sample_profile : BrandProfile :=
  {| industry := Some "technology";
     values := Some ["innovation"; "quality"];
     partnership := Some {| objectives := Some ["awareness"] |};
     geographicFocus := Some "global";
     companySize := Some "large" |}.

(** Two profiles that differ in their industry only. *)
Definition automotive_brand : BrandProfile :=
  {| industry := Some "automotive";
     values := Some ["innovation"];
     partnership := Some {| objectives := Some ["awareness"] |};
     geographicFocus := Some "national";
     companySize := Some "large" |}.

Definition technology_brand : BrandProfile :=
  {| industry := Some "technology";
     values := Some ["innovation"];
     partnership := Some {| objectives := Some ["awareness"] |};
     geographicFocus := Some "national";
     companySize := Some "large" |}.

(** The order of a ranking: the higher score first. *)
Definition descending (a b : ScoredPartner) : Prop :=
  (compatibilityScore b <= compatibilityScore a)%Z.

(** Two profiles that agree on everything; the first repeats its value and
    its objective three times. *)
Definition brand_with_repeated_entries : BrandProfile :=
  {| industry := Some "retail";
     values := Some ["quality"; "quality"; "quality"];
     partnership := Some {| objectives := Some ["awareness"; "awareness"; "awareness"] |};
     geographicFocus := Some "local";
     companySize := Some "small" |}.

Definition brand_with_single_entries : BrandProfile :=
  {| industry := Some "retail";
     values := Some ["quality"];
     partnership := Some {| objectives := Some ["awareness"] |};
     geographicFocus := Some "local";
     companySize := Some "small" |}.

(** The order of an ascending ranking. *)
Definition ascending (a b : ScoredPartner) : Prop :=
  (compatibilityScore a <= compatibilityScore b)%Z.

(** A partner scored against [brand], as [findMostPromisingPartners] builds
    it. *)
Definition scored (brand : BrandProfile) (p : option BrandProfile) : ScoredPartner :=
  {| partner := p; compatibilityScore := calculateCompatibilityScore (Some brand) p |}.

(** [partner] passes the name filters of [filters] that are set. *)
Definition matches_names (filters : Filters.t) (p : BrandProfile) : Prop :=
  (truthy_string (Filters.industry filters) = true ->
     industry p = Filters.industry filters) /\
  (truthy_string (Filters.companySize filters) = true ->
     companySize p = Filters.companySize filters) /\
  (truthy_string (Filters.geographicFocus filters) = true ->
     geographicFocus p = Filters.geographicFocus filters).

(** [owned] has one of the [wanted] entries at least, when any is wanted. *)
Definition shares_one (wanted : option (list string)) (owned : option (list string))
    : Prop :=
  forall w ws, wanted = Some (w :: ws) ->
    exists l x, owned = Some l /\ x ∈ (w :: ws) /\ x ∈ l.

(** Filters that ask for nothing. *)
Definition no_filters : Filters.t :=
  {| Filters.industry := None; Filters.companySize := None;
     Filters.geographicFocus := None; Filters.values := None;
     Filters.objectives := None |}.

(** A filter on one value. *)
Definition values_filter (value : string) : Filters.t :=
  {| Filters.industry := None; Filters.companySize := None;
     Filters.geographicFocus := None; Filters.values := Some [value];
     Filters.objectives := None |}.

(** A profile without a [values] property, and one whose partnership has no
    [objectives]. *)
Definition profile_missing_values : BrandProfile :=
  {| industry := Some "retail"; values := None;
     partnership := Some {| objectives := Some ["sales"] |};
     geographicFocus := Some "local"; companySize := Some "small" |}.

Definition profile_missing_objectives : BrandProfile :=
  {| industry := Some "retail"; values := Some ["quality"];
     partnership := Some {| objectives := None |};
     geographicFocus := Some "local"; companySize := Some "small" |}.

(** Filters that ask for nothing: no name is set and no value or objective
    is listed. *)
Definition asks_nothing (filters : Filters.t) : Prop :=
  truthy_string (Filters.industry filters) = false /\
  truthy_string (Filters.companySize filters) = false /\
  truthy_string (Filters.geographicFocus filters) = false /\
  default [] (Filters.values filters) = [] /\
  default [] (Filters.objectives filters) = [].

(** The objectives a partner's partnership lists, if it has any. *)
Definition partnership_objectives (p : BrandProfile) : option (list string) :=
  partnership p ≫= objectives.

(** The strengths, weaknesses and recommendations of a report, from its
    five rounded dimension scores. *)
Definition report_strengths (i v o g s : Z) : list string :=
  push_if (70 <=? s)%Z "company size compatibility"
    (push_if (70 <=? g)%Z "geographic alignment"
       (push_if (70 <=? o)%Z "compatible objectives"
          (push_if (70 <=? v)%Z "shared values"
             (push_if (70 <=? i)%Z "industry alignment" [])))).

Definition report_weaknesses (i v o g s : Z) : list string :=
  push_if (s <? 50)%Z "company size compatibility"
    (push_if (g <? 50)%Z "geographic alignment"
       (push_if (o <? 50)%Z "compatible objectives"
          (push_if (v <? 50)%Z "shared values"
             (push_if (i <? 50)%Z "industry alignment" [])))).

Definition report_recommendations (weaknesses : list string) : list string :=
  push_if (includes weaknesses "company size compatibility")
    "Establish clear roles and responsibilities that leverage each organization's strengths."
    (push_if (includes weaknesses "geographic alignment")
       "Consider a geographically focused pilot initiative."
       (push_if (includes weaknesses "compatible objectives")
          "Define clear partnership goals that benefit both organizations."
          (push_if (includes weaknesses "shared values")
             "Identify and emphasize the specific values that do align."
             (push_if (includes weaknesses "industry alignment")
                "Focus on cross-industry innovation opportunities." [])))).

End PartnerMatcherSpec.

(** ** ROI calculator *)

Module ROICalculatorSpec.
Import JS ROICalculator.
Local Open Scope Q_scope.

(** What a numeric property contributes: its number, and 0 when it is
    absent or not a number. *)
Definition amount (x : field) : Q := or_zero (parseFloat x).

(** [{directCosts: c}] and [{directRevenue: r}]. *)
Definition direct_costs_only (c : Q) : Investment :=
  {| directCosts := Num c; staffHours := Undefined; hourlyRate := Undefined;
     resourceAllocation := Undefined; marketingCosts := Undefined;
     technologyCosts := Undefined; otherCosts := Undefined |}.

Definition direct_revenue_only (r : Q) : Returns :=
  {| directRevenue := Num r; costSavings := Undefined; newCustomers := Undefined;
     customerLTV := Undefined; marketShareIncrease := Undefined;
     marketShareValue := Undefined; otherReturns := Undefined |}.

(** [{}]: a partnership record without any property. *)
Definition empty_partnership : Partnership :=
  {| investment := None; returns := None; timeframeMonths := Undefined;
     audienceReach := Undefined; audienceOverlap := Undefined;
     audienceEngagement := Undefined; brandAlignment := Undefined;
     reputationEnhancement := Undefined; brandVisibility := Undefined;
     innovationPotential := Undefined; technologyAccess := Undefined;
     ipCreation := Undefined; newMarketAccess := Undefined;
     channelExpansion := Undefined; competitiveAdvantage := Undefined;
     strategicAlignment := Undefined; longTermPotential := Undefined;
     ecosystemIntegration := Undefined; investmentSize := Undefined;
     revenueUncertainty := Undefined; costOverrunRisk := Undefined;
     partnerReputationRisk := Undefined; brandAlignmentRisk := Undefined;
     integrationComplexity := Undefined; resourceConflictRisk := Undefined;
     timelineRisk := Undefined; goalMisalignmentRisk := Undefined;
     dependencyRisk := Undefined; competitiveDisclosureRisk := Undefined |}.

(** The eleven inputs of the risk assessment. *)
Inductive RiskInput :=
  | InvestmentSize | RevenueUncertainty | CostOverrunRisk
  | PartnerReputationRisk | BrandAlignmentRisk
  | IntegrationComplexity | ResourceConflictRisk | TimelineRisk
  | GoalMisalignmentRisk | DependencyRisk | CompetitiveDisclosureRisk.

#[export] Instance RiskInput_eq_dec : EqDecision RiskInput.
Proof. solve_decision. Defined.

(** The property of the partnership record an input names. *)
Definition risk_input (i : RiskInput) (p : Partnership) : field :=
  match i with
  | InvestmentSize => investmentSize p
  | RevenueUncertainty => revenueUncertainty p
  | CostOverrunRisk => costOverrunRisk p
  | PartnerReputationRisk => partnerReputationRisk p
  | BrandAlignmentRisk => brandAlignmentRisk p
  | IntegrationComplexity => integrationComplexity p
  | ResourceConflictRisk => resourceConflictRisk p
  | TimelineRisk => timelineRisk p
  | GoalMisalignmentRisk => goalMisalignmentRisk p
  | DependencyRisk => dependencyRisk p
  | CompetitiveDisclosureRisk => competitiveDisclosureRisk p
  end.

(** A partnership record with five risk inputs rated and [timelineRisk]
    set to [x]. *)
Definition with_timelineRisk (x : field) : Partnership :=
  {| investment := None; returns := None; timeframeMonths := Undefined;
     audienceReach := Undefined; audienceOverlap := Undefined;
     audienceEngagement := Undefined; brandAlignment := Undefined;
     reputationEnhancement := Undefined; brandVisibility := Undefined;
     innovationPotential := Undefined; technologyAccess := Undefined;
     ipCreation := Undefined; newMarketAccess := Undefined;
     channelExpansion := Undefined; competitiveAdvantage := Undefined;
     strategicAlignment := Undefined; longTermPotential := Undefined;
     ecosystemIntegration := Undefined; investmentSize := Num 3;
     revenueUncertainty := Num 2; costOverrunRisk := Undefined;
     partnerReputationRisk := Num 4; brandAlignmentRisk := Undefined;
     integrationComplexity := Num 1; resourceConflictRisk := Undefined;
     timelineRisk := x; goalMisalignmentRisk := Num 5;
     dependencyRisk := Undefined; competitiveDisclosureRisk := Undefined |}.

Definition between_0_and_100 (z : Z) : Prop := (0 <= z <= 100)%Z.

(** The inputs of the five strategic-value dimensions and of the four risk
    dimensions. *)
Definition strategic_inputs (p : Partnership) : list field :=
  [audienceReach p; audienceOverlap p; audienceEngagement p;
   brandAlignment p; reputationEnhancement p; brandVisibility p;
   innovationPotential p; technologyAccess p; ipCreation p;
   newMarketAccess p; channelExpansion p; competitiveAdvantage p;
   strategicAlignment p; longTermPotential p; ecosystemIntegration p].

Definition risk_inputs (p : Partnership) : list field :=
  [investmentSize p; revenueUncertainty p; costOverrunRisk p;
   partnerReputationRisk p; brandAlignmentRisk p;
   integrationComplexity p; resourceConflictRisk p; timelineRisk p;
   goalMisalignmentRisk p; dependencyRisk p; competitiveDisclosureRisk p].

(** No input is negative and the audience overlap is at most 100 (it is
    a percentage). *)
Definition inputs_in_scale (p : Partnership) : Prop :=
  Forall (fun x => 0 <= amount x) (strategic_inputs p ++ risk_inputs p) /\
  amount (audienceOverlap p) <= 100.

(** The nine dimension scores of a partnership record. *)
Definition dimension_scores (p : Partnership) : list Z :=
  [calculateAudienceScore p; calculateBrandScore p; calculateInnovationScore p;
   calculateMarketAccessScore p; calculateRelationshipScore p;
   calculateFinancialRisk p; calculateReputationRisk p;
   calculateOperationalRisk p; calculateStrategicRisk p].

(** How many of the four risk scores reach 30, the lower threshold of the
    mitigation recommendations. *)
Definition risks_from_30 (ra : RiskAssessment) : nat :=
  length (List.filter (fun z => (30 <=? z)%Z)
            [financial (riskScores ra); reputation (riskScores ra);
             operational (riskScores ra); strategic (riskScores ra)]).

(** A partnership record with both financial records and the given
    timeframe, and nothing else. *)
Definition financial_partnership (costs revenue : Q) (months : field) : Partnership :=
  {| investment := Some (direct_costs_only costs);
     returns := Some (direct_revenue_only revenue);
     timeframeMonths := months;
     audienceReach := Undefined; audienceOverlap := Undefined;
     audienceEngagement := Undefined; brandAlignment := Undefined;
     reputationEnhancement := Undefined; brandVisibility := Undefined;
     innovationPotential := Undefined; technologyAccess := Undefined;
     ipCreation := Undefined; newMarketAccess := Undefined;
     channelExpansion := Undefined; competitiveAdvantage := Undefined;
     strategicAlignment := Undefined; longTermPotential := Undefined;
     ecosystemIntegration := Undefined; investmentSize := Undefined;
     revenueUncertainty := Undefined; costOverrunRisk := Undefined;
     partnerReputationRisk := Undefined; brandAlignmentRisk := Undefined;
     integrationComplexity := Undefined; resourceConflictRisk := Undefined;
     timelineRisk := Undefined; goalMisalignmentRisk := Undefined;
     dependencyRisk := Undefined; competitiveDisclosureRisk := Undefined |}.


End ROICalculatorSpec.

(** ** Project management *)

Module ProjectManagerSpec.
Import JS ProjectManager.
Local Open Scope Q_scope.

(** The task object [addTask] builds. *)
Definition new_task (now newId : string) (task : object) : object :=
  list_to_map [
    ("id", or_else (task !! "id") (Str newId));
    ("title", or_else (task !! "title") (Str "Untitled Task"));
    ("description", or_else (task !! "description") (Str ""));
    ("assignedTo", or_else (task !! "assignedTo") (Str ""));
    ("dueDate", or_else (task !! "dueDate") Null);
    ("status", or_else (task !! "status") (Str "pending"));
    ("priority", or_else (task !! "priority") (Str "medium"));
    ("createdAt", or_else (task !! "createdAt") (Str now));
    ("updatedAt", Str now)
  ].

(** A collaboration whose [tasks] property holds the array at [l], and a
    task to add to it. *)
Definition collaboration_with_tasks (l : loc) : Collaboration :=
  {| id := "c1"; name := "Launch"; startDate := DateTime 0; endDate := DateUndefined;
     tasks := Some l; milestones := None; status := "active";
     createdAt := "2024-01-01T00:00:00.000Z"; updatedAt := "2024-01-01T00:00:00.000Z" |}.

Definition kickoff : object := {[ "id" := Str "t1"; "title" := Str "Kickoff" ]}.

(** A collaboration that is 40 days into a 100-day schedule with nothing
    done. *)
Definition late_collaboration : Collaboration :=
  {| id := "c2"; name := "Pilot"; startDate := DateTime 0;
     endDate := DateTime (100 * 86400000);
     tasks := None; milestones := None; status := "active";
     createdAt := "2024-01-01T00:00:00.000Z"; updatedAt := "2024-01-01T00:00:00.000Z" |}.

(** The content of the task array and of the milestone array a
    collaboration holds ([[]] when it holds none). *)
Definition tasks_of (h : heap) (c : Collaboration) : list object :=
  default [] (tasks c ≫= fun l => h !! l).

Definition milestones_of (h : heap) (c : Collaboration) : list object :=
  default [] (milestones c ≫= fun l => h !! l).

(** The object has another id than [taskId]. *)
Definition not_the_task (taskId : string) (o : object) : Prop :=
  o !! "id" <> Some (Str taskId).

(** A task object with the given id and status, and a collaboration
    without a tasks property. *)
Definition task_with (taskId taskStatus : string) : object :=
  {[ "id" := Str taskId; "status" := Str taskStatus ]}.

Definition collaboration_without_tasks : Collaboration :=
  {| id := "c3"; name := "Draft"; startDate := DateTime 0; endDate := DateUndefined;
     tasks := None; milestones := None; status := "active";
     createdAt := "2024-01-01T00:00:00.000Z"; updatedAt := "2024-01-01T00:00:00.000Z" |}.

(** The task [updateTask] writes back: [found] with the updates applied and
    the update time set. *)
Definition updated_task (now : string) (updates found : object) : object :=
  <["updatedAt" := Str now]> (apply_updates updates found).

(** An update that renames a task and also tries to change its id. *)
Definition rename_and_reidentify : object :=
  {[ "title" := Str "Kick-off meeting"; "id" := Str "t9" ]}.

(** The milestone object [addMilestone] builds. *)
Definition new_milestone (now newId : string) (milestone : object) : object :=
  list_to_map [
    ("id", or_else (milestone !! "id") (Str newId));
    ("title", or_else (milestone !! "title") (Str "Untitled Milestone"));
    ("description", or_else (milestone !! "description") (Str ""));
    ("dueDate", or_else (milestone !! "dueDate") Null);
    ("status", or_else (milestone !! "status") (Str "pending"));
    ("createdAt", or_else (milestone !! "createdAt") (Str now));
    ("updatedAt", Str now)
  ].

(** A collaboration with a tasks array at [lt] and a milestones array at
    [lm], and a milestone. *)
Definition collaboration_with_both (lt lm : loc) : Collaboration :=
  {| id := "c4"; name := "Campaign"; startDate := DateTime 0; endDate := DateUndefined;
     tasks := Some lt; milestones := Some lm; status := "active";
     createdAt := "2024-01-01T00:00:00.000Z"; updatedAt := "2024-01-01T00:00:00.000Z" |}.

Definition launch : object := {[ "id" := Str "m1"; "title" := Str "Launch" ]}.

End ProjectManagerSpec.

(** ** Data manager *)

Module DataManagerSpec.
Import JS PartnerMatcher DataManager.
Local Open Scope Z_scope.

(** The value an object literal gives a name: that of the last property
    written with the name. *)
Fixpoint last_entry {V} (key : string) (properties : list (string * V)) : option V :=
  match properties with
  | [] => None
  | (k, v) :: properties =>
      match last_entry key properties with
      | Some later => Some later
      | None => if String.eqb key k then Some v else None
      end
  end.

(** The property names every object inherits from [Object.prototype].  The
    tables of the score are plain object literals, so a lookup under one of
    these names finds the inherited property; the statements below are about
    names that are none of them. *)
Definition Object_prototype_names : list string :=
  ["constructor"; "__proto__"; "hasOwnProperty"; "isPrototypeOf";
   "propertyIsEnumerable"; "toLocaleString"; "toString"; "valueOf";
   "__defineGetter__"; "__defineSetter__"; "__lookupGetter__"; "__lookupSetter__"].

Definition own_name (key : option string) : Prop :=
  forall s, key = Some s -> s ∉ Object_prototype_names.

(** The names of the rows of [sizeCompatibility]. *)
Definition company_sizes : list string :=
  ["startup"; "small"; "medium"; "large"; "enterprise"].

(** The profile has the array [vs] of values and a partnership with the
    array [os] of objectives. *)
Definition has_lists (a : BrandProfile) (vs os : list string) : Prop :=
  values a = Some vs /\ exists p, partnership a = Some p /\ objectives p = Some os.

(** [list1.filter(x => list2.includes(x))]. *)
Definition common (list1 list2 : list string) : list string :=
  List.filter (fun x => includes list2 x) list1.

(** An array the score reads is missing: one of the first profile, or one of
    the second profile that is searched because the array of the first has
    an element. *)
Definition missing_list (a b : BrandProfile) : Prop :=
  values a = None \/
  (exists v vs, values a = Some (v :: vs) /\ values b = None) \/
  partnership a = None \/
  partnership b = None \/
  (exists p, partnership a = Some p /\ objectives p = None) \/
  (exists pa pb o os,
     partnership a = Some pa /\ partnership b = Some pb /\
     objectives pa = Some (o :: os) /\ objectives pb = None).

(** By how much the score of (b, a) exceeds that of (a, b) when a has size
    [s1] and b has size [s2]. *)
Definition size_gap (s1 s2 : string) : Z :=
  if bool_decide ((s1, s2) = ("medium", "small")) then 4
  else if bool_decide ((s1, s2) = ("small", "medium")) then -4
  else if bool_decide ((s1, s2) = ("medium", "enterprise")) then 8
  else if bool_decide ((s1, s2) = ("enterprise", "medium")) then -8
  else 0.

(** A medium-sized and a small company that agree on everything else. *)
Definition medium_company : BrandProfile :=
  {| industry := Some "retail";
     values := Some ["quality"; "service"];
     partnership := Some {| objectives := Some ["awareness"] |};
     geographicFocus := Some "national";
     companySize := Some "medium" |}.

Definition small_company : BrandProfile :=
  {| industry := Some "retail";
     values := Some ["quality"; "service"];
     partnership := Some {| objectives := Some ["awareness"] |};
     geographicFocus := Some "national";
     companySize := Some "small" |}.

(** A profile with four values and three objectives, and one without a
    partnership. *)
Definition rich_profile : BrandProfile :=
  {| industry := Some "sports";
     values := Some ["quality"; "service"; "innovation"; "trust"];
     partnership := Some {| objectives := Some ["awareness"; "reach"; "sales"] |};
     geographicFocus := Some "global";
     companySize := Some "large" |}.

Definition profile_without_partnership : BrandProfile :=
  {| industry := Some "sports";
     values := Some ["quality"];
     partnership := None;
     geographicFocus := Some "global";
     companySize := Some "large" |}.

End DataManagerSpec.

(** ** Names the tables of the partner matcher are read with *)

Module LookupSpec.
Import PartnerMatcher DataManagerSpec.

(** The tables of calculateIndustryScore, calculateGeographyScore and
    calculateSizeScore are plain object literals too.  For the pair
    (brand1, brand2) they are read under the industry, the geographic focus
    and the company size of brand1 and under the geographic focus and the
    company size of brand2: none of these is a name every object
    inherits. *)
Definition plain_names (brand1 brand2 : BrandProfile) : Prop :=
  own_name (industry brand1) /\
  own_name (geographicFocus brand1) /\ own_name (geographicFocus brand2) /\
  own_name (companySize brand1) /\ own_name (companySize brand2).

Definition plain_pair (brand1 brand2 : option BrandProfile) : Prop :=
  forall b1 b2, brand1 = Some b1 -> brand2 = Some b2 -> plain_names b1 b2.

(** The same for a brand and each partner of a list. *)
Definition plain_candidates (brand : option BrandProfile)
    (partners : option (list (option BrandProfile))) : Prop :=
  forall candidates p, partners = Some candidates -> p ∈ candidates -> plain_pair brand p.

End LookupSpec.

(** * Properties *)

(** ** Facts about the JavaScript primitives *)

Module JSFacts.
Import JS.
Local Open Scope Q_scope.

Lemma Math_round_mono (x y : Q) : x <= y -> (Math_round x <= Math_round y)%Z.
Proof. intros Hxy. unfold Math_round. apply Qfloor_resp_le. lra. Qed.

Lemma Math_round_Qeq (x y : Q) : x == y -> Math_round x = Math_round y.
Proof. intros Hxy. unfold Math_round. apply Qfloor_comp. lra. Qed.

Lemma Math_round_inject_Z (z : Z) : Math_round (inject_Z z) = z.
Proof.
  unfold Math_round.
  pose proof (Qfloor_le (inject_Z z + 0.5)) as Hlo.
  pose proof (Qlt_floor (inject_Z z + 0.5)) as Hhi.
  set (f := Qfloor (inject_Z z + 0.5)) in *. clearbody f.
  rewrite inject_Z_plus in Hhi. change (inject_Z 1) with 1 in Hhi.
  assert (Hle : (f < z + 1)%Z).
  { rewrite Zlt_Qlt, inject_Z_plus. change (inject_Z 1) with 1. lra. }
  assert (Hge : (z < f + 1)%Z).
  { rewrite Zlt_Qlt, inject_Z_plus. change (inject_Z 1) with 1. lra. }
  lia.
Qed.

Lemma Math_round_between (lo hi : Z) (x : Q) :
  inject_Z lo <= x -> x <= inject_Z hi -> (lo <= Math_round x <= hi)%Z.
Proof.
  intros Hlo Hhi. split.
  - rewrite <- (Math_round_inject_Z lo). by apply Math_round_mono.
  - rewrite <- (Math_round_inject_Z hi). by apply Math_round_mono.
Qed.

Lemma Qltb_lt (x y : Q) : Qltb x y = true <-> x < y.
Proof.
  unfold Qltb. rewrite negb_true_iff.
  destruct (Qle_bool y x) eqn:E.
  - apply Qle_bool_iff in E. split; [done | lra].
  - split; [intros _ | done].
    apply Qnot_le_lt. intros Hle. apply Qle_bool_iff in Hle. congruence.
Qed.

Lemma Qltb_ge (x y : Q) : Qltb x y = false <-> y <= x.
Proof.
  rewrite <- not_true_iff_false, Qltb_lt. split; [apply Qnot_lt_le | lra].
Qed.

Lemma includes_elem_of (l : list string) (x : string) :
  includes l x = true <-> x ∈ l.
Proof.
  unfold includes. rewrite existsb_exists, list_elem_of_In. split.
  - intros (y & Hin & Heq). apply String.eqb_eq in Heq. by subst.
  - intros Hin. exists x. split; [done | apply String.eqb_refl].
Qed.

(** What [sort] does with a comparator whose sign is a total preorder. *)
Section sort.
Context {A : Type} (compareFn : A -> A -> Z).

Hypothesis before_total :
  forall x y, before compareFn x y \/ before compareFn y x.
Hypothesis before_trans :
  forall x y z, before compareFn x y -> before compareFn y z -> before compareFn x z.

Lemma Forall_sort_insert (P : A -> Prop) (x : A) (l : list A) :
  P x -> Forall P l -> Forall P (sort_insert compareFn x l).
Proof.
  intros Hx Hl. induction Hl as [|y l Hy Hl IH]; simpl.
  - by constructor.
  - destruct (compareFn x y <=? 0)%Z; repeat constructor; auto.
Qed.

Lemma sort_insert_sorted (x : A) (l : list A) :
  StronglySorted (before compareFn) l ->
  StronglySorted (before compareFn) (sort_insert compareFn x l).
Proof.
  induction 1 as [|y l Hsorted IH Hall]; simpl.
  - repeat constructor.
  - destruct (compareFn x y <=? 0)%Z eqn:E.
    + apply Z.leb_le in E. constructor; [by constructor |].
      constructor; [done |].
      eapply Forall_impl; [exact Hall |]. intros z Hz. by eapply before_trans.
    + apply Z.leb_gt in E. constructor; [done |].
      apply Forall_sort_insert; [| done].
      destruct (before_total x y) as [Hxy | Hyx]; [unfold before in Hxy; lia | done].
Qed.

Lemma sort_sorted (l : list A) : StronglySorted (before compareFn) (sort compareFn l).
Proof.
  induction l as [|x l IH]; simpl; [constructor | by apply sort_insert_sorted].
Qed.

Lemma sort_insert_length (x : A) (l : list A) :
  length (sort_insert compareFn x l) = S (length l).
Proof.
  induction l as [|y l IH]; simpl; [done |].
  destruct (compareFn x y <=? 0)%Z; simpl; by rewrite ?IH.
Qed.

Lemma sort_length (l : list A) : length (sort compareFn l) = length l.
Proof.
  induction l as [|x l IH]; simpl; [done |]. by rewrite sort_insert_length, IH.
Qed.
End sort.

Lemma StronglySorted_weaken {A} (R1 R2 : relation A) (l : list A) :
  (forall x y, R1 x y -> R2 x y) -> StronglySorted R1 l -> StronglySorted R2 l.
Proof.
  intros Himpl. induction 1 as [|x l Hsorted IH Hall]; constructor; [done |].
  eapply Forall_impl; [exact Hall | by auto].
Qed.

Lemma slice_from_0 {A} (l : list A) (n : Z) :
  (0 <= n)%Z -> slice l 0 n = take (Z.to_nat n) l.
Proof.
  intros Hn. unfold slice.
  assert (slice_index (Z.of_nat (length l)) 0 = 0%Z) as ->.
  { unfold slice_index. simpl. lia. }
  assert (slice_index (Z.of_nat (length l)) n = Z.min n (Z.of_nat (length l))) as ->.
  { unfold slice_index. destruct (n <? 0)%Z eqn:E; [apply Z.ltb_lt in E; lia | done]. }
  rewrite Z.sub_0_r. change (drop (Z.to_nat 0) l) with l.
  destruct (Z.min_spec n (Z.of_nat (length l))) as [[Hlt ->] | [Hge ->]]; [done |].
  rewrite Nat2Z.id, firstn_all. symmetry. apply take_ge. lia.
Qed.

Lemma slice_sorted {A} (R : relation A) (l : list A) (i j : Z) :
  StronglySorted R l -> StronglySorted R (slice l i j).
Proof.
  intros Hl. unfold slice.
  set (k := Z.to_nat (slice_index _ i)). set (n := Z.to_nat _).
  rewrite <- (take_drop k l) in Hl. apply StronglySorted_app_1_r in Hl.
  rewrite <- (take_drop n (drop k l)) in Hl. by apply StronglySorted_app_1_l in Hl.
Qed.

Lemma sort_insert_Permutation {A} (compareFn : A -> A -> Z) (x : A) (l : list A) :
  sort_insert compareFn x l ≡ₚ x :: l.
Proof.
  induction l as [|y l IH]; simpl; [done |].
  destruct (compareFn x y <=? 0)%Z; [done |].
  rewrite IH. apply Permutation_swap.
Qed.

Lemma sort_Permutation {A} (compareFn : A -> A -> Z) (l : list A) :
  sort compareFn l ≡ₚ l.
Proof.
  induction l as [|x l IH]; simpl; [done |].
  by rewrite sort_insert_Permutation, IH.
Qed.

Lemma slice_sublist {A} (l : list A) (i j : Z) : slice l i j `sublist_of` l.
Proof.
  unfold slice. etrans; [apply sublist_take | apply sublist_drop].
Qed.

Lemma elem_of_push_if {A} (condition : bool) (x y : A) (l : list A) :
  y ∈ push_if condition x l <-> y ∈ l \/ (condition = true /\ y = x).
Proof.
  unfold push_if, push_all. destruct condition.
  - rewrite elem_of_app, list_elem_of_singleton.
    split; [intros [Hy | Hy]; auto | intros [Hy | [_ Hy]]; auto].
  - split; [auto | intros [Hy | [Hy _]]; [done | discriminate]].
Qed.

Lemma length_push_if {A} (condition : bool) (x : A) (l : list A) :
  length (push_if condition x l) = (length l + if condition then 1 else 0)%nat.
Proof.
  unfold push_if, push_all. destruct condition; [| lia].
  rewrite length_app. simpl. lia.
Qed.

(** What a [filter] with a throwing callback returns when it returns. *)
Lemma filter_throwing_Return {A} (callback : A -> completion bool) (l kept : list A) :
  filter_throwing callback l = Return kept ->
  kept `sublist_of` l /\
  (forall x, x ∈ kept -> callback x = Return true) /\
  (forall x, x ∈ l -> callback x = Return true -> x ∈ kept).
Proof.
  revert kept. induction l as [|x l IH]; simpl; intros kept Hkept.
  - injection Hkept as <-. split; [done |]. split; intros y Hy; by apply elem_of_nil in Hy.
  - destruct (callback x) as [keep|] eqn:Hx; [| done].
    destruct (filter_throwing callback l) as [kept'|]; [| done].
    injection Hkept as <-. destruct (IH kept' eq_refl) as (Hsub & Hsound & Hcomplete).
    destruct keep.
    + split; [by apply sublist_skip |]. split.
      * intros y [-> | Hy]%elem_of_cons; auto.
      * intros y [-> | Hy]%elem_of_cons Hpass; [left | right; auto].
    + split; [by apply sublist_cons |]. split; [done |].
      intros y [-> | Hy]%elem_of_cons Hpass; [congruence | auto].
Qed.

Lemma filter_throwing_all {A} (callback : A -> completion bool) (l : list A) :
  (forall x, x ∈ l -> callback x = Return true) ->
  filter_throwing callback l = Return l.
Proof.
  induction l as [|x l IH]; simpl; intros Hall; [done |].
  rewrite (Hall x) by left. rewrite IH; [done |].
  intros y Hy. apply Hall. by right.
Qed.

Lemma filter_throwing_no_throw {A} (callback : A -> completion bool) (l : list A) :
  (forall x, x ∈ l -> exists keep, callback x = Return keep) ->
  exists kept, filter_throwing callback l = Return kept.
Proof.
  induction l as [|x l IH]; simpl; intros Hall; [by eexists |].
  destruct (Hall x) as [keep ->]; [left |].
  destruct IH as [kept ->]; [intros y Hy; apply Hall; by right |].
  by eexists.
Qed.

Lemma inject_Z_range (lo hi z : Z) :
  (lo <= z <= hi)%Z -> inject_Z lo <= inject_Z z /\ inject_Z z <= inject_Z hi.
Proof. intros [Hlo Hhi]. by rewrite <- !Zle_Qle. Qed.

End JSFacts.

(** ** Partner matching *)

Module PartnerMatcherFacts.
Import JS JSFacts PartnerMatcher PartnerMatcherSpec.
Local Open Scope Q_scope.

(** Walks over the entries of an object literal. *)
Ltac table_Forall :=
  repeat (rewrite list_to_map_cons; apply map_Forall_insert_2; [| ]);
  [.. | rewrite list_to_map_nil; apply map_Forall_empty].

Ltac full_matrix_by_entries :=
  split; [by rewrite dom_list_to_map_L |];
  table_Forall; (split; [by rewrite dom_list_to_map_L | table_Forall; reflexivity]).

(** A name that is written out is none of the inherited names. *)
Ltac plain_name :=
  let s := fresh "s" in
  let Hs := fresh "Hs" in
  intros s Hs;
  first [discriminate Hs | injection Hs as <-; by apply (bool_decide_unpack _)].

Ltac plain_profiles :=
  let Hb1 := fresh "Hb" in
  let Hb2 := fresh "Hb" in
  intros ? ? Hb1 Hb2;
  first [discriminate Hb1 | discriminate Hb2
        | injection Hb1 as <-; injection Hb2 as <-; repeat split; plain_name].

Lemma geographyMatrix_full : full_matrix geographies geographyMatrix.
Proof. unfold geographyMatrix. full_matrix_by_entries. Qed.

Lemma sizeMatrix_full : full_matrix sizes sizeMatrix.
Proof. unfold sizeMatrix. full_matrix_by_entries. Qed.

Lemma matrix_entry_unknown names matrix (k1 k2 : string) :
  full_matrix names matrix ->
  k1 ∉ names \/ k2 ∉ names ->
  matrix_entry matrix k1 k2 = None.
Proof.
  intros [Hdom Hrows] Hunknown. unfold matrix_entry.
  destruct (matrix !! k1) as [row|] eqn:Hrow; [| done].
  destruct (Hrows _ _ Hrow) as [Hrowdom _].
  assert (k1 ∈ names) as Hk1.
  { apply (elem_of_list_to_set (C := gset string)). rewrite <- Hdom.
    apply elem_of_dom. by eexists. }
  destruct Hunknown as [? | Hk2]; [done |].
  assert (row !! k2 = None) as ->; [| done].
  apply not_elem_of_dom. rewrite Hrowdom. by rewrite elem_of_list_to_set.
Qed.

Lemma matrix_entry_known names matrix (k1 k2 : string) :
  full_matrix names matrix ->
  k1 ∈ names -> k2 ∈ names ->
  exists v, matrix !! k1 ≫= (.!! k2) = Some v /\
            matrix_entry matrix k1 k2 = Some v /\ 0 < v /\ v <= 1.
Proof.
  intros [Hdom Hrows] Hk1 Hk2. unfold matrix_entry.
  assert (is_Some (matrix !! k1)) as [row Hrow].
  { apply elem_of_dom. rewrite Hdom. by apply elem_of_list_to_set. }
  destruct (Hrows _ _ Hrow) as [Hrowdom Hentries].
  assert (is_Some (row !! k2)) as [v Hv].
  { apply elem_of_dom. rewrite Hrowdom. by apply elem_of_list_to_set. }
  specialize (Hentries _ _ Hv). simpl in Hentries.
  apply andb_true_iff in Hentries as [Hpos Hle].
  apply Qltb_lt in Hpos. apply Qle_bool_iff in Hle.
  exists v. rewrite Hrow. simpl. rewrite Hv.
  destruct (Qeq_bool v 0) eqn:E; [apply Qeq_bool_iff in E; lra | done].
Qed.

Lemma matrix_entry_range names matrix (k1 k2 : string) (v : Q) :
  full_matrix names matrix ->
  matrix_entry matrix k1 k2 = Some v -> 0 < v /\ v <= 1.
Proof.
  intros [Hdom Hrows]. unfold matrix_entry.
  destruct (matrix !! k1) as [row|] eqn:Hrow; [| done].
  destruct (row !! k2) as [w|] eqn:Hw; [| done].
  destruct (Qeq_bool w 0); [done |]. intros [= <-].
  destruct (Hrows _ _ Hrow) as [_ Hentries].
  specialize (Hentries _ _ Hw). simpl in Hentries.
  apply andb_true_iff in Hentries as [Hpos Hle].
  apply Qltb_lt in Hpos. by apply Qle_bool_iff in Hle.
Qed.

Lemma same_string_score (s : option string) :
  truthy_string s = true ->
  calculateIndustryScore s s = 1.0 /\
  calculateGeographyScore s s = 1.0 /\
  calculateSizeScore s s = 1.0.
Proof.
  intros Hs. unfold calculateIndustryScore, calculateGeographyScore, calculateSizeScore.
  rewrite Hs. simpl. destruct s as [s|]; [| done]. by rewrite String.eqb_refl.
Qed.

Lemma filter_includes_self (l : list string) :
  List.filter (fun x => includes l x) l = l.
Proof.
  apply forallb_filter_id, forallb_forall. intros x Hx.
  by apply includes_elem_of, list_elem_of_In.
Qed.

Lemma self_overlap (x : string) (l : list string) :
  calculateValuesScore (Some (x :: l)) (Some (x :: l)) == 1 /\
  calculateObjectivesScore (Some (x :: l)) (Some (x :: l)) == 1.
Proof.
  unfold calculateValuesScore, calculateObjectivesScore.
  rewrite filter_includes_self, Nat.min_id.
  change (length (x :: l) =? 0)%nat with false. cbv [orb].
  assert (~ Q_of_nat (length (x :: l)) == 0).
  { unfold Q_of_nat. simpl length. rewrite Nat2Z.inj_succ.
    change 0 with (inject_Z 0). rewrite inject_Z_injective. lia. }
  split; by field.
Qed.

(** The shared elements of a list without duplicates are at most as many
    as either list has. *)
Lemma shared_at_most_min (l1 l2 : list string) :
  NoDup l1 ->
  (length (List.filter (fun x => includes l2 x) l1) <= Nat.min (length l1) (length l2))%nat.
Proof.
  intros Hnodup. apply Nat.min_glb.
  - apply filter_length_le.
  - apply submseteq_length, NoDup_submseteq.
    + apply NoDup_ListNoDup, List.NoDup_filter. by apply NoDup_ListNoDup.
    + intros x Hx. apply list_elem_of_In, filter_In in Hx as [_ Hx].
      by apply includes_elem_of.
Qed.

Lemma Q_of_nat_ratio (n m : nat) :
  (n <= m)%nat -> (0 < m)%nat -> 0 <= Q_of_nat n / Q_of_nat m /\ Q_of_nat n / Q_of_nat m <= 1.
Proof.
  intros Hnm Hm. unfold Q_of_nat.
  assert (0 < inject_Z (Z.of_nat m)) as Hpos.
  { change 0 with (inject_Z 0). rewrite <- Zlt_Qlt. lia. }
  assert (0 <= inject_Z (Z.of_nat n)) as Hn.
  { change 0 with (inject_Z 0). rewrite <- Zle_Qle. lia. }
  assert (inject_Z (Z.of_nat n) <= inject_Z (Z.of_nat m)) as Hle.
  { rewrite <- Zle_Qle. lia. }
  split.
  - apply Qle_shift_div_l; [done | lra].
  - apply Qle_shift_div_r; [done | lra].
Qed.

Lemma overlap_range (l1 l2 : option (list string)) :
  (forall l, l1 = Some l -> NoDup l) ->
  (0 <= calculateValuesScore l1 l2 /\ calculateValuesScore l1 l2 <= 1) /\
  (0 <= calculateObjectivesScore l1 l2 /\ calculateObjectivesScore l1 l2 <= 1).
Proof.
  intros Hnodup. unfold calculateValuesScore, calculateObjectivesScore.
  destruct l1 as [l1|], l2 as [l2|]; try (split; lra).
  destruct (length l1 =? 0)%nat eqn:E1; [simpl; split; lra |].
  destruct (length l2 =? 0)%nat eqn:E2; [simpl; split; lra |].
  apply Nat.eqb_neq in E1, E2. cbv [orb].
  pose proof (shared_at_most_min l1 l2 (Hnodup _ eq_refl)).
  split; apply Q_of_nat_ratio; lia.
Qed.

Lemma industry_range (i1 i2 : option string) :
  0 <= calculateIndustryScore i1 i2 /\ calculateIndustryScore i1 i2 <= 1.
Proof.
  unfold calculateIndustryScore.
  repeat match goal with
    | |- context [if ?b then _ else _] => destruct b
    | |- context [match ?x with _ => _ end] => destruct x
    end; split; lra.
Qed.

Lemma geography_range (g1 g2 : option string) :
  0 <= calculateGeographyScore g1 g2 /\ calculateGeographyScore g1 g2 <= 1.
Proof.
  unfold calculateGeographyScore.
  destruct (_ || _); [split; lra |].
  destruct g1 as [g1|], g2 as [g2|]; try (split; lra).
  destruct (String.eqb g1 g2); [split; lra |].
  destruct (matrix_entry geographyMatrix g1 g2) as [v|] eqn:E; [| split; lra].
  apply (matrix_entry_range _ _ _ _ _ geographyMatrix_full) in E. lra.
Qed.

Lemma size_range (s1 s2 : option string) :
  0 <= calculateSizeScore s1 s2 /\ calculateSizeScore s1 s2 <= 1.
Proof.
  unfold calculateSizeScore.
  destruct (_ || _); [split; lra |].
  destruct s1 as [s1|], s2 as [s2|]; try (split; lra).
  destruct (String.eqb s1 s2); [split; lra |].
  destruct (matrix_entry sizeMatrix s1 s2) as [v|] eqn:E; [| split; lra].
  apply (matrix_entry_range _ _ _ _ _ sizeMatrix_full) in E. lra.
Qed.

Lemma compatibility_range (brand1 brand2 : option BrandProfile) :
  lists_without_duplicates brand1 ->
  (0 <= calculateCompatibilityScore brand1 brand2 <= 100)%Z.
Proof.
  intros Hnodup. unfold calculateCompatibilityScore.
  destruct brand1 as [b1|]; [| lia]. destruct brand2 as [b2|]; [| lia].
  destruct (Hnodup b1 eq_refl) as [Hvalues Hobjectives].
  pose proof (industry_range (industry b1) (industry b2)).
  pose proof (proj1 (overlap_range (values b1) (values b2) Hvalues)).
  pose proof (proj2 (overlap_range (objectives_or_empty b1) (objectives_or_empty b2)
                       Hobjectives)).
  pose proof (geography_range (geographicFocus b1) (geographicFocus b2)).
  pose proof (size_range (companySize b1) (companySize b2)).
  cbv zeta. unfold weights.industry, weights.values, weights.objectives,
    weights.geography, weights.companySize.
  apply Math_round_between.
  - change (inject_Z 0) with 0. nra.
  - change (inject_Z 100) with 100. nra.
Qed.

(** *** Identical profiles *)

(** C1, as the specification states it, fails: a profile whose industry,
    geographic focus and company size are equal to themselves but whose
    list of values is empty scores 75 against itself, because an empty list
    has overlap 0. *)
Lemma identical_profile_not_always_100 :
  industry profile_without_values = industry profile_without_values /\
  geographicFocus profile_without_values = geographicFocus profile_without_values /\
  companySize profile_without_values = companySize profile_without_values /\
  calculateCompatibilityScore (Some profile_without_values) (Some profile_without_values)
    = 75%Z /\
  calculateCompatibilityScore (Some profile_without_values) (Some profile_without_values)
    <> 100%Z.
Proof. repeat split; try (vm_compute; reflexivity). vm_compute. discriminate. Qed.

(** C1 (amended): for every brand profile whose industry, geographicFocus
    and companySize are non-empty strings and whose values and partnership
    objectives are non-empty arrays, calculateCompatibilityScore(a, a)
    returns 100. *)
Theorem identical_complete_profile_scores_100 (a : BrandProfile) :
  complete_profile a ->
  calculateCompatibilityScore (Some a) (Some a) = 100%Z.
Proof.
  intros (Hi & Hg & Hs & (v & vs & Hv) & (p & o & os & Hp & Ho)).
  unfold calculateCompatibilityScore. cbv zeta.
  destruct (same_string_score _ Hi) as (-> & _ & _).
  destruct (same_string_score _ Hg) as (_ & -> & _).
  destruct (same_string_score _ Hs) as (_ & _ & ->).
  assert (objectives_or_empty a = Some (o :: os)) as ->.
  { unfold objectives_or_empty. by rewrite Hp, Ho. }
  rewrite Hv.
  destruct (self_overlap v vs) as [Hvalues _].
  destruct (self_overlap o os) as [_ Hobjectives].
  rewrite <- (Math_round_inject_Z 100). apply Math_round_Qeq.
  rewrite Hvalues, Hobjectives.
  unfold weights.industry, weights.values, weights.objectives,
    weights.geography, weights.companySize.
  reflexivity.
Qed.

Lemma identical_complete_profile_scores_100_witness :
  calculateCompatibilityScore (Some sample_profile) (Some sample_profile) = 100%Z.
Proof.
  apply (identical_complete_profile_scores_100 sample_profile).
  unfold complete_profile, sample_profile; simpl.
  repeat split; eauto.
Defined.

(** *** Asymmetry *)

(** C9: the compatibility score is not symmetric.  There are profiles a
    and b with calculateCompatibilityScore(a, b) different from
    calculateCompatibilityScore(b, a): 'automotive' lists 'technology' as
    complementary (industry sub-score 0.7) while 'technology' does not list
    'automotive' (sub-score 0.3). *)
Theorem compatibility_score_not_symmetric :
  exists a b : BrandProfile,
    calculateCompatibilityScore (Some a) (Some b)
      <> calculateCompatibilityScore (Some b) (Some a) /\
    calculateIndustryScore (industry a) (industry b) = 0.7 /\
    calculateIndustryScore (industry b) (industry a) = 0.3.
Proof.
  exists automotive_brand, technology_brand.
  split; [vm_compute; discriminate | split; vm_compute; reflexivity].
Qed.

(** *** Missing fields *)

(** C10: when either argument is null, undefined or the empty string,
    calculateGeographyScore, calculateSizeScore and calculateIndustryScore
    return 0, not a default.  The defaults 0.3 and 0.5 are what two
    different non-empty strings get when one of them is unknown to the
    matrix and neither is a name every object inherits; two different names
    the matrix knows get its entry. *)
Theorem missing_field_scores_zero (x y : option string) :
  (truthy_string x = false \/ truthy_string y = false ->
     calculateGeographyScore x y = 0 /\
     calculateSizeScore x y = 0 /\
     calculateIndustryScore x y = 0) /\
  (forall s1 s2, x = Some s1 -> y = Some s2 -> s1 <> "" -> s2 <> "" -> s1 <> s2 ->
     (DataManagerSpec.own_name x -> DataManagerSpec.own_name y ->
      s1 ∉ geographies \/ s2 ∉ geographies -> calculateGeographyScore x y = 0.3) /\
     (DataManagerSpec.own_name x -> DataManagerSpec.own_name y ->
      s1 ∉ sizes \/ s2 ∉ sizes -> calculateSizeScore x y = 0.5) /\
     (s1 ∈ geographies -> s2 ∈ geographies ->
        geographyMatrix !! s1 ≫= (.!! s2) = Some (calculateGeographyScore x y)) /\
     (s1 ∈ sizes -> s2 ∈ sizes ->
        sizeMatrix !! s1 ≫= (.!! s2) = Some (calculateSizeScore x y))).
Proof.
  split.
  - intros Hfalsy.
    unfold calculateGeographyScore, calculateSizeScore, calculateIndustryScore.
    by destruct Hfalsy as [-> | ->]; rewrite ?orb_true_r.
  - intros s1 s2 -> -> H1 H2 Hne.
    unfold calculateGeographyScore, calculateSizeScore, truthy_string.
    apply String.eqb_neq in H1, H2, Hne. rewrite H1, H2, Hne. simpl.
    repeat split.
    + intros _ _ Hunknown.
      by rewrite (matrix_entry_unknown _ _ _ _ geographyMatrix_full Hunknown).
    + intros _ _ Hunknown.
      by rewrite (matrix_entry_unknown _ _ _ _ sizeMatrix_full Hunknown).
    + intros Hk1 Hk2.
      destruct (matrix_entry_known _ _ _ _ geographyMatrix_full Hk1 Hk2)
        as (v & -> & -> & _). done.
    + intros Hk1 Hk2.
      destruct (matrix_entry_known _ _ _ _ sizeMatrix_full Hk1 Hk2)
        as (v & -> & -> & _). done.
Qed.

Lemma missing_field_scores_zero_witness :
  (calculateGeographyScore None (Some "local") = 0 /\
   calculateSizeScore None (Some "local") = 0 /\
   calculateIndustryScore None (Some "local") = 0) /\
  calculateGeographyScore (Some "local") (Some "lunar") = 0.3 /\
  calculateSizeScore (Some "huge") (Some "small") = 0.5 /\
  geographyMatrix !! "local" ≫= (.!! "global")
    = Some (calculateGeographyScore (Some "local") (Some "global")).
Proof.
  split; [apply (missing_field_scores_zero None (Some "local")); by left |].
  destruct (missing_field_scores_zero (Some "local") (Some "lunar")) as [_ Hlunar].
  destruct (Hlunar "local" "lunar" eq_refl eq_refl) as (Hdefault & _); [done.. |].
  split; [apply Hdefault; [plain_name | plain_name | right; by apply (bool_decide_unpack _)] |].
  destruct (missing_field_scores_zero (Some "huge") (Some "small")) as [_ Hhuge].
  destruct (Hhuge "huge" "small" eq_refl eq_refl) as (_ & Hdefault' & _); [done.. |].
  split; [apply Hdefault'; [plain_name | plain_name | left; by apply (bool_decide_unpack _)] |].
  destruct (missing_field_scores_zero (Some "local") (Some "global")) as [_ Hglobal].
  destruct (Hglobal "local" "global" eq_refl eq_refl) as (_ & _ & Hentry & _); [done.. |].
  apply Hentry; by apply (bool_decide_unpack _).
Defined.

(** *** Ranking *)

Lemma sortPartnersByScore_descending (partners : option (list ScoredPartner)) :
  StronglySorted descending (sortPartnersByScore partners None).
Proof.
  unfold sortPartnersByScore. destruct partners as [partners|]; [| constructor].
  destruct (length partners =? 0)%nat; [constructor |]. simpl.
  apply (StronglySorted_weaken
           (before (fun a b => (compatibilityScore b - compatibilityScore a)%Z))).
  - unfold before, descending. intros a b. lia.
  - apply sort_sorted; unfold before; [intros a b | intros a b c]; lia.
Qed.

(** C8, as the specification states it, fails for a negative limit:
    [slice(0, -1)] drops the last entry only, so two partners and limit -1
    give a list of length 1. *)
Lemma negative_limit_exceeded :
  length (findMostPromisingPartners (Some sample_profile)
            (Some [Some automotive_brand; Some technology_brand]) (Some (-1)%Z)) = 1%nat /\
  ~ (Z.of_nat (length (findMostPromisingPartners (Some sample_profile)
            (Some [Some automotive_brand; Some technology_brand]) (Some (-1)%Z))) <= -1)%Z.
Proof.
  assert (length (findMostPromisingPartners (Some sample_profile)
            (Some [Some automotive_brand; Some technology_brand]) (Some (-1)%Z)) = 1%nat)
    as -> by (vm_compute; reflexivity).
  split; [reflexivity | lia].
Qed.

(** C8 (amended): for every brand profile and every list of partners whose
    industry, geographic focus and company size are not names every object
    inherits, findMostPromisingPartners returns a list sorted by
    compatibilityScore in descending order whose length does not exceed the
    limit, provided the limit is not negative (a limit that is left out
    means 5). *)
Theorem most_promising_sorted_and_limited (brand : option BrandProfile)
    (partners : option (list (option BrandProfile))) (limit : option Z) :
  LookupSpec.plain_candidates brand partners ->
  (0 <= default 5 limit)%Z ->
  StronglySorted descending (findMostPromisingPartners brand partners limit) /\
  (Z.of_nat (length (findMostPromisingPartners brand partners limit))
     <= default 5 limit)%Z.
Proof.
  intros _ Hlimit. unfold findMostPromisingPartners.
  destruct brand as [b|]; [| split; [constructor | simpl; lia]].
  destruct partners as [partners|]; [| split; [constructor | simpl; lia]].
  destruct (length partners =? 0)%nat; [split; [constructor | simpl; lia] |].
  cbv zeta. split.
  - apply slice_sorted, sortPartnersByScore_descending.
  - rewrite slice_from_0 by done. rewrite length_take. lia.
Qed.

Lemma most_promising_sorted_and_limited_witness :
  StronglySorted descending
    (findMostPromisingPartners (Some sample_profile)
       (Some [Some automotive_brand; None; Some technology_brand]) (Some 2%Z)) /\
  (Z.of_nat (length (findMostPromisingPartners (Some sample_profile)
       (Some [Some automotive_brand; None; Some technology_brand]) (Some 2%Z))) <= 2)%Z.
Proof.
  apply (most_promising_sorted_and_limited (Some sample_profile)
           (Some [Some automotive_brand; None; Some technology_brand]) (Some 2%Z)).
  - intros candidates p [= <-] Hp.
    repeat (apply elem_of_cons in Hp as [-> | Hp]); [plain_profiles.. |].
    by apply elem_of_nil in Hp.
  - simpl. lia.
Defined.

(** *** Sorting and ranking, continued *)

(** X1: sortPartnersByScore returns a rearrangement of the partners it is
    given: no entry is lost, added or repeated, whatever the order asked
    for. *)
Theorem sortPartnersByScore_permutation
    (partners : list ScoredPartner) (order : option string) :
  sortPartnersByScore (Some partners) order ≡ₚ partners.
Proof.
  unfold sortPartnersByScore. destruct partners as [|p partners]; [done |].
  change (length (p :: partners) =? 0)%nat with false. cbv iota zeta.
  destruct (String.eqb _ _); apply sort_Permutation.
Qed.

(** X2: with order 'asc' sortPartnersByScore sorts by ascending
    compatibilityScore; with any other order, or none, by descending
    compatibilityScore. *)
Theorem sortPartnersByScore_order
    (partners : option (list ScoredPartner)) (order : option string) :
  if bool_decide (order = Some "asc")
  then StronglySorted ascending (sortPartnersByScore partners order)
  else StronglySorted descending (sortPartnersByScore partners order).
Proof.
  assert (forall R : relation ScoredPartner, StronglySorted R []) as Hnil by constructor.
  unfold sortPartnersByScore.
  destruct partners as [partners|]; [| by case_bool_decide].
  destruct (length partners =? 0)%nat; [by case_bool_decide |]. cbv zeta.
  case_bool_decide as Horder.
  - subst order. simpl.
    apply (StronglySorted_weaken
             (before (fun a b => (compatibilityScore a - compatibilityScore b)%Z))).
    + unfold before, ascending. intros a b. lia.
    + apply sort_sorted; unfold before; [intros a b | intros a b c]; lia.
  - assert (String.eqb (default "desc" order) "asc" = false) as ->.
    { apply String.eqb_neq. destruct order as [o|]; simpl; congruence. }
    apply (StronglySorted_weaken
             (before (fun a b => (compatibilityScore b - compatibilityScore a)%Z))).
    + unfold before, descending. intros a b. lia.
    + apply sort_sorted; unfold before; [intros a b | intros a b c]; lia.
Qed.

Lemma most_promising_unfold (brand : BrandProfile) (p : option BrandProfile)
    (partners : list (option BrandProfile)) (limit : option Z) :
  findMostPromisingPartners (Some brand) (Some (p :: partners)) limit =
    slice (sort (fun a b => (compatibilityScore b - compatibilityScore a)%Z)
             (map (scored brand) (p :: partners)))
      0 (default 5%Z limit).
Proof. reflexivity. Qed.

(** X3: every entry findMostPromisingPartners returns is one of the given
    partners together with the score calculateCompatibilityScore gives it
    against the brand. *)
Theorem most_promising_entries_are_scored_partners (brand : BrandProfile)
    (partners : list (option BrandProfile)) (limit : option Z) :
  Forall (fun entry => exists p, p ∈ partners /\ entry = scored brand p)
    (findMostPromisingPartners (Some brand) (Some partners) limit).
Proof.
  destruct partners as [|p partners]; [constructor |].
  rewrite most_promising_unfold. apply Forall_forall. intros entry Hentry.
  pose proof (elem_of_sublist _ _ _ Hentry (slice_sublist _ _ _)) as Hin.
  rewrite sort_Permutation in Hin.
  apply list_elem_of_fmap in Hin as (q & -> & Hq). eauto.
Qed.

(** X4: for a brand and partners whose industry, geographic focus and
    company size are not names every object inherits, and a limit that is
    not negative, findMostPromisingPartners returns as many entries as the
    limit allows and the list has; when the limit is positive its first
    entry scores at least as high as every given partner. *)
Theorem most_promising_length_and_best_first (brand : BrandProfile)
    (partners : list (option BrandProfile)) (limit : option Z) :
  LookupSpec.plain_candidates (Some brand) (Some partners) ->
  (0 <= default 5 limit)%Z ->
  length (findMostPromisingPartners (Some brand) (Some partners) limit)
    = Nat.min (Z.to_nat (default 5%Z limit)) (length partners) /\
  (forall p, (0 < default 5 limit)%Z -> p ∈ partners ->
     exists top,
       head (findMostPromisingPartners (Some brand) (Some partners) limit) = Some top /\
       (calculateCompatibilityScore (Some brand) p <= compatibilityScore top)%Z).
Proof.
  intros _ Hlimit.
  destruct partners as [|p0 partners].
  { split; [simpl; lia | intros p _ Hp; by apply elem_of_nil in Hp]. }
  rewrite most_promising_unfold, slice_from_0 by done.
  set (compareFn := fun a b : ScoredPartner =>
                      (compatibilityScore b - compatibilityScore a)%Z).
  split.
  { by rewrite length_take, sort_length, length_map. }
  intros p Hpos Hp.
  assert (StronglySorted (before compareFn) (sort compareFn (map (scored brand) (p0 :: partners))))
    as Hsorted.
  { apply sort_sorted; unfold before, compareFn; [intros a b | intros a b c]; lia. }
  assert (scored brand p ∈ sort compareFn (map (scored brand) (p0 :: partners))) as Hin.
  { rewrite sort_Permutation. apply list_elem_of_fmap. eauto. }
  destruct (sort compareFn (map (scored brand) (p0 :: partners))) as [|top rest] eqn:E.
  { by apply elem_of_nil in Hin. }
  exists top. split.
  - destruct (Z.to_nat (default 5%Z limit)) eqn:En; [lia | done].
  - apply StronglySorted_inv in Hsorted as [_ Hall].
    apply elem_of_cons in Hin as [<- | Hin]; [unfold scored; cbn [compatibilityScore]; lia |].
    rewrite Forall_forall in Hall. specialize (Hall _ Hin).
    unfold before, compareFn, scored in Hall. cbn [compatibilityScore] in Hall. lia.
Qed.

Lemma most_promising_length_and_best_first_witness :
  length (findMostPromisingPartners (Some sample_profile)
            (Some [Some automotive_brand; None; Some technology_brand]) (Some 2%Z))
    = 2%nat.
Proof.
  apply (most_promising_length_and_best_first sample_profile
           [Some automotive_brand; None; Some technology_brand] (Some 2%Z)).
  - intros candidates p [= <-] Hp.
    repeat (apply elem_of_cons in Hp as [-> | Hp]); [plain_profiles.. |].
    by apply elem_of_nil in Hp.
  - simpl. lia.
Defined.

(** *** Filtering *)

Lemma differs_false (wanted actual : option string) :
  differs wanted actual = false <-> (truthy_string wanted = true -> actual = wanted).
Proof.
  unfold differs. destruct (truthy_string wanted); simpl.
  - rewrite negb_false_iff, bool_decide_eq_true. split; auto.
  - split; [discriminate | done].
Qed.

Lemma existsb_includes (owned wanted : list string) :
  existsb (includes owned) wanted = true <-> exists x, x ∈ wanted /\ x ∈ owned.
Proof.
  rewrite existsb_exists. split.
  - intros (x & Hx & Hin). exists x.
    split; [by apply list_elem_of_In | by apply includes_elem_of].
  - intros (x & Hx & Hin). exists x.
    split; [by apply list_elem_of_In | by apply includes_elem_of].
Qed.

Lemma values_reject_false (filters : Filters.t) (p : BrandProfile) :
  values_reject filters p = Return false <->
  shares_one (Filters.values filters) (values p).
Proof.
  unfold values_reject, shares_one.
  destruct (Filters.values filters) as [[|w ws]|]; [split; [done | done] | | split; done].
  destruct (values p) as [owned|].
  - split.
    + intros [= Hany%negb_false_iff] w' ws' [= <- <-].
      apply (existsb_includes owned (w :: ws)) in Hany as (x & Hx & Hin). eauto.
    + intros Hshares. destruct (Hshares w ws eq_refl) as (l & x & [= <-] & Hx & Hin).
      f_equal. apply negb_false_iff. apply (existsb_includes owned (w :: ws)). eauto.
  - split; [done |]. intros Hshares.
    by destruct (Hshares w ws eq_refl) as (l & x & ? & _).
Qed.

Lemma objectives_reject_false (filters : Filters.t) (p : BrandProfile) :
  objectives_reject filters p = Return false <->
  shares_one (Filters.objectives filters) (partnership_objectives p).
Proof.
  unfold objectives_reject, shares_one, partnership_objectives.
  destruct (Filters.objectives filters) as [[|w ws]|]; [split; [done | done] | | split; done].
  destruct (partnership p) as [q|]; simpl.
  - destruct (objectives q) as [owned|].
    + split.
      * intros [= Hany%negb_false_iff] w' ws' [= <- <-].
        apply (existsb_includes owned (w :: ws)) in Hany as (x & Hx & Hin). eauto.
      * intros Hshares. destruct (Hshares w ws eq_refl) as (l & x & [= <-] & Hx & Hin).
        f_equal. apply negb_false_iff. apply (existsb_includes owned (w :: ws)). eauto.
    + split; [done |]. intros Hshares.
      by destruct (Hshares w ws eq_refl) as (l & x & ? & _).
  - split; [done |]. intros Hshares.
    by destruct (Hshares w ws eq_refl) as (l & x & ? & _).
Qed.

Lemma passes_filters_true (filters : Filters.t) (p : BrandProfile) :
  passes_filters (Some filters) p = Return true <->
  matches_names filters p /\
  shares_one (Filters.values filters) (values p) /\
  shares_one (Filters.objectives filters) (partnership_objectives p).
Proof.
  unfold passes_filters, matches_names.
  rewrite <- !differs_false, <- values_reject_false, <- objectives_reject_false.
  destruct (differs (Filters.industry filters) (industry p));
    [split; [done | by intros ((? & _) & _)] |].
  destruct (differs (Filters.companySize filters) (companySize p));
    [split; [done | by intros ((_ & ? & _) & _)] |].
  destruct (differs (Filters.geographicFocus filters) (geographicFocus p));
    [split; [done | by intros ((_ & _ & ?) & _)] |].
  destruct (values_reject filters p) as [[|]|];
    [split; [done | by intros (_ & ? & _)] | | split; [done | by intros (_ & ? & _)]].
  destruct (objectives_reject filters p) as [[|]|];
    [split; [done | by intros (_ & _ & ?)] | done | split; [done | by intros (_ & _ & ?)]].
Qed.

(** X5: filters that ask for nothing keep every partner: filterPartners
    returns the list it was given, in the same order, and does not throw,
    also for partners without values or partnership. *)
Theorem filterPartners_asking_nothing
    (partners : list BrandProfile) (filters : Filters.t) :
  asks_nothing filters ->
  filterPartners (Some partners) (Some filters) = Return partners.
Proof.
  intros (Hi & Hs & Hg & Hv & Ho). unfold filterPartners.
  destruct partners as [|p partners]; [done |].
  change (length (p :: partners) =? 0)%nat with false. cbv iota.
  apply filter_throwing_all. intros q _. apply passes_filters_true.
  repeat split.
  - intros Ht. congruence.
  - intros Ht. congruence.
  - intros Ht. congruence.
  - intros w ws Hw. rewrite Hw in Hv. discriminate.
  - intros w ws Hw. rewrite Hw in Ho. discriminate.
Qed.

Lemma filterPartners_asking_nothing_witness :
  filterPartners (Some [profile_missing_values; sample_profile]) (Some no_filters)
    = Return [profile_missing_values; sample_profile].
Proof.
  apply (filterPartners_asking_nothing [profile_missing_values; sample_profile] no_filters).
  repeat split.
Defined.

(** X6: when filterPartners returns, it returns the partners that pass, in
    their original order: a partner is kept exactly when it is in the list,
    equals every name filter that is set (industry, companySize,
    geographicFocus), and shares a value and an objective with the filter
    when the filter lists any. *)
Theorem filterPartners_keeps_the_matching_partners
    (partners kept : list BrandProfile) (filters : Filters.t) :
  filterPartners (Some partners) (Some filters) = Return kept ->
  kept `sublist_of` partners /\
  (forall p, p ∈ kept <->
     p ∈ partners /\ matches_names filters p /\
     shares_one (Filters.values filters) (values p) /\
     shares_one (Filters.objectives filters) (partnership_objectives p)).
Proof.
  unfold filterPartners. destruct partners as [|p0 partners].
  { intros [= <-]. split; [done |]. intros p.
    split; [intros Hp | intros [Hp _]]; by apply elem_of_nil in Hp. }
  change (length (p0 :: partners) =? 0)%nat with false. cbv iota.
  intros (Hsub & Hsound & Hcomplete)%filter_throwing_Return.
  split; [done |]. intros p. rewrite <- passes_filters_true. split.
  - intros Hp. split; [by eapply elem_of_sublist | auto].
  - intros [Hp Hpass]. auto.
Qed.

Lemma filterPartners_keeps_the_matching_partners_witness :
  [sample_profile] `sublist_of` [automotive_brand; sample_profile].
Proof.
  apply (filterPartners_keeps_the_matching_partners
           [automotive_brand; sample_profile] [sample_profile] (values_filter "quality")).
  vm_compute. reflexivity.
Defined.



(** *** Compatibility report *)

Lemma strengths_and_weaknesses (i v o g s : Z) :
  (forall name, name ∈ report_strengths i v o g s ->
                name ∉ report_weaknesses i v o g s) /\
  length (report_recommendations (report_weaknesses i v o g s))
    = length (report_weaknesses i v o g s) /\
  (length (report_strengths i v o g s) + length (report_weaknesses i v o g s) <= 5)%nat.
Proof.
  unfold report_recommendations, report_strengths, report_weaknesses.
  split; [| split].
  - intros name.
    rewrite !elem_of_push_if, !elem_of_nil, !Z.leb_le, !Z.ltb_lt.
    intros Hstrong Hweak.
    repeat match goal with H : _ \/ _ |- _ => destruct H as [H | H] end;
      try done; destruct_and!; subst; first [lia | discriminate].
  - destruct (s <? 50)%Z, (g <? 50)%Z, (o <? 50)%Z, (v <? 50)%Z, (i <? 50)%Z;
      reflexivity.
  - rewrite !length_push_if. simpl length.
    assert (forall x : Z,
              ((if (70 <=? x)%Z then 1 else 0) + (if (x <? 50)%Z then 1 else 0) <= 1)%nat)
      as Hone.
    { intros x. destruct (70 <=? x)%Z eqn:E1, (x <? 50)%Z eqn:E2; simpl; lia. }
    pose proof (Hone i). pose proof (Hone v). pose proof (Hone o).
    pose proof (Hone g). pose proof (Hone s). lia.
Qed.

Lemma report_lists (brand partner : BrandProfile) (r : CompatibilityReport) :
  generateCompatibilityReport (Some brand) (Some partner) = Return (Some r) ->
  exists i v o g s suggested,
    r = {| overallScore := calculateCompatibilityScore (Some brand) (Some partner);
           dimensionScores :=
             {| DimensionScores.industry := i; DimensionScores.values := v;
                DimensionScores.objectives := o; DimensionScores.geography := g;
                DimensionScores.size := s |};
           strengths := report_strengths i v o g s;
           weaknesses := report_weaknesses i v o g s;
           recommendations := report_recommendations (report_weaknesses i v o g s);
           suggestedPartnershipTypes := suggested |}.
Proof.
  unfold generateCompatibilityReport. cbv zeta.
  destruct (suggest_if_mentioned _ _ _ "product" _ _) as [suggested1|]; [| done].
  destruct (suggest_if_mentioned _ _ _ "content" _ _) as [suggested2|]; [| done].
  intros Hr. do 6 eexists. symmetry.
  exact (f_equal (fun c => match c with Return (Some r) => r | _ => r end) Hr).
Qed.

(** X8: in every report generateCompatibilityReport returns, the overall
    score is the one calculateCompatibilityScore gives, no dimension is
    listed both as a strength and as a weakness, there is exactly one
    recommendation per weakness, and strengths and weaknesses together name
    at most five dimensions. *)
Theorem report_lists_are_consistent
    (brand partner : BrandProfile) (r : CompatibilityReport) :
  generateCompatibilityReport (Some brand) (Some partner) = Return (Some r) ->
  overallScore r = calculateCompatibilityScore (Some brand) (Some partner) /\
  (forall name, name ∈ strengths r -> name ∉ weaknesses r) /\
  length (recommendations r) = length (weaknesses r) /\
  (length (strengths r) + length (weaknesses r) <= 5)%nat.
Proof.
  intros (i & v & o & g & s & suggested & ->)%report_lists.
  split; [reflexivity |]. apply (strengths_and_weaknesses i v o g s).
Qed.

Lemma report_lists_are_consistent_witness :
  exists r,
    generateCompatibilityReport (Some automotive_brand) (Some technology_brand)
      = Return (Some r) /\
    length (recommendations r) = length (weaknesses r).
Proof.
  eexists. split; [vm_compute; reflexivity |].
  eapply (report_lists_are_consistent automotive_brand technology_brand).
  vm_compute. reflexivity.
Defined.

(** X9: generateCompatibilityReport throws instead of returning a report
    when the two brands have the same (non-empty) industry and the first
    brand has a partnership record without an objectives array: the
    optional chaining guards the partnership only, and [includes] is called
    on [undefined]. *)
Theorem report_throws_without_objectives
    (brand partner : BrandProfile) (p : Partnership) :
  truthy_string (industry brand) = true ->
  industry partner = industry brand ->
  partnership brand = Some p ->
  objectives p = None ->
  exists e, generateCompatibilityReport (Some brand) (Some partner) = Throw e.
Proof.
  intros Hindustry Hsame Hp Hobjectives.
  unfold generateCompatibilityReport. cbv zeta.
  rewrite Hsame. destruct (same_string_score _ Hindustry) as (-> & _ & _).
  change (Math_round (1.0 * 100)) with 100%Z.
  assert (forall objective suggestion suggested,
            suggest_if_mentioned 100 brand partner objective suggestion suggested
              = Throw (type_error "includes")) as Hthrow.
  { intros. unfold suggest_if_mentioned, either_mentions, mentions.
    by rewrite Hp, Hobjectives. }
  rewrite Hthrow. by eexists.
Qed.

Lemma report_throws_without_objectives_witness :
  exists e,
    generateCompatibilityReport (Some profile_missing_objectives)
      (Some profile_missing_objectives) = Throw e.
Proof.
  apply (report_throws_without_objectives profile_missing_objectives
           profile_missing_objectives {| objectives := None |}); reflexivity.
Defined.

(** X10: the report of a complete profile against itself lists all five
    dimensions as strengths, in the order industry, values, objectives,
    geography, size, has no weakness and no recommendation, and suggests
    neither 'co-branding' nor 'distribution' (these need different
    industries or geographies). *)
Theorem report_of_identical_complete_profile (a : BrandProfile) :
  complete_profile a ->
  exists r,
    generateCompatibilityReport (Some a) (Some a) = Return (Some r) /\
    strengths r = ["industry alignment"; "shared values"; "compatible objectives";
                   "geographic alignment"; "company size compatibility"] /\
    weaknesses r = [] /\
    recommendations r = [] /\
    (forall suggestion, suggestion ∈ suggestedPartnershipTypes r ->
       suggestion = "product development" \/ suggestion = "content creation").
Proof.
  intros (Hi & Hg & Hs & (v & vs & Hv) & (p & o & os & Hp & Ho)).
  unfold generateCompatibilityReport. cbv zeta.
  destruct (same_string_score _ Hi) as (-> & _ & _).
  destruct (same_string_score _ Hg) as (_ & -> & _).
  destruct (same_string_score _ Hs) as (_ & _ & ->).
  assert (objectives_or_empty a = Some (o :: os)) as ->.
  { unfold objectives_or_empty. by rewrite Hp, Ho. }
  rewrite Hv.
  assert (Math_round (calculateValuesScore (Some (v :: vs)) (Some (v :: vs)) * 100)
          = 100%Z) as ->.
  { rewrite <- (Math_round_inject_Z 100). apply Math_round_Qeq.
    rewrite (proj1 (self_overlap v vs)). reflexivity. }
  assert (Math_round (calculateObjectivesScore (Some (o :: os)) (Some (o :: os)) * 100)
          = 100%Z) as ->.
  { rewrite <- (Math_round_inject_Z 100). apply Math_round_Qeq.
    rewrite (proj2 (self_overlap o os)). reflexivity. }
  change (Math_round (1.0 * 100)) with 100%Z.
  assert (forall objective suggestion suggested,
            suggest_if_mentioned 100 a a objective suggestion suggested
              = Return (push_if (includes (o :: os) objective) suggestion suggested))
    as Hsuggest.
  { intros. unfold suggest_if_mentioned, either_mentions, mentions.
    rewrite Hp, Ho. change (70 <=? 100)%Z with true. cbv iota.
    by destruct (includes (o :: os) objective). }
  rewrite !Hsuggest. eexists. split; [reflexivity |].
  cbn [strengths weaknesses recommendations suggestedPartnershipTypes].
  rewrite !bool_decide_eq_true_2 by done.
  split; [reflexivity |]. split; [reflexivity |]. split; [reflexivity |].
  intros suggestion. change (70 <=? 100)%Z with true. cbv [andb negb].
  rewrite !elem_of_push_if, elem_of_nil.
  intros [[[[[] | [? _]] | [_ ->]] | [_ ->]] | [? _]]; auto; discriminate.
Qed.

Lemma report_of_identical_complete_profile_witness :
  exists r,
    generateCompatibilityReport (Some sample_profile) (Some sample_profile)
      = Return (Some r) /\
    weaknesses r = [].
Proof.
  destruct (report_of_identical_complete_profile sample_profile)
    as (r & Hr & _ & Hweak & _).
  - unfold complete_profile, sample_profile; simpl. repeat split; eauto.
  - exists r. by split.
Defined.

End PartnerMatcherFacts.

(** ** ROI calculator *)

Module ROICalculatorFacts.
Import JS JSFacts ROICalculator ROICalculatorSpec.
Local Open Scope Q_scope.

Lemma falsy_amount (x : field) : truthy x = false -> amount x == 0.
Proof.
  destruct x as [| |q]; simpl; try reflexivity.
  rewrite negb_false_iff. apply Qeq_bool_eq.
Qed.

Lemma add_if_truthy (x : field) (total : Q) :
  (if truthy x then total + or_zero (parseFloat x) else total) == total + amount x.
Proof.
  destruct (truthy x) eqn:E; [reflexivity |].
  rewrite (falsy_amount x E). ring.
Qed.

Lemma add_scaled_if_truthy (x : field) (total k : Q) :
  (if truthy x then total + or_zero (parseFloat x) * k else total)
    == total + amount x * k.
Proof.
  destruct (truthy x) eqn:E; [reflexivity |].
  rewrite (falsy_amount x E). ring.
Qed.

Lemma add_product_if_truthy (x y : field) (total : Q) :
  (if truthy x && truthy y
   then total + or_zero (parseFloat x) * or_zero (parseFloat y) else total)
    == total + amount x * amount y.
Proof.
  destruct (truthy x) eqn:Ex; simpl.
  - destruct (truthy y) eqn:Ey; [reflexivity |].
    rewrite (falsy_amount y Ey). ring.
  - rewrite (falsy_amount x Ex). ring.
Qed.

Lemma add_points_amount (score : Q) (x : field) (points : Q) :
  add_points score x points == score + amount x * points.
Proof. apply add_scaled_if_truthy. Qed.

Lemma calculateTotalInvestment_sum (i : Investment) :
  calculateTotalInvestment i ==
    amount (directCosts i) + amount (staffHours i) * amount (hourlyRate i)
    + amount (resourceAllocation i) + amount (marketingCosts i)
    + amount (technologyCosts i) + amount (otherCosts i).
Proof.
  unfold calculateTotalInvestment. cbv zeta.
  rewrite !add_if_truthy, add_product_if_truthy, !add_if_truthy. ring.
Qed.

Lemma calculateTotalReturns_sum (r : Returns) (months : Q) :
  calculateTotalReturns r months ==
    amount (directRevenue r) * months + amount (costSavings r) * months
    + amount (newCustomers r) * amount (customerLTV r)
    + amount (marketShareIncrease r) * amount (marketShareValue r)
    + amount (otherReturns r).
Proof.
  unfold calculateTotalReturns. cbv zeta.
  rewrite add_if_truthy, !add_product_if_truthy, !add_scaled_if_truthy. ring.
Qed.

(** *** Financial ROI *)

(** C3, as the specification states it, fails when the costs add up to a
    negative number: with [{directCosts: -1000}], [{directRevenue: 200}] and
    12 months the total investment is -1000, which is not 0, yet the
    function returns roiPercentage 0 instead of netReturn/totalInvestment
    times 100 (which is -340). *)
Lemma roi_percentage_of_negative_investment :
  exists r,
    calculateFinancialROI (Some (direct_costs_only (-1000)))
      (Some (direct_revenue_only 200)) (Some 12) = Some r /\
    totalInvestment r == -1000 /\
    ~ totalInvestment r == 0 /\
    roiPercentage r == 0 /\
    netReturn r / totalInvestment r * 100 == -340 /\
    ~ roiPercentage r == netReturn r / totalInvestment r * 100.
Proof. eexists. split; [reflexivity |]. by vm_compute. Qed.

(** C3 (amended): for every investment record, returns record and
    timeframeMonths > 0, calculateFinancialROI returns
    totalInvestment = the sum of the six cost fields (staff cost =
    hours x rate), totalReturns = directRevenue x months + costSavings x
    months + newCustomers x customerLTV + marketShareIncrease x
    marketShareValue + otherReturns, netReturn = totalReturns -
    totalInvestment, roiPercentage = netReturn/totalInvestment x 100 when
    totalInvestment is positive and 0 otherwise, paybackMonths =
    totalInvestment / (totalReturns/months) when totalReturns is positive
    and infinite otherwise; and calculateFinancialROI({directCosts:1000},
    {directRevenue:200}, 12) yields totalInvestment 1000, totalReturns 2400,
    netReturn 1400 and roiPercentage 140. *)
Theorem financial_roi_formulas (i : Investment) (r : Returns) (months : Q) :
  0 < months ->
  (exists roi,
     calculateFinancialROI (Some i) (Some r) (Some months) = Some roi /\
     totalInvestment roi ==
       amount (directCosts i) + amount (staffHours i) * amount (hourlyRate i)
       + amount (resourceAllocation i) + amount (marketingCosts i)
       + amount (technologyCosts i) + amount (otherCosts i) /\
     totalReturns roi ==
       amount (directRevenue r) * months + amount (costSavings r) * months
       + amount (newCustomers r) * amount (customerLTV r)
       + amount (marketShareIncrease r) * amount (marketShareValue r)
       + amount (otherReturns r) /\
     netReturn roi = totalReturns roi - totalInvestment roi /\
     (0 < totalInvestment roi ->
        roiPercentage roi = netReturn roi / totalInvestment roi * 100) /\
     (totalInvestment roi <= 0 -> roiPercentage roi = 0) /\
     (0 < totalReturns roi ->
        paybackMonths roi = Fin (totalInvestment roi / (totalReturns roi / months))) /\
     (totalReturns roi <= 0 -> paybackMonths roi = PosInfinity)) /\
  (exists roi,
     calculateFinancialROI (Some (direct_costs_only 1000))
       (Some (direct_revenue_only 200)) (Some 12) = Some roi /\
     totalInvestment roi == 1000 /\ totalReturns roi == 2400 /\
     netReturn roi == 1400 /\ roiPercentage roi == 140).
Proof.
  intros Hmonths. split.
  - unfold calculateFinancialROI. simpl default.
    destruct (Qle_bool months 0) eqn:E; [apply Qle_bool_iff in E; lra |].
    eexists. split; [reflexivity |]. simpl.
    split; [apply calculateTotalInvestment_sum |].
    split; [apply calculateTotalReturns_sum |].
    split; [reflexivity |].
    repeat split.
    + intros Hpos. apply Qltb_lt in Hpos. by rewrite Hpos.
    + intros Hneg. apply Qltb_ge in Hneg. by rewrite Hneg.
    + intros Hpos. apply Qltb_lt in Hpos. by rewrite Hpos.
    + intros Hneg. apply Qltb_ge in Hneg. by rewrite Hneg.
  - eexists. split; [reflexivity |]. by vm_compute.
Qed.

Lemma financial_roi_formulas_witness :
  exists roi,
    calculateFinancialROI (Some (direct_costs_only 1000))
      (Some (direct_revenue_only 200)) (Some 12) = Some roi /\
    totalInvestment roi == 1000 /\ totalReturns roi == 2400 /\
    netReturn roi == 1400 /\ roiPercentage roi == 140.
Proof.
  apply (financial_roi_formulas (direct_costs_only 1000) (direct_revenue_only 200) 12).
  reflexivity.
Defined.

(** *** Missing arguments *)

(** C4 does not hold of the code: for a partnership record whose investment
    or returns property is absent, calculateFinancialROI returns null and
    calculatePartnershipROI then reads [financialROI.roiPercentage], which
    throws a TypeError instead of returning a null or zero result. *)
Theorem partnership_roi_throws_on_missing_record (p : Partnership) :
  investment p = None \/ returns p = None ->
  calculateFinancialROI (investment p) (returns p) (Some (timeframe_or_12 p)) = None /\
  calculatePartnershipROI (Some p) =
    Throw "TypeError: Cannot read properties of null (reading 'roiPercentage')".
Proof.
  intros Hmissing.
  assert (calculateFinancialROI (investment p) (returns p) (Some (timeframe_or_12 p))
          = None) as Hnull.
  { unfold calculateFinancialROI.
    destruct Hmissing as [-> | ->]; [done | by destruct (investment p)]. }
  split; [done |].
  unfold calculatePartnershipROI. by rewrite Hnull.
Qed.

Lemma partnership_roi_throws_on_missing_record_witness :
  calculatePartnershipROI (Some empty_partnership) =
    Throw "TypeError: Cannot read properties of null (reading 'roiPercentage')".
Proof.
  apply (partnership_roi_throws_on_missing_record empty_partnership).
  left. reflexivity.
Defined.

(** *** Risk assessment *)

Lemma capped_round_mono (x y : Q) : x <= y -> (capped_round x <= capped_round y)%Z.
Proof.
  intros Hxy. unfold capped_round.
  pose proof (Math_round_mono x y Hxy). lia.
Qed.

Lemma average_mono (a b : Z) (n : Q) :
  0 < n -> (a <= b)%Z ->
  (Math_round (inject_Z a / n) <= Math_round (inject_Z b / n))%Z.
Proof.
  intros Hn Hab. apply Math_round_mono.
  apply Qmult_le_compat_r; [by rewrite <- Zle_Qle |].
  apply Qlt_le_weak, Qinv_lt_0_compat, Hn.
Qed.

(** The four risk scores and their mean grow with the inputs. *)
Lemma risk_pointwise_monotone (p p' : Partnership) :
  (forall i, amount (risk_input i p) <= amount (risk_input i p')) ->
  exists r r',
    calculateRiskAssessment (Some p) = Some r /\
    calculateRiskAssessment (Some p') = Some r' /\
    (overallRisk r <= overallRisk r')%Z.
Proof.
  intros Hle. do 2 eexists. split; [reflexivity |]. split; [reflexivity |].
  simpl. apply average_mono; [reflexivity |].
  pose proof (Hle InvestmentSize). pose proof (Hle RevenueUncertainty).
  pose proof (Hle CostOverrunRisk). pose proof (Hle PartnerReputationRisk).
  pose proof (Hle BrandAlignmentRisk). pose proof (Hle IntegrationComplexity).
  pose proof (Hle ResourceConflictRisk). pose proof (Hle TimelineRisk).
  pose proof (Hle GoalMisalignmentRisk). pose proof (Hle DependencyRisk).
  pose proof (Hle CompetitiveDisclosureRisk). simpl in *.
  assert (calculateFinancialRisk p <= calculateFinancialRisk p')%Z.
  { apply capped_round_mono. cbv zeta. rewrite !add_points_amount. lra. }
  assert (calculateReputationRisk p <= calculateReputationRisk p')%Z.
  { apply capped_round_mono. cbv zeta. rewrite !add_points_amount. lra. }
  assert (calculateOperationalRisk p <= calculateOperationalRisk p')%Z.
  { apply capped_round_mono. cbv zeta. rewrite !add_points_amount. lra. }
  assert (calculateStrategicRisk p <= calculateStrategicRisk p')%Z.
  { apply capped_round_mono. cbv zeta. rewrite !add_points_amount. lra. }
  lia.
Qed.

(** C7: risk scoring is monotonic.  For every partnership record,
    increasing a single risk input (investmentSize, revenueUncertainty,
    costOverrunRisk, partnerReputationRisk, brandAlignmentRisk,
    integrationComplexity, resourceConflictRisk, timelineRisk,
    goalMisalignmentRisk, dependencyRisk or competitiveDisclosureRisk) from
    [q] to [q'] while the other risk inputs stay as they are never decreases
    the overallRisk that calculateRiskAssessment returns. *)
Theorem overall_risk_monotone (p p' : Partnership) (k : RiskInput) (q q' : Q) :
  risk_input k p = Num q ->
  risk_input k p' = Num q' ->
  q <= q' ->
  (forall i, i <> k -> risk_input i p' = risk_input i p) ->
  exists r r',
    calculateRiskAssessment (Some p) = Some r /\
    calculateRiskAssessment (Some p') = Some r' /\
    (overallRisk r <= overallRisk r')%Z.
Proof.
  intros Hq Hq' Hle Hothers. apply risk_pointwise_monotone. intros i.
  destruct (decide (i = k)) as [-> | Hne].
  - by rewrite Hq, Hq'.
  - rewrite (Hothers i Hne). apply Qle_refl.
Qed.

Lemma overall_risk_monotone_witness :
  exists r r',
    calculateRiskAssessment (Some (with_timelineRisk (Num 1))) = Some r /\
    calculateRiskAssessment (Some (with_timelineRisk (Num 4))) = Some r' /\
    (overallRisk r <= overallRisk r')%Z.
Proof.
  apply (overall_risk_monotone (with_timelineRisk (Num 1)) (with_timelineRisk (Num 4))
           TimelineRisk 1 4).
  - reflexivity.
  - reflexivity.
  - by vm_compute.
  - intros i Hi. by destruct i.
Defined.

(** *** Range of the scores *)

Lemma capped_round_range (score : Q) :
  0 <= score -> between_0_and_100 (capped_round score).
Proof.
  intros Hscore. unfold between_0_and_100, capped_round.
  pose proof (Math_round_mono 0 score Hscore) as Hround.
  change (Math_round 0) with 0%Z in Hround. lia.
Qed.

Lemma mean_range (sum : Z) (n : Z) :
  (0 < n)%Z -> (0 <= sum <= 100 * n)%Z ->
  between_0_and_100 (Math_round (inject_Z sum / inject_Z n)).
Proof.
  intros Hn [Hlo Hhi].
  assert (0 < inject_Z n) as Hn'.
  { change 0 with (inject_Z 0). by rewrite <- Zlt_Qlt. }
  apply Math_round_between.
  - apply Qle_shift_div_l; [done |]. rewrite <- inject_Z_mult, <- Zle_Qle. lia.
  - apply Qle_shift_div_r; [done |]. rewrite <- inject_Z_mult, <- Zle_Qle. lia.
Qed.

Lemma audience_score_range (p : Partnership) :
  0 <= amount (audienceReach p) ->
  0 <= amount (audienceOverlap p) ->
  amount (audienceOverlap p) <= 100 ->
  0 <= amount (audienceEngagement p) ->
  between_0_and_100 (calculateAudienceScore p).
Proof.
  unfold calculateAudienceScore, amount. cbv zeta.
  intros Hreach Hoverlap Hoverlap' Hengagement. apply capped_round_range.
  pose proof (Q.min_glb 30 (or_zero (parseFloat (audienceReach p))) 0) as Hmin.
  specialize (Hmin ltac:(lra) Hreach).
  revert Hoverlap Hoverlap'.
  destruct (truthy (audienceReach p)), (audienceOverlap p) as [| |q],
    (truthy (audienceEngagement p)); simpl; intros; lra.
Qed.

Lemma scores_in_scale (p : Partnership) :
  inputs_in_scale p ->
  Forall between_0_and_100
    [calculateAudienceScore p; calculateBrandScore p; calculateInnovationScore p;
     calculateMarketAccessScore p; calculateRelationshipScore p;
     calculateFinancialRisk p; calculateReputationRisk p;
     calculateOperationalRisk p; calculateStrategicRisk p].
Proof.
  intros [Hnonneg Hoverlap]. unfold strategic_inputs, risk_inputs in Hnonneg.
  simpl app in Hnonneg. rewrite !Forall_cons in Hnonneg. destruct_and!.
  repeat apply Forall_cons_2; [by apply audience_score_range | .. | constructor];
    apply capped_round_range; cbv zeta; rewrite !add_points_amount; lra.
Qed.

(** *** Bounds that need no assumption *)

Lemma capped_round_at_most_100 (score : Q) : (capped_round score <= 100)%Z.
Proof. unfold capped_round. lia. Qed.

Lemma mean_at_most_100 (sum n : Z) :
  (0 < n)%Z -> (sum <= 100 * n)%Z ->
  (Math_round (inject_Z sum / inject_Z n) <= 100)%Z.
Proof.
  intros Hn Hsum.
  assert (0 < inject_Z n) as Hn'.
  { change 0 with (inject_Z 0). by rewrite <- Zlt_Qlt. }
  rewrite <- (Math_round_inject_Z 100). apply Math_round_mono.
  apply Qle_shift_div_r; [done |]. rewrite <- inject_Z_mult, <- Zle_Qle. lia.
Qed.

(** X11: whatever the partnership record holds, no strategic-value or risk
    dimension score exceeds 100, and neither does the overall strategic
    score or the overall risk. *)
Theorem roi_scores_never_exceed_100 (p : Partnership) :
  Forall (fun z => (z <= 100)%Z) (dimension_scores p) /\
  exists sv ra,
    calculateStrategicValue (Some p) = Some sv /\
    calculateRiskAssessment (Some p) = Some ra /\
    (overallScore sv <= 100)%Z /\ (overallRisk ra <= 100)%Z.
Proof.
  assert (Forall (fun z => (z <= 100)%Z) (dimension_scores p)) as Hall.
  { unfold dimension_scores. repeat constructor; apply capped_round_at_most_100. }
  split; [done |].
  unfold dimension_scores in Hall. rewrite !Forall_cons in Hall. destruct_and!.
  do 2 eexists. split; [reflexivity |]. split; [reflexivity |]. simpl. split.
  - apply (mean_at_most_100 _ 5); lia.
  - apply (mean_at_most_100 _ 4); lia.
Qed.

(** *** Mitigation recommendations *)

Lemma recommendations_count (f r o s : Z) :
  length (generateRiskMitigationRecommendations f r o s)
    = (2 * length (List.filter (fun z => (30 <=? z)%Z) [f; r; o; s]))%nat.
Proof.
  unfold generateRiskMitigationRecommendations, push_all. cbv zeta. simpl List.filter.
  assert (forall x : Z, (60 <=? x)%Z = true -> (30 <=? x)%Z = true) as Himpl.
  { intros x Hx. apply Z.leb_le in Hx. apply Z.leb_le. lia. }
  pose proof (Himpl f). pose proof (Himpl r). pose proof (Himpl o). pose proof (Himpl s).
  destruct (60 <=? f)%Z, (30 <=? f)%Z, (60 <=? r)%Z, (30 <=? r)%Z,
           (60 <=? o)%Z, (30 <=? o)%Z, (60 <=? s)%Z, (30 <=? s)%Z;
    try reflexivity; exfalso; auto using diff_false_true.
Qed.

(** X12: calculateRiskAssessment gives two mitigation recommendations for
    each of the four risk dimensions whose score is 30 or more, and none for
    the others; so there are at most eight, and none at all when every
    dimension stays below 30. *)
Theorem two_recommendations_per_risk (p : Partnership) :
  exists ra,
    calculateRiskAssessment (Some p) = Some ra /\
    length (risk_recommendations ra) = (2 * risks_from_30 ra)%nat /\
    (length (risk_recommendations ra) <= 8)%nat.
Proof.
  eexists. split; [reflexivity |].
  unfold risks_from_30. cbn [risk_recommendations riskScores financial reputation
                             operational strategic].
  rewrite recommendations_count. split; [reflexivity |].
  pose proof (filter_length_le (fun z => (30 <=? z)%Z)
                [calculateFinancialRisk p; calculateReputationRisk p;
                 calculateOperationalRisk p; calculateStrategicRisk p]) as Hle.
  simpl length in Hle at 2. lia.
Qed.

(** *** Payback *)



(** *** The combined assessment *)

(** X14: for a partnership record that has an investment and a returns
    record, a positive timeframe (or none, which means 12 months) and inputs
    in scale, calculatePartnershipROI does not throw: it returns an
    assessment whose overall score lies in [0,100] and whose financial part
    is what calculateFinancialROI returns. *)
Theorem partnership_roi_returns_a_score
    (p : Partnership) (i : Investment) (r : Returns) :
  investment p = Some i ->
  returns p = Some r ->
  0 < timeframe_or_12 p ->
  inputs_in_scale p ->
  exists result,
    calculatePartnershipROI (Some p) = Return (Some result) /\
    between_0_and_100 (roi_overallScore result) /\
    calculateFinancialROI (Some i) (Some r) (Some (timeframe_or_12 p))
      = Some (financialROI result).
Proof.
  intros Hi Hr Hmonths Hscale.
  pose proof (scores_in_scale p Hscale) as Hscores.
  rewrite !Forall_cons in Hscores. unfold between_0_and_100 in Hscores. destruct_and!.
  unfold calculatePartnershipROI. rewrite Hi, Hr.
  unfold calculateFinancialROI. simpl default.
  destruct (Qle_bool (timeframe_or_12 p) 0) eqn:E; [apply Qle_bool_iff in E; lra |].
  eexists. split; [reflexivity |]. split; [| reflexivity].
  cbn [roi_overallScore]. unfold calculateStrategicValue, calculateRiskAssessment.
  cbn [property_of overallScore overallRisk roiPercentage].
  match goal with
  | |- context [Math_round (inject_Z ?sum / 5)] =>
      pose proof (mean_range sum 5 ltac:(lia) ltac:(lia)) as Hsv
  end.
  match goal with
  | |- context [Math_round (inject_Z ?sum / 4)] =>
      pose proof (mean_range sum 4 ltac:(lia) ltac:(lia)) as Hra
  end.
  change (inject_Z 5) with 5 in Hsv. change (inject_Z 4) with 4 in Hra.
  apply inject_Z_range in Hsv as [Hsv0 Hsv100], Hra as [Hra0 Hra100].
  change (inject_Z 0) with 0 in *. change (inject_Z 100) with 100 in *.
  apply Math_round_between; change (inject_Z 0) with 0; change (inject_Z 100) with 100;
    repeat match goal with |- context [if ?b then _ else _] => destruct b end; lra.
Qed.

Lemma partnership_roi_returns_a_score_witness :
  exists result,
    calculatePartnershipROI (Some (financial_partnership 1000 200 Undefined))
      = Return (Some result) /\
    between_0_and_100 (roi_overallScore result).
Proof.
  destruct (partnership_roi_returns_a_score (financial_partnership 1000 200 Undefined)
              (direct_costs_only 1000) (direct_revenue_only 200))
    as (result & Hresult & Hrange & _).
  - reflexivity.
  - reflexivity.
  - reflexivity.
  - split; [| by vm_compute].
    unfold strategic_inputs, risk_inputs. simpl. repeat constructor; by vm_compute.
  - exists result. by split.
Defined.

(** X15: a negative timeframeMonths makes calculatePartnershipROI throw,
    also when the investment and returns records are there: the value is
    truthy, so it is passed on, calculateFinancialROI answers null, and the
    null is read. *)
Theorem partnership_roi_throws_on_negative_timeframe (p : Partnership) (q : Q) :
  timeframeMonths p = Num q ->
  q < 0 ->
  exists e, calculatePartnershipROI (Some p) = Throw e.
Proof.
  intros Hq Hneg.
  assert (timeframe_or_12 p = q) as Hmonths.
  { unfold timeframe_or_12. rewrite Hq. simpl.
    destruct (Qeq_bool q 0) eqn:E; [apply Qeq_bool_iff in E; lra | done]. }
  assert (calculateFinancialROI (investment p) (returns p) (Some (timeframe_or_12 p))
          = None) as Hnull.
  { unfold calculateFinancialROI. rewrite Hmonths. simpl default.
    assert (Qle_bool q 0 = true) as -> by (apply Qle_bool_iff; lra).
    by destruct (investment p), (returns p). }
  unfold calculatePartnershipROI. rewrite Hnull. by eexists.
Qed.

Lemma partnership_roi_throws_on_negative_timeframe_witness :
  exists e,
    calculatePartnershipROI (Some (financial_partnership 1000 200 (Num (-6)))) = Throw e.
Proof.
  apply (partnership_roi_throws_on_negative_timeframe
           (financial_partnership 1000 200 (Num (-6))) (-6)).
  - reflexivity.
  - reflexivity.
Defined.

End ROICalculatorFacts.

(** ** Range of every score *)

Module ScoreRange.
Import JS JSFacts PartnerMatcherSpec PartnerMatcherFacts ROICalculator ROICalculatorSpec ROICalculatorFacts.
Local Open Scope Q_scope.

(** C2, as the specification states it, fails twice.  A profile that
    repeats a value three times against a profile that lists it once has
    values overlap 3/1, and the compatibility score is 200.  The dimension
    scores are capped at 100 only from above: a timelineRisk of -5 gives an
    operational risk of -10. *)
Lemma scores_outside_0_100 :
  PartnerMatcher.calculateCompatibilityScore
    (Some brand_with_repeated_entries) (Some brand_with_single_entries) = 200%Z /\
  ~ between_0_and_100
      (PartnerMatcher.calculateCompatibilityScore
         (Some brand_with_repeated_entries) (Some brand_with_single_entries)) /\
  calculateOperationalRisk (with_timelineRisk (Num (-5))) = (-10)%Z /\
  ~ between_0_and_100 (calculateOperationalRisk (with_timelineRisk (Num (-5)))).
Proof.
  unfold between_0_and_100.
  repeat split; try (vm_compute; reflexivity); vm_compute; intros [? ?]; congruence.
Qed.

(** C2 (amended): when the first profile lists no value and no objective
    twice and the industry, geographic focus and company size the tables are
    read with are not names every object inherits,
    calculateCompatibilityScore lies in [0,100]; when no strategic or
    risk input of the partnership record is negative and audienceOverlap is
    at most 100, each strategic-value dimension score (calculateAudienceScore
    included), each risk dimension score and the overall strategic and risk
    scores lie in [0,100]. *)
Theorem scores_between_0_and_100
    (brand1 brand2 : option PartnerMatcher.BrandProfile) (p : Partnership) :
  LookupSpec.plain_pair brand1 brand2 ->
  lists_without_duplicates brand1 ->
  inputs_in_scale p ->
  between_0_and_100 (PartnerMatcher.calculateCompatibilityScore brand1 brand2) /\
  Forall between_0_and_100
    [calculateAudienceScore p; calculateBrandScore p; calculateInnovationScore p;
     calculateMarketAccessScore p; calculateRelationshipScore p;
     calculateFinancialRisk p; calculateReputationRisk p;
     calculateOperationalRisk p; calculateStrategicRisk p] /\
  (exists sv, calculateStrategicValue (Some p) = Some sv /\
              between_0_and_100 (overallScore sv)) /\
  (exists ra, calculateRiskAssessment (Some p) = Some ra /\
              between_0_and_100 (overallRisk ra)).
Proof.
  intros _ Hbrand Hp.
  split; [by apply compatibility_range |].
  pose proof (scores_in_scale p Hp) as Hscores.
  split; [done |].
  rewrite !Forall_cons in Hscores. unfold between_0_and_100 in Hscores. destruct_and!.
  split.
  - eexists. split; [reflexivity |]. simpl. apply (mean_range _ 5); lia.
  - eexists. split; [reflexivity |]. simpl. apply (mean_range _ 4); lia.
Qed.

Lemma scores_between_0_and_100_witness :
  between_0_and_100
    (PartnerMatcher.calculateCompatibilityScore
       (Some brand_with_single_entries) (Some brand_with_repeated_entries)) /\
  between_0_and_100 (calculateOperationalRisk (with_timelineRisk (Num 5))).
Proof.
  destruct (scores_between_0_and_100 (Some brand_with_single_entries)
              (Some brand_with_repeated_entries) (with_timelineRisk (Num 5)))
    as (Hcompat & Hscores & _).
  - plain_profiles.
  - intros b [= <-]. split; intros l [= <-]; repeat constructor; set_solver.
  - split; [| by vm_compute].
    unfold strategic_inputs, risk_inputs. simpl.
    repeat constructor; by vm_compute.
  - split; [exact Hcompat |].
    rewrite !Forall_cons in Hscores. tauto.
Defined.

End ScoreRange.

(** ** Project management *)

Module ProjectManagerFacts.
Import JS JSFacts ProjectManager ProjectManagerSpec.
Local Open Scope Q_scope.

(** *** Shared task arrays *)

(** C5 does not hold of the code.  The copy [{ ...collaboration }] is
    shallow: it holds the very array the caller's collaboration holds, so
    the [push] of addTask and the indexed assignment of updateTask change
    the caller's tasks array.  After addTask the array of the original has
    one more element; after updateTask its element at the index of the task
    is the updated task. *)
Theorem task_updates_change_callers_array
    (now newId : string) (c : Collaboration) (h : heap) (l : loc) (array : list object) :
  tasks c = Some l ->
  h !! l = Some array ->
  (forall task,
     observe (addTask now newId (Some c) (Some task) h).2 c
       = (c, Some (array ++ [new_task now newId task])%list) /\
     observe (addTask now newId (Some c) (Some task) h).2 c <> observe h c) /\
  (forall taskId updates i found,
     taskId <> "" ->
     list_find (fun task => task !! "id" = Some (Str taskId)) array = Some (i, found) ->
     observe (updateTask now (Some c) (Some taskId) (Some updates) h).2 c
       = (c, Some (<[i := <["updatedAt" := Str now]> (apply_updates updates found)]> array))).
Proof.
  intros Htasks Harray. split.
  - intros task.
    assert (observe (addTask now newId (Some c) (Some task) h).2 c
            = (c, Some (array ++ [new_task now newId task])%list)) as Hafter.
    { unfold observe, addTask. rewrite Htasks. simpl.
      by rewrite lookup_alter_eq, Harray. }
    split; [done |]. rewrite Hafter. unfold observe. rewrite Htasks. simpl.
    rewrite Harray. intros [= Heq].
    apply (f_equal length) in Heq. rewrite length_app in Heq. simpl in Heq. lia.
  - intros taskId updates i found Hid Hfound.
    unfold observe, updateTask. rewrite Htasks. simpl.
    apply String.eqb_neq in Hid. rewrite Hid. simpl.
    rewrite Harray. simpl. rewrite Hfound. simpl.
    by rewrite lookup_alter_eq, Harray.
Qed.

Lemma task_updates_change_callers_array_witness :
  observe (addTask "2024-02-01T00:00:00.000Z" "id2" (Some (collaboration_with_tasks 1))
             (Some kickoff) {[ 1%nat := [] ]}).2 (collaboration_with_tasks 1)
    <> observe {[ 1%nat := [] ]} (collaboration_with_tasks 1).
Proof.
  apply (task_updates_change_callers_array "2024-02-01T00:00:00.000Z" "id2"
           (collaboration_with_tasks 1) {[ 1%nat := [] ]} 1%nat []).
  - reflexivity.
  - reflexivity.
Defined.

(** *** Progress *)

Lemma behind_schedule_covers_at_risk (overall expected : number) :
  nlt overall (nsub expected (Fin 20)) = true ->
  nlt overall (nsub expected (Fin 10)) = true.
Proof.
  destruct overall as [o| | |], expected as [e| | |]; simpl; try done.
  rewrite !Qltb_lt. lra.
Qed.

Lemma status_choice (overall expected : number) :
  let status :=
    if nlt overall (nsub expected (Fin 10)) then "Behind Schedule"
    else if nlt overall (nsub expected (Fin 20)) then "At Risk"
    else "On Track" in
  status = "On Track" \/ status = "Behind Schedule".
Proof.
  pose proof (behind_schedule_covers_at_risk overall expected) as Hcover.
  destruct (nlt overall (nsub expected (Fin 10))) eqn:Hbehind; simpl; [by right |].
  destruct (nlt overall (nsub expected (Fin 20))) eqn:Hrisk; [| by left].
  by specialize (Hcover eq_refl).
Qed.

Lemma calculateProgress_status (now : Z) (h : heap) (c : Collaboration) :
  exists p,
    calculateProgress now h (Some c) = Some p /\
    (progress_status p = "On Track" \/ progress_status p = "Behind Schedule").
Proof.
  eexists. split; [reflexivity |]. cbv [progress_status].
  destruct (truthy_date (endDate c)); [| by left].
  apply status_choice.
Qed.

(** C6: for every collaboration, calculateProgress never returns status
    'At Risk'; the status is 'On Track' or 'Behind Schedule'.  The 'At Risk'
    branch is unreachable because the 'Behind Schedule' condition
    (overallProgress < expectedProgress - 10) is checked first and holds
    whenever the stricter condition (overallProgress < expectedProgress - 20)
    holds. *)
Theorem calculateProgress_never_at_risk
    (now : Z) (h : heap) (collaboration : option Collaboration) (p : Progress) :
  calculateProgress now h collaboration = Some p ->
  progress_status p <> "At Risk" /\
  (progress_status p = "On Track" \/ progress_status p = "Behind Schedule") /\
  (forall overall expected,
     nlt overall (nsub expected (Fin 20)) = true ->
     nlt overall (nsub expected (Fin 10)) = true).
Proof.
  intros Hp.
  assert (progress_status p = "On Track" \/ progress_status p = "Behind Schedule")
    as Hstatus.
  { destruct collaboration as [c|]; [| done].
    destruct (calculateProgress_status now h c) as (p' & Hp' & Hstatus).
    by replace p with p' by congruence. }
  split; [| split; [done | apply behind_schedule_covers_at_risk]].
  destruct Hstatus as [-> | ->]; discriminate.
Qed.

Lemma calculateProgress_never_at_risk_witness :
  exists p,
    calculateProgress (40 * 86400000) ∅ (Some late_collaboration) = Some p /\
    overallProgress p = 0%Z /\
    progress_status p = "Behind Schedule" /\
    progress_status p <> "At Risk".
Proof.
  eexists. split; [reflexivity |].
  split; [reflexivity |]. split; [vm_compute; reflexivity |].
  eapply (calculateProgress_never_at_risk (40 * 86400000) ∅ (Some late_collaboration)).
  reflexivity.
Defined.

(** *** Task and milestone statistics *)

Lemma count_nonneg (s : string) (l : list object) : (0 <= count s l)%Z.
Proof. unfold count. lia. Qed.

Lemma count_cons (s : string) (o : object) (l : list object) :
  count s (o :: l) = ((if has_status s o then 1 else 0) + count s l)%Z.
Proof. unfold count. simpl. destruct (has_status s o); simpl; lia. Qed.

Lemma count_app (s : string) (l1 l2 : list object) :
  count s (l1 ++ l2)%list = (count s l1 + count s l2)%Z.
Proof. unfold count. rewrite List.filter_app, length_app. lia. Qed.

(** An object has one status: counts for different statuses add up to the
    length of the list at most. *)
Lemma counts_of_three_statuses (s1 s2 s3 : string) (l : list object) :
  s1 <> s2 -> s1 <> s3 -> s2 <> s3 ->
  (count s1 l + count s2 l + count s3 l <= Z.of_nat (length l))%Z.
Proof.
  intros H12 H13 H23. induction l as [|o l IH]; [unfold count; simpl; lia |].
  rewrite !count_cons. simpl length. unfold has_status.
  repeat case_bool_decide; try lia; congruence.
Qed.

Lemma count_all (s : string) (l : list object) :
  Forall (fun o => has_status s o = true) l -> count s l = Z.of_nat (length l).
Proof.
  induction 1 as [|o l Ho Hl IH]; [done |].
  rewrite count_cons, Ho, IH. simpl length. lia.
Qed.

Lemma percentage_range (part total : Q) :
  0 <= part -> part <= total -> 0 < total ->
  (0 <= Math_round ((part / total) * 100) <= 100)%Z.
Proof.
  intros Hpart Hle Htotal.
  assert (0 <= part / total) by (apply Qle_shift_div_l; lra).
  assert (part / total <= 1) by (apply Qle_shift_div_r; lra).
  apply Math_round_between; [change (inject_Z 0) with 0 | change (inject_Z 100) with 100];
    lra.
Qed.

Lemma task_percentage_range (tasks : option (list object)) :
  (0 <= TaskStats.progressPercentage (calculateTaskProgress tasks) <= 100)%Z.
Proof.
  destruct tasks as [tasks|]; [| simpl; lia]. unfold calculateTaskProgress.
  cbn [TaskStats.progressPercentage].
  pose proof (count_nonneg "completed" tasks) as Hc.
  pose proof (count_nonneg "in-progress" tasks) as Hi.
  pose proof (count_nonneg "pending" tasks) as Hp.
  pose proof (counts_of_three_statuses "completed" "in-progress" "pending" tasks
                ltac:(done) ltac:(done) ltac:(done)) as Hsum.
  destruct (0 <? Z.of_nat (length tasks))%Z eqn:E; [| lia].
  apply Z.ltb_lt in E. apply percentage_range.
  - rewrite Zle_Qle in Hc, Hi. change (inject_Z 0) with 0 in *. lra.
  - assert (inject_Z (count "completed" tasks + count "in-progress" tasks)
            <= inject_Z (Z.of_nat (length tasks))) as Hle
      by (rewrite <- Zle_Qle; lia).
    rewrite inject_Z_plus in Hle. rewrite Zle_Qle in Hi.
    change (inject_Z 0) with 0 in *. lra.
  - change 0 with (inject_Z 0). by rewrite <- Zlt_Qlt.
Qed.

Lemma milestone_percentage_range (milestones : option (list object)) :
  (0 <= MilestoneStats.progressPercentage (calculateMilestoneProgress milestones)
     <= 100)%Z.
Proof.
  destruct milestones as [milestones|]; [| simpl; lia].
  unfold calculateMilestoneProgress. cbn [MilestoneStats.progressPercentage].
  pose proof (count_nonneg "completed" milestones) as Hc.
  pose proof (count_nonneg "pending" milestones) as Hp.
  pose proof (count_nonneg "missed" milestones) as Hm.
  pose proof (counts_of_three_statuses "completed" "pending" "missed" milestones
                ltac:(done) ltac:(done) ltac:(done)) as Hsum.
  destruct (0 <? Z.of_nat (length milestones))%Z eqn:E; [| lia].
  apply Z.ltb_lt in E. apply percentage_range.
  - rewrite Zle_Qle in Hc. by change (inject_Z 0) with 0 in *.
  - rewrite <- Zle_Qle. lia.
  - change 0 with (inject_Z 0). by rewrite <- Zlt_Qlt.
Qed.

(** X16: calculateTaskProgress counts every task once at most: total is the
    length of the list, completed + inProgress + pending never exceeds it
    (cancelled tasks and tasks with another status make the difference), and
    progressPercentage lies in [0,100]; it is 100 for a non-empty list of
    completed tasks and 0 for the empty list. *)
Theorem task_progress_is_a_percentage (tasks : list object) :
  let stats := calculateTaskProgress (Some tasks) in
  TaskStats.total stats = Z.of_nat (length tasks) /\
  (0 <= TaskStats.completed stats)%Z /\
  (0 <= TaskStats.inProgress stats)%Z /\
  (0 <= TaskStats.pending stats)%Z /\
  (TaskStats.completed stats + TaskStats.inProgress stats + TaskStats.pending stats
     <= TaskStats.total stats)%Z /\
  (0 <= TaskStats.progressPercentage stats <= 100)%Z /\
  (tasks = [] -> TaskStats.progressPercentage stats = 0%Z) /\
  (tasks <> [] -> Forall (fun task => has_status "completed" task = true) tasks ->
     TaskStats.progressPercentage stats = 100%Z).
Proof.
  cbv zeta. unfold calculateTaskProgress.
  cbn [TaskStats.total TaskStats.completed TaskStats.inProgress TaskStats.pending
       TaskStats.progressPercentage].
  pose proof (count_nonneg "completed" tasks) as Hc.
  pose proof (count_nonneg "in-progress" tasks) as Hi.
  pose proof (count_nonneg "pending" tasks) as Hp.
  pose proof (counts_of_three_statuses "completed" "in-progress" "pending" tasks
                ltac:(done) ltac:(done) ltac:(done)) as Hsum.
  pose proof (task_percentage_range (Some tasks)) as Hrange.
  unfold calculateTaskProgress in Hrange. cbn [TaskStats.progressPercentage] in Hrange.
  repeat split; try done; try lia.
  - by intros ->.
  - intros Hne Hall.
    assert (0 < Z.of_nat (length tasks))%Z as Hlen by (destruct tasks; [done | simpl; lia]).
    rewrite (proj2 (Z.ltb_lt _ _) Hlen).
    assert (count "in-progress" tasks = 0%Z) as Hnone.
    { rewrite (count_all _ _ Hall) in Hsum. lia. }
    rewrite (count_all _ _ Hall), Hnone.
    transitivity (Math_round (inject_Z 100)); [| apply Math_round_inject_Z].
    apply Math_round_Qeq.
    assert (0 < inject_Z (Z.of_nat (length tasks))) as Hpos.
    { change 0 with (inject_Z 0). by rewrite <- Zlt_Qlt. }
    change (inject_Z 0) with 0. change (inject_Z 100) with 100. field. lra.
Qed.

Lemma task_progress_is_a_percentage_witness :
  TaskStats.progressPercentage
    (calculateTaskProgress (Some [task_with "t1" "completed"; task_with "t2" "completed"]))
    = 100%Z.
Proof.
  apply (task_progress_is_a_percentage
           [task_with "t1" "completed"; task_with "t2" "completed"]).
  - discriminate.
  - repeat constructor.
Defined.

(** X17: calculateMilestoneProgress counts every milestone once at most:
    completed + pending + missed never exceeds total, which is the length of
    the list, and progressPercentage lies in [0,100]; missed milestones
    lower it like pending ones. *)
Theorem milestone_progress_is_a_percentage (milestones : list object) :
  let stats := calculateMilestoneProgress (Some milestones) in
  MilestoneStats.total stats = Z.of_nat (length milestones) /\
  (0 <= MilestoneStats.completed stats)%Z /\
  (0 <= MilestoneStats.pending stats)%Z /\
  (0 <= MilestoneStats.missed stats)%Z /\
  (MilestoneStats.completed stats + MilestoneStats.pending stats
   + MilestoneStats.missed stats <= MilestoneStats.total stats)%Z /\
  (0 <= MilestoneStats.progressPercentage stats <= 100)%Z.
Proof.
  cbv zeta. unfold calculateMilestoneProgress.
  cbn [MilestoneStats.total MilestoneStats.completed MilestoneStats.pending
       MilestoneStats.missed MilestoneStats.progressPercentage].
  pose proof (count_nonneg "completed" milestones) as Hc.
  pose proof (count_nonneg "pending" milestones) as Hp.
  pose proof (count_nonneg "missed" milestones) as Hm.
  pose proof (counts_of_three_statuses "completed" "pending" "missed" milestones
                ltac:(done) ltac:(done) ltac:(done)) as Hsum.
  pose proof (milestone_percentage_range (Some milestones)) as Hrange.
  unfold calculateMilestoneProgress in Hrange.
  cbn [MilestoneStats.progressPercentage] in Hrange.
  repeat split; try done; lia.
Qed.

(** X18: calculateProgress returns an overallProgress in [0,100] for every
    collaboration, whatever its tasks and milestones are; without an end
    date daysRemaining is null and the status is 'On Track'. *)
Theorem overall_progress_is_a_percentage
    (now : Z) (h : heap) (c : Collaboration) :
  exists p,
    calculateProgress now h (Some c) = Some p /\
    (0 <= overallProgress p <= 100)%Z /\
    (truthy_date (endDate c) = false ->
       daysRemaining p = None /\ progress_status p = "On Track").
Proof.
  eexists. split; [reflexivity |].
  cbv [overallProgress daysRemaining progress_status]. split.
  - pose proof (task_percentage_range (array_or_empty h (tasks c))) as Ht.
    pose proof (milestone_percentage_range (array_or_empty h (milestones c))) as Hm.
    apply (inject_Z_range 0 100) in Ht as [Ht0 Ht100], Hm as [Hm0 Hm100].
    change (inject_Z 0) with 0 in *. change (inject_Z 100) with 100 in *.
    apply Math_round_between;
      [change (inject_Z 0) with 0 | change (inject_Z 100) with 100]; lra.
  - by intros ->.
Qed.

Lemma overall_progress_is_a_percentage_witness :
  exists p,
    calculateProgress 0 ∅ (Some collaboration_without_tasks) = Some p /\
    daysRemaining p = None /\ progress_status p = "On Track".
Proof.
  destruct (overall_progress_is_a_percentage 0 ∅ collaboration_without_tasks)
    as (p & Hp & _ & Hnone).
  exists p. split; [exact Hp |]. apply Hnone. reflexivity.
Defined.

(** *** Deleting, adding and updating tasks *)

Lemma fresh_location (h : heap) (l : loc) (array : list object) :
  h !! l = Some array -> fresh (dom h) <> l.
Proof.
  intros Hl Heq. apply (is_fresh (dom h)). rewrite Heq. apply elem_of_dom. by eexists.
Qed.

Lemma List_filter_sublist {A} (f : A -> bool) (l : list A) :
  List.filter f l `sublist_of` l.
Proof.
  induction l as [|x l IH]; simpl; [done |].
  destruct (f x); [by apply sublist_skip | by apply sublist_cons].
Qed.

Lemma other_id_true (taskId : string) (o : object) :
  other_id (Some taskId) o = true <-> not_the_task taskId o.
Proof.
  unfold other_id, not_the_task. simpl.
  by rewrite negb_true_iff, bool_decide_eq_false.
Qed.

(** X19: deleteTask builds a new array: the caller's collaboration and its
    tasks array are as before, and the returned collaboration holds the
    tasks of the old array whose id differs from taskId, in their order;
    none of them has the id. *)
Theorem deleteTask_leaves_callers_array (now : string) (c : Collaboration)
    (h : heap) (l : loc) (array : list object) (taskId : string) :
  tasks c = Some l ->
  h !! l = Some array ->
  taskId <> "" ->
  exists c' h',
    deleteTask now (Some c) (Some taskId) h = (Some c', h') /\
    observe h' c = observe h c /\
    tasks_of h' c' `sublist_of` array /\
    (forall task, task ∈ tasks_of h' c' <-> task ∈ array /\ not_the_task taskId task).
Proof.
  intros Htasks Harray Hid. apply String.eqb_neq in Hid.
  unfold deleteTask. rewrite Htasks. simpl. rewrite Hid. simpl.
  do 2 eexists. split; [reflexivity |].
  pose proof (fresh_location h l array Harray) as Hfresh.
  split; [| split].
  - unfold observe. rewrite Htasks. simpl. by rewrite lookup_insert_ne.
  - unfold tasks_of. simpl. rewrite lookup_insert_eq, Harray. simpl.
    apply List_filter_sublist.
  - intros task. unfold tasks_of. simpl. rewrite lookup_insert_eq, Harray. simpl.
    rewrite !list_elem_of_In, filter_In, other_id_true. done.
Qed.

Lemma deleteTask_leaves_callers_array_witness :
  exists c' h',
    deleteTask "2024-02-01T00:00:00.000Z" (Some (collaboration_with_tasks 1)) (Some "t1")
      {[ 1%nat := [kickoff] ]} = (Some c', h') /\
    observe h' (collaboration_with_tasks 1)
      = observe {[ 1%nat := [kickoff] ]} (collaboration_with_tasks 1).
Proof.
  destruct (deleteTask_leaves_callers_array "2024-02-01T00:00:00.000Z"
              (collaboration_with_tasks 1) {[ 1%nat := [kickoff] ]} 1%nat [kickoff] "t1")
    as (c' & h' & Hdelete & Hobserve & _).
  - reflexivity.
  - reflexivity.
  - discriminate.
  - exists c', h'. by split.
Defined.

(** Reads a property of an object literal. *)
Ltac lookup_literal :=
  repeat (rewrite list_to_map_cons;
          first [rewrite lookup_insert_eq | rewrite lookup_insert_ne by done]).

Lemma new_task_id (now newId taskId : string) (task : object) :
  task !! "id" = Some (Str taskId) -> taskId <> "" ->
  new_task now newId task !! "id" = Some (Str taskId).
Proof.
  intros Hid Hne. unfold new_task. lookup_literal.
  rewrite Hid. unfold or_else, truthy_value.
  apply String.eqb_neq in Hne. by rewrite Hne.
Qed.

Lemma addTask_with_array (now newId : string) (c : Collaboration) (task : object)
    (h : heap) (l : loc) :
  tasks c = Some l ->
  addTask now newId (Some c) (Some task) h
    = (Some (with_tasks c (Some l) now),
       alter (fun a => push_all a [new_task now newId task]) l h).
Proof. intros Htasks. unfold addTask. by rewrite Htasks. Qed.

Lemma filter_all {A} (f : A -> bool) (l : list A) :
  Forall (fun x => f x = true) l -> List.filter f l = l.
Proof.
  induction 1 as [|x l Hx Hl IH]; simpl; [done |]. by rewrite Hx, IH.
Qed.

(** X20: adding a task under an id that no task of the collaboration has
    and deleting that id again gives back the tasks the collaboration had:
    the collaboration deleteTask returns holds the original list. *)
Theorem addTask_then_deleteTask (now now' newId : string) (c : Collaboration)
    (h : heap) (l : loc) (array : list object) (task : object) (taskId : string) :
  tasks c = Some l ->
  h !! l = Some array ->
  task !! "id" = Some (Str taskId) ->
  taskId <> "" ->
  Forall (not_the_task taskId) array ->
  exists c1 h1 c2 h2,
    addTask now newId (Some c) (Some task) h = (Some c1, h1) /\
    deleteTask now' (Some c1) (Some taskId) h1 = (Some c2, h2) /\
    tasks_of h2 c2 = array.
Proof.
  intros Htasks Harray Hid Hne Hnew.
  exists (with_tasks c (Some l) now),
         (alter (fun a => push_all a [new_task now newId task]) l h).
  do 2 eexists. split; [by apply addTask_with_array |].
  unfold deleteTask. cbn [tasks with_tasks].
  assert (negb (truthy_string (Some taskId)) = false) as ->.
  { simpl. apply String.eqb_neq in Hne. by rewrite Hne. }
  rewrite lookup_alter_eq, Harray. split; [reflexivity |].
  unfold tasks_of. cbn [tasks with_tasks mbind option_bind].
  rewrite lookup_insert_eq. cbn [default fmap option_fmap option_map].
  unfold push_all, Datatypes.id. rewrite List.filter_app. cbn [List.filter].
  assert (other_id (Some taskId) (new_task now newId task) = false) as ->.
  { apply not_true_iff_false. rewrite other_id_true. unfold not_the_task.
    intros Hother. apply Hother. by apply new_task_id. }
  rewrite app_nil_r. apply filter_all.
  eapply Forall_impl; [exact Hnew |]. intros o Ho. by apply other_id_true.
Qed.

Lemma addTask_then_deleteTask_witness :
  exists c1 h1 c2 h2,
    addTask "2024-02-01T00:00:00.000Z" "id2" (Some (collaboration_with_tasks 1))
      (Some (task_with "t2" "pending")) {[ 1%nat := [kickoff] ]} = (Some c1, h1) /\
    deleteTask "2024-02-02T00:00:00.000Z" (Some c1) (Some "t2") h1 = (Some c2, h2) /\
    tasks_of h2 c2 = [kickoff].
Proof.
  apply (addTask_then_deleteTask "2024-02-01T00:00:00.000Z" "2024-02-02T00:00:00.000Z"
           "id2" (collaboration_with_tasks 1) {[ 1%nat := [kickoff] ]} 1%nat [kickoff]
           (task_with "t2" "pending") "t2").
  - reflexivity.
  - reflexivity.
  - reflexivity.
  - discriminate.
  - repeat constructor. unfold not_the_task. vm_compute. discriminate.
Defined.

Lemma apply_updates_protected (updates found : object) (k : string) :
  k = "id" \/ k = "createdAt" ->
  apply_updates updates found !! k = found !! k.
Proof.
  intros Hk. unfold apply_updates. apply lookup_union_r.
  apply map_lookup_filter_None. right. intros v _ [Hid Hcreated]. simpl in *.
  by destruct Hk.
Qed.

Lemma apply_updates_other (updates found : object) (k : string) :
  k <> "id" -> k <> "createdAt" ->
  apply_updates updates found !! k =
    match updates !! k with Some v => Some v | None => found !! k end.
Proof.
  intros Hid Hcreated. unfold apply_updates.
  destruct (updates !! k) as [v|] eqn:Hv.
  - apply lookup_union_Some_l. by apply map_lookup_filter_Some.
  - apply lookup_union_r. apply map_lookup_filter_None. by left.
Qed.

(** X21: updateTask changes one task and nothing else.  The array keeps its
    length and every other task; the task keeps its id and createdAt even
    when the updates name them, its updatedAt becomes the current time, and
    every other property is the updated value when the updates have one and
    the old value otherwise. *)
Theorem updateTask_keeps_identity (now : string) (c : Collaboration) (h : heap)
    (l : loc) (array : list object) (taskId : string) (updates : object)
    (i : nat) (found : object) :
  tasks c = Some l ->
  h !! l = Some array ->
  taskId <> "" ->
  list_find (fun task => task !! "id" = Some (Str taskId)) array = Some (i, found) ->
  exists c' h',
    updateTask now (Some c) (Some taskId) (Some updates) h = (Some c', h') /\
    tasks_of h' c' = <[i := updated_task now updates found]> array /\
    length (tasks_of h' c') = length array /\
    (forall j, j <> i -> tasks_of h' c' !! j = array !! j) /\
    tasks_of h' c' !! i = Some (updated_task now updates found) /\
    updated_task now updates found !! "id" = Some (Str taskId) /\
    updated_task now updates found !! "createdAt" = found !! "createdAt" /\
    updated_task now updates found !! "updatedAt" = Some (Str now) /\
    (forall k, k <> "id" -> k <> "createdAt" -> k <> "updatedAt" ->
       updated_task now updates found !! k =
         match updates !! k with Some v => Some v | None => found !! k end).
Proof.
  intros Htasks Harray Hne Hfound.
  unfold updateTask. rewrite Htasks.
  assert (negb (truthy_string (Some taskId)) = false) as ->.
  { simpl. apply String.eqb_neq in Hne. by rewrite Hne. }
  rewrite Harray. cbn [default]. unfold Datatypes.id.
  change (Str <$> Some taskId) with (Some (Str taskId)).
  rewrite Hfound.
  do 2 eexists. split; [reflexivity |].
  apply list_find_Some in Hfound as (Hi & Hid & _).
  assert (tasks_of (alter (fun a => <[i := updated_task now updates found]> a) l h)
                   (with_tasks c (Some l) now)
          = <[i := updated_task now updates found]> array) as Hafter.
  { unfold tasks_of. cbn [tasks with_tasks mbind option_bind].
    by rewrite lookup_alter_eq, Harray. }
  fold (updated_task now updates found). rewrite Hafter.
  split; [reflexivity |]. split; [apply length_insert |].
  split; [intros j Hj; by apply list_lookup_insert_ne |].
  split; [apply list_lookup_insert_eq; by eapply lookup_lt_Some |].
  unfold updated_task. repeat split.
  - by rewrite lookup_insert_ne, apply_updates_protected by auto.
  - by rewrite lookup_insert_ne, apply_updates_protected by auto.
  - by rewrite lookup_insert_eq.
  - intros k Hk1 Hk2 Hk3. by rewrite lookup_insert_ne, apply_updates_other by done.
Qed.

Lemma updateTask_keeps_identity_witness :
  updated_task "2024-03-01T00:00:00.000Z" rename_and_reidentify kickoff !! "id"
    = Some (Str "t1").
Proof.
  destruct (updateTask_keeps_identity "2024-03-01T00:00:00.000Z"
              (collaboration_with_tasks 1) {[ 1%nat := [kickoff] ]} 1%nat [kickoff]
              "t1" rename_and_reidentify 0%nat kickoff)
    as (c' & h' & _ & _ & _ & _ & _ & Hid & _).
  - reflexivity.
  - reflexivity.
  - discriminate.
  - vm_compute. reflexivity.
  - exact Hid.
Defined.

(** X22: when the collaboration has no tasks array, addTask gives the copy
    a new one: the caller's collaboration is unchanged, every array that
    existed keeps its content, and the returned collaboration holds exactly
    the new task. *)
Theorem addTask_without_tasks_array (now newId : string) (c : Collaboration)
    (task : object) (h : heap) :
  tasks c = None ->
  exists c' h',
    addTask now newId (Some c) (Some task) h = (Some c', h') /\
    observe h' c = observe h c /\
    (forall l array, h !! l = Some array -> h' !! l = Some array) /\
    tasks_of h' c' = [new_task now newId task] /\
    updatedAt c' = now.
Proof.
  intros Htasks. unfold addTask. rewrite Htasks.
  do 2 eexists. split; [reflexivity |]. split; [| split; [| split]].
  - unfold observe. by rewrite Htasks.
  - intros l array Hl.
    pose proof (fresh_location h l array Hl) as Hfresh.
    by rewrite lookup_alter_ne, lookup_insert_ne.
  - unfold tasks_of. cbn [tasks with_tasks mbind option_bind].
    by rewrite lookup_alter_eq, lookup_insert_eq.
  - reflexivity.
Qed.

Lemma addTask_without_tasks_array_witness :
  exists c' h',
    addTask "2024-02-01T00:00:00.000Z" "id7" (Some collaboration_without_tasks)
      (Some kickoff) ∅ = (Some c', h') /\
    observe h' collaboration_without_tasks = observe ∅ collaboration_without_tasks.
Proof.
  destruct (addTask_without_tasks_array "2024-02-01T00:00:00.000Z" "id7"
              collaboration_without_tasks kickoff ∅)
    as (c' & h' & Hadd & Hobserve & _).
  - reflexivity.
  - exists c', h'. by split.
Defined.

Lemma new_task_pending (now newId : string) (task : object) :
  truthy_value (task !! "status") = false ->
  new_task now newId task !! "status" = Some (Str "pending").
Proof.
  intros Hstatus. unfold new_task. lookup_literal. unfold or_else.
  rewrite Hstatus. by destruct (task !! "status").
Qed.

Lemma smaller_share_of_more (x a : Q) :
  0 <= x -> 0 < a -> x / (a + 1) * 100 <= x / a * 100.
Proof.
  intros Hx Ha.
  assert (0 <= x / a) as Hq by (apply Qle_shift_div_l; lra).
  assert (x == x / a * a) as Hxa by (field; lra).
  assert (x / (a + 1) <= x / a); [| lra].
  apply Qle_shift_div_r; [lra |]. nra.
Qed.

(** X23: a task added without a status counts as pending.  After addTask
    the statistics of the collaboration's tasks have one more task and one
    more pending task, the same numbers of completed and in-progress tasks,
    and a progress percentage that is not higher than before. *)
Theorem addTask_without_status_counts_as_pending (now newId : string)
    (c : Collaboration) (h : heap) (l : loc) (array : list object) (task : object) :
  tasks c = Some l ->
  h !! l = Some array ->
  truthy_value (task !! "status") = false ->
  exists c' h',
    addTask now newId (Some c) (Some task) h = (Some c', h') /\
    let before := calculateTaskProgress (Some array) in
    let after := calculateTaskProgress (Some (tasks_of h' c')) in
    TaskStats.total after = (TaskStats.total before + 1)%Z /\
    TaskStats.pending after = (TaskStats.pending before + 1)%Z /\
    TaskStats.completed after = TaskStats.completed before /\
    TaskStats.inProgress after = TaskStats.inProgress before /\
    (TaskStats.progressPercentage after <= TaskStats.progressPercentage before)%Z.
Proof.
  intros Htasks Harray Hstatus.
  do 2 eexists. split; [by apply addTask_with_array |].
  assert (tasks_of (alter (fun a => push_all a [new_task now newId task]) l h)
            (with_tasks c (Some l) now)
          = (array ++ [new_task now newId task])%list) as ->.
  { unfold tasks_of. cbn [tasks with_tasks mbind option_bind].
    by rewrite lookup_alter_eq, Harray. }
  pose proof (new_task_pending now newId task Hstatus) as Hpending.
  assert (forall s, count s (array ++ [new_task now newId task])%list
                    = (count s array + if String.eqb s "pending" then 1 else 0)%Z)
    as Hcount.
  { intros s. rewrite count_app, count_cons. unfold has_status. rewrite Hpending.
    unfold count at 2. simpl.
    destruct (String.eqb_spec s "pending"); case_bool_decide; try lia; congruence. }
  unfold calculateTaskProgress.
  cbn [TaskStats.total TaskStats.pending TaskStats.completed TaskStats.inProgress
       TaskStats.progressPercentage].
  rewrite !Hcount, length_app. simpl length.
  change (String.eqb "completed" "pending") with false.
  change (String.eqb "in-progress" "pending") with false.
  change (String.eqb "pending" "pending") with true.
  rewrite !Z.add_0_r.
  repeat split; try lia.
  assert ((0 <? Z.of_nat (length array + 1))%Z = true) as -> by (apply Z.ltb_lt; lia).
  pose proof (count_nonneg "completed" array) as Hc.
  pose proof (count_nonneg "in-progress" array) as Hi.
  destruct (0 <? Z.of_nat (length array))%Z eqn:Hsome.
  - apply Z.ltb_lt in Hsome. apply Math_round_mono.
    rewrite Nat2Z.inj_add, inject_Z_plus.
    change (inject_Z (Z.of_nat 1)) with 1.
    apply smaller_share_of_more.
    + rewrite Zle_Qle in Hc, Hi. change (inject_Z 0) with 0 in Hc, Hi. lra.
    + change 0 with (inject_Z 0). rewrite <- Zlt_Qlt. lia.
  - apply Z.ltb_ge in Hsome. destruct array; [| simpl in Hsome; lia].
    by vm_compute.
Qed.

Lemma addTask_without_status_counts_as_pending_witness :
  exists c' h',
    addTask "2024-02-01T00:00:00.000Z" "id2" (Some (collaboration_with_tasks 1))
      (Some kickoff) {[ 1%nat := [task_with "t0" "completed"] ]} = (Some c', h') /\
    TaskStats.pending (calculateTaskProgress (Some (tasks_of h' c'))) = 1%Z.
Proof.
  destruct (addTask_without_status_counts_as_pending "2024-02-01T00:00:00.000Z" "id2"
              (collaboration_with_tasks 1) {[ 1%nat := [task_with "t0" "completed"] ]}
              1%nat [task_with "t0" "completed"] kickoff)
    as (c' & h' & Hadd & _ & Hpending & _).
  - reflexivity.
  - reflexivity.
  - reflexivity.
  - exists c', h'. split; [exact Hadd | exact Hpending].
Defined.

Lemma find_nothing (wanted : string) (array : list object) :
  Forall (not_the_task wanted) array ->
  list_find (fun o : object => o !! "id" = Str <$> Some wanted) array = None.
Proof. intros Hnone. by apply list_find_None. Qed.

(** X24: an update under an id that no task (no milestone) of the
    collaboration has changes nothing: updateTask and updateMilestone return
    the collaboration as it was, its updatedAt included, and leave every
    array as it was. *)
Theorem update_of_unknown_id_changes_nothing (now : string) (c : Collaboration)
    (h : heap) (updates : object) (wanted : string) :
  wanted <> "" ->
  Forall (not_the_task wanted) (tasks_of h c) ->
  Forall (not_the_task wanted) (milestones_of h c) ->
  updateTask now (Some c) (Some wanted) (Some updates) h = (Some c, h) /\
  updateMilestone now (Some c) (Some wanted) (Some updates) h = (Some c, h).
Proof.
  intros Hne Htasks Hmilestones.
  assert (negb (truthy_string (Some wanted)) = false) as Hgiven.
  { simpl. apply String.eqb_neq in Hne. by rewrite Hne. }
  unfold updateTask, updateMilestone. rewrite Hgiven. split.
  - unfold tasks_of in Htasks. destruct (tasks c) as [l|]; [| done].
    cbn [mbind option_bind] in Htasks. by rewrite (find_nothing _ _ Htasks).
  - unfold milestones_of in Hmilestones. destruct (milestones c) as [l|]; [| done].
    cbn [mbind option_bind] in Hmilestones. by rewrite (find_nothing _ _ Hmilestones).
Qed.

Lemma update_of_unknown_id_changes_nothing_witness :
  updateTask "2024-03-01T00:00:00.000Z" (Some (collaboration_with_tasks 1)) (Some "t7")
    (Some rename_and_reidentify) {[ 1%nat := [kickoff] ]}
    = (Some (collaboration_with_tasks 1), {[ 1%nat := [kickoff] ]}).
Proof.
  apply (update_of_unknown_id_changes_nothing "2024-03-01T00:00:00.000Z"
           (collaboration_with_tasks 1) {[ 1%nat := [kickoff] ]} rename_and_reidentify
           "t7").
  - discriminate.
  - repeat constructor. by vm_compute.
  - constructor.
Defined.

(** X25: addMilestone pushes onto the array the caller's collaboration
    holds: afterwards the caller's milestones end with the new milestone,
    the returned collaboration holds the same array, and no other array of
    the heap has changed, so the tasks are as before when they are kept in
    another array. *)
Theorem addMilestone_changes_callers_array (now newId : string) (c : Collaboration)
    (h : heap) (l : loc) (array : list object) (milestone : object) :
  milestones c = Some l ->
  h !! l = Some array ->
  exists c' h',
    addMilestone now newId (Some c) (Some milestone) h = (Some c', h') /\
    milestones_of h' c = (array ++ [new_milestone now newId milestone])%list /\
    milestones_of h' c' = milestones_of h' c /\
    (forall l', l' <> l -> h' !! l' = h !! l') /\
    (tasks c <> Some l -> tasks_of h' c' = tasks_of h c).
Proof.
  intros Hmilestones Harray. unfold addMilestone. rewrite Hmilestones.
  do 2 eexists. split; [reflexivity |].
  fold (new_milestone now newId milestone).
  split; [| split; [| split]].
  - unfold milestones_of. rewrite Hmilestones. cbn [mbind option_bind].
    by rewrite lookup_alter_eq, Harray.
  - unfold milestones_of. by rewrite Hmilestones.
  - intros l' Hl'. by rewrite lookup_alter_ne.
  - intros Hother. unfold tasks_of. cbn [tasks with_milestones].
    destruct (tasks c) as [lt|]; [| done]. cbn [mbind option_bind].
    rewrite lookup_alter_ne; [done | congruence].
Qed.

Lemma addMilestone_changes_callers_array_witness :
  exists c' h',
    addMilestone "2024-02-01T00:00:00.000Z" "id3" (Some (collaboration_with_both 1 2))
      (Some launch) {[ 1%nat := [kickoff]; 2%nat := [] ]} = (Some c', h') /\
    milestones_of h' (collaboration_with_both 1 2)
      = [new_milestone "2024-02-01T00:00:00.000Z" "id3" launch] /\
    tasks_of h' c' = [kickoff].
Proof.
  destruct (addMilestone_changes_callers_array "2024-02-01T00:00:00.000Z" "id3"
              (collaboration_with_both 1 2) {[ 1%nat := [kickoff]; 2%nat := [] ]}
              2%nat [] launch)
    as (c' & h' & Hadd & Hcaller & _ & _ & Htasks).
  - reflexivity.
  - reflexivity.
  - exists c', h'. split; [exact Hadd |]. split; [exact Hcaller |].
    rewrite Htasks; [reflexivity | discriminate].
Defined.

(** X26: deleteMilestone builds a new array: the caller's milestones and
    every array that existed are as before, and the returned collaboration
    holds the milestones of the old array whose id differs from the given
    one, in their order, so its statistics count no more milestones than
    before. *)
Theorem deleteMilestone_leaves_callers_array (now : string) (c : Collaboration)
    (h : heap) (l : loc) (array : list object) (wanted : string) :
  milestones c = Some l ->
  h !! l = Some array ->
  wanted <> "" ->
  exists c' h',
    deleteMilestone now (Some c) (Some wanted) h = (Some c', h') /\
    milestones_of h' c = array /\
    (forall l' a, h !! l' = Some a -> h' !! l' = Some a) /\
    milestones_of h' c' `sublist_of` array /\
    (forall m, m ∈ milestones_of h' c' <-> m ∈ array /\ not_the_task wanted m) /\
    (MilestoneStats.total (calculateMilestoneProgress (Some (milestones_of h' c')))
       <= MilestoneStats.total (calculateMilestoneProgress (Some array)))%Z.
Proof.
  intros Hmilestones Harray Hne.
  unfold deleteMilestone. rewrite Hmilestones.
  assert (negb (truthy_string (Some wanted)) = false) as ->.
  { simpl. apply String.eqb_neq in Hne. by rewrite Hne. }
  rewrite Harray. cbn [default]. unfold Datatypes.id.
  do 2 eexists. split; [reflexivity |].
  pose proof (fresh_location h l array Harray) as Hfresh.
  assert (milestones_of (<[fresh (dom h) := List.filter (other_id (Some wanted)) array]> h)
            (with_milestones c (Some (fresh (dom h))) now)
          = List.filter (other_id (Some wanted)) array) as ->.
  { unfold milestones_of. simpl. by rewrite lookup_insert_eq. }
  split; [| split; [| split; [| split]]].
  - unfold milestones_of. rewrite Hmilestones. simpl. by rewrite lookup_insert_ne, Harray.
  - intros l' a Hl'. rewrite lookup_insert_ne; [done |]. by eapply fresh_location.
  - apply List_filter_sublist.
  - intros m. by rewrite !list_elem_of_In, filter_In, other_id_true.
  - apply Nat2Z.inj_le, sublist_length, List_filter_sublist.
Qed.

Lemma deleteMilestone_leaves_callers_array_witness :
  exists c' h',
    deleteMilestone "2024-02-01T00:00:00.000Z" (Some (collaboration_with_both 1 2))
      (Some "m1") {[ 1%nat := [kickoff]; 2%nat := [launch] ]} = (Some c', h') /\
    milestones_of h' (collaboration_with_both 1 2) = [launch].
Proof.
  destruct (deleteMilestone_leaves_callers_array "2024-02-01T00:00:00.000Z"
              (collaboration_with_both 1 2) {[ 1%nat := [kickoff]; 2%nat := [launch] ]}
              2%nat [launch] "m1")
    as (c' & h' & Hdelete & Hcaller & _).
  - reflexivity.
  - reflexivity.
  - discriminate.
  - exists c', h'. split; [exact Hdelete | exact Hcaller].
Defined.

End ProjectManagerFacts.

(** ** Data manager *)

Module DataManagerFacts.
Import JS JSFacts PartnerMatcher DataManager DataManagerSpec.
Local Open Scope Z_scope.

Lemma lookup_object_literal {V} (properties : list (string * V)) (key : string) :
  object_literal properties !! key = last_entry key properties.
Proof.
  unfold object_literal. induction properties as [|[k v] properties IH]; [done |].
  rewrite reverse_cons, list_to_map_app, lookup_union, IH.
  rewrite list_to_map_cons, list_to_map_nil. cbn [last_entry fst snd].
  destruct (last_entry key properties) as [later|].
  - by destruct (<[k:=v]> (∅ : gmap string V) !! key).
  - destruct (String.eqb_spec key k) as [->|Hne].
    + by rewrite lookup_insert_eq.
    + by rewrite lookup_insert_ne, lookup_empty.
Qed.

(** Case analysis on the comparisons of a name with the names of a
    literal. *)
Ltac by_names :=
  repeat match goal with
    | |- context [String.eqb ?a ?b] =>
        first [is_var a | is_var b];
        destruct (String.eqb_spec a b); [subst |]
    end.

Lemma industry_points_range (a b : BrandProfile) : 0 <= industry_points a b <= 20.
Proof.
  unfold industry_points. case_bool_decide; [lia |].
  destruct (property _ _) as [l|]; [| lia]. destruct (includes_name l _); lia.
Qed.

Lemma geography_points_range (a b : BrandProfile) : 0 <= geography_points a b <= 15.
Proof.
  unfold geography_points. cbv zeta.
  repeat match goal with |- context [if ?c then _ else _] => destruct c end; lia.
Qed.

Lemma row_range (row : list (string * Z)) (key : option string) :
  Forall (fun entry => 0 <= entry.2 <= 15) row ->
  0 <= match property (object_literal row) key with Some points => points | None => 0 end
    <= 15.
Proof.
  intros Hrow. destruct key as [k|]; [| simpl; lia]. cbn [property].
  rewrite lookup_object_literal.
  induction Hrow as [|[k' v] row Hv Hrow IH]; [simpl; lia |]. cbn [last_entry].
  destruct (last_entry k row); [done |]. destruct (String.eqb k k'); simpl in *; lia.
Qed.

Lemma size_points_range (a b : BrandProfile) : 0 <= size_points a b <= 15.
Proof.
  unfold size_points. destruct (companySize a) as [s1|]; [| simpl; lia].
  cbn [property]. unfold sizeCompatibility. rewrite lookup_object_literal.
  cbn [last_entry]. by_names; try lia; apply row_range; repeat constructor; simpl; lia.
Qed.

Lemma shared_present (l1 l2 : list string) (method : string) :
  shared (Some l1) (Some l2) method = Return (common l1 l2).
Proof. by destruct l1. Qed.

Lemma common_length_sym (l1 l2 : list string) :
  NoDup l1 -> NoDup l2 -> length (common l1 l2) = length (common l2 l1).
Proof.
  intros H1 H2. apply Permutation_length, NoDup_Permutation.
  - apply NoDup_ListNoDup, List.NoDup_filter. by apply NoDup_ListNoDup.
  - apply NoDup_ListNoDup, List.NoDup_filter. by apply NoDup_ListNoDup.
  - intros x. unfold common.
    rewrite !list_elem_of_In, !filter_In, !includes_elem_of, !list_elem_of_In. tauto.
Qed.

Lemma common_self (l : list string) : common l l = l.
Proof.
  unfold common. apply forallb_filter_id, forallb_forall. intros x Hx.
  by apply includes_elem_of, list_elem_of_In.
Qed.

Lemma geography_points_sym (a b : BrandProfile) :
  geography_points a b = geography_points b a.
Proof.
  unfold geography_points. cbv zeta.
  destruct (decide (geographicFocus a = geographicFocus b)) as [Heq|Hne].
  - by rewrite !bool_decide_eq_true_2.
  - rewrite !bool_decide_eq_false_2 by done.
    rewrite (bool_decide_eq_false_2 (geographicFocus b = geographicFocus a)) by done.
    by rewrite (orb_comm (bool_decide (geographicFocus a = Some "global") && _)),
               (orb_comm (bool_decide (geographicFocus a = Some "international") && _)).
Qed.

Lemma industry_points_sym (a b : BrandProfile) :
  industry_points a b = industry_points b a.
Proof.
  unfold industry_points.
  destruct (decide (industry a = industry b)) as [Heq|Hne].
  - by rewrite !bool_decide_eq_true_2.
  - rewrite bool_decide_eq_false_2 by done.
    rewrite (bool_decide_eq_false_2 (industry b = industry a)) by done.
    destruct (industry a) as [s1|], (industry b) as [s2|]; cbn [property includes_name].
    + assert (s1 <> s2) as Hs by congruence. clear Hne.
      unfold complementaryIndustries. rewrite !lookup_object_literal.
      cbn [last_entry]. unfold includes. cbn [existsb].
      by_names; try done; simpl; by_names; try done; by simpl.
    + by destruct (complementaryIndustries !! s1).
    + by destruct (complementaryIndustries !! s2).
    + done.
Qed.

Lemma score_with_lists (a b : BrandProfile) (va oa vb ob : list string) :
  has_lists a va oa -> has_lists b vb ob ->
  calculateCompatibilityScore (Some a) (Some b)
    = Return (industry_points a b + geography_points a b
              + Z.min 25 (Z.of_nat (length (common va vb)) * 8)
              + Z.min 25 (Z.of_nat (length (common oa ob)) * 10)
              + size_points a b).
Proof.
  intros (Hva & pa & Hpa & Hoa) (Hvb & pb & Hpb & Hob).
  unfold calculateCompatibilityScore.
  rewrite Hva, Hvb, Hpa, Hpb, Hoa, Hob, !shared_present. cbv zeta. f_equal.
  pose proof (industry_points_range a b). pose proof (geography_points_range a b).
  pose proof (size_points_range a b). lia.
Qed.

Lemma industry_points_20 (a b : BrandProfile) :
  industry_points a b = 20 -> industry a = industry b.
Proof.
  unfold industry_points. case_bool_decide; [done |].
  destruct (property _ _) as [l|]; [| done]. by destruct (includes_name l _).
Qed.

Lemma geography_points_15 (a b : BrandProfile) :
  geography_points a b = 15 -> geographicFocus a = geographicFocus b.
Proof.
  unfold geography_points. cbv zeta. case_bool_decide; [done |].
  repeat match goal with |- context [if ?c then _ else _] => destruct c end; done.
Qed.

Ltac one_of_the_sizes H :=
  unfold company_sizes in H;
  repeat (apply elem_of_cons in H as [->|H]); [.. | by apply elem_of_nil in H].

Lemma size_points_gap (a b : BrandProfile) (s1 s2 : string) :
  companySize a = Some s1 -> companySize b = Some s2 ->
  s1 ∈ company_sizes -> s2 ∈ company_sizes ->
  size_points b a - size_points a b = size_gap s1 s2.
Proof.
  intros Ha Hb H1 H2. unfold size_points. rewrite Ha, Hb. cbn [property].
  one_of_the_sizes H1; one_of_the_sizes H2; by vm_compute.
Qed.

Lemma size_points_self (a : BrandProfile) (s : string) :
  companySize a = Some s -> s ∈ company_sizes -> size_points a a = 15.
Proof.
  intros Ha Hs. unfold size_points. rewrite Ha. cbn [property].
  one_of_the_sizes Hs; by vm_compute.
Qed.

(** X27: the score is computed without any check of the profiles.  It throws
    a TypeError when the first profile has no values array, when either
    profile has no partnership, when the partnership of the first has no
    objectives array, and when an array of the second profile is missing
    that is searched because the array of the first has an element. *)
Theorem score_throws_on_missing_list (a b : BrandProfile) :
  missing_list a b ->
  exists e, calculateCompatibilityScore (Some a) (Some b) = Throw e.
Proof.
  intros Hmissing. unfold calculateCompatibilityScore, shared.
  destruct (values a) as [[|v vs]|] eqn:Hva, (values b) as [vb|] eqn:Hvb;
    try (eexists; reflexivity);
    (destruct (partnership a) as [pa|] eqn:Hpa, (partnership b) as [pb|] eqn:Hpb;
       try (eexists; reflexivity);
       destruct (objectives pa) as [[|o os]|] eqn:Hoa, (objectives pb) as [ob|] eqn:Hob;
       try (eexists; reflexivity));
    exfalso;
    destruct Hmissing
      as [?|[(?&?&?&?)|[?|[?|[(?&?&?)|(?&?&?&?&?&?&?&?)]]]]]; congruence.
Qed.

Lemma score_throws_on_missing_list_witness :
  exists e,
    calculateCompatibilityScore (Some profile_without_partnership) (Some rich_profile)
      = Throw e.
Proof.
  apply (score_throws_on_missing_list profile_without_partnership rich_profile).
  right. right. left. reflexivity.
Defined.

(** X28: for two profiles that have their values and objectives arrays, and
    whose industry and size names are not names every object inherits, the
    score is returned and is the plain sum of the five parts: the clamp to
    0..100 never changes it.  A score of 100 needs the same industry, the
    same geographic focus, at least four shared values and at least three
    shared objectives. *)
Theorem score_is_the_sum_of_its_parts (a b : BrandProfile)
    (va oa vb ob : list string) :
  own_name (industry a) -> own_name (companySize a) -> own_name (companySize b) ->
  has_lists a va oa -> has_lists b vb ob ->
  exists score,
    calculateCompatibilityScore (Some a) (Some b) = Return score /\
    score = industry_points a b + geography_points a b
            + Z.min 25 (Z.of_nat (length (common va vb)) * 8)
            + Z.min 25 (Z.of_nat (length (common oa ob)) * 10)
            + size_points a b /\
    0 <= score <= 100 /\
    (score = 100 ->
       industry a = industry b /\ geographicFocus a = geographicFocus b /\
       (4 <= length (common va vb))%nat /\ (3 <= length (common oa ob))%nat).
Proof.
  intros _ _ _ Ha Hb. eexists. split; [by eapply score_with_lists |].
  pose proof (industry_points_range a b) as Hi.
  pose proof (geography_points_range a b) as Hg.
  pose proof (size_points_range a b) as Hs.
  split; [reflexivity |]. split; [lia |]. intros Hfull.
  split; [apply industry_points_20; lia |].
  split; [apply geography_points_15; lia |]. lia.
Qed.

Ltac listed_size :=
  unfold company_sizes;
  repeat first [by apply list_elem_of_here | apply list_elem_of_further].

Ltac no_duplicates :=
  repeat (apply NoDup_cons_2;
          [rewrite ?not_elem_of_cons; repeat split;
           (discriminate || apply not_elem_of_nil) |]);
  apply NoDup_nil_2.

Ltac not_inherited :=
  intros s [= <-]; unfold Object_prototype_names;
  rewrite !not_elem_of_cons; repeat split; (discriminate || apply not_elem_of_nil).

Lemma score_is_the_sum_of_its_parts_witness :
  exists score,
    calculateCompatibilityScore (Some rich_profile) (Some medium_company) = Return score /\
    0 <= score <= 100.
Proof.
  destruct (score_is_the_sum_of_its_parts rich_profile medium_company
              ["quality"; "service"; "innovation"; "trust"]
              ["awareness"; "reach"; "sales"]
              ["quality"; "service"] ["awareness"])
    as (score & Hscore & _ & Hrange & _).
  - not_inherited.
  - not_inherited.
  - not_inherited.
  - split; [reflexivity |]. eexists. split; reflexivity.
  - split; [reflexivity |]. eexists. split; reflexivity.
  - exists score. split; [exact Hscore | exact Hrange].
Defined.

(** X29: a profile compared with itself does not always score 100.  With
    its arrays present and one of the five size names it scores
    50 + min(25, 8 x values) + min(25, 10 x objectives), which is 100 exactly
    when it lists at least four values and at least three objectives. *)
Theorem identical_profile_needs_four_values (a : BrandProfile)
    (vs os : list string) (s : string) :
  has_lists a vs os ->
  companySize a = Some s ->
  s ∈ company_sizes ->
  exists score,
    calculateCompatibilityScore (Some a) (Some a) = Return score /\
    score = 50 + Z.min 25 (Z.of_nat (length vs) * 8)
               + Z.min 25 (Z.of_nat (length os) * 10) /\
    (score = 100 <-> (4 <= length vs)%nat /\ (3 <= length os)%nat).
Proof.
  intros Ha Hsize Hs. eexists. split; [by eapply score_with_lists |].
  rewrite !common_self, (size_points_self a s Hsize Hs).
  unfold industry_points, geography_points. cbv zeta.
  rewrite !bool_decide_eq_true_2 by reflexivity.
  split; lia.
Qed.

Lemma identical_profile_needs_four_values_witness :
  exists score,
    calculateCompatibilityScore (Some medium_company) (Some medium_company)
      = Return score /\
    score = 76.
Proof.
  destruct (identical_profile_needs_four_values medium_company
              ["quality"; "service"] ["awareness"] "medium")
    as (score & Hscore & Hsum & _).
  - split; [reflexivity |]. eexists. split; reflexivity.
  - reflexivity.
  - listed_size.
  - exists score. split; [exact Hscore | exact Hsum].
Defined.

(** X30: the score is symmetric except for the company sizes.  For two
    profiles with their arrays present and free of duplicates, plain
    industry names and sizes among the five size names, the scores of (a, b)
    and (b, a) are equal unless one company is medium and the other small or
    enterprise: medium to small scores 8 where small to medium scores 12,
    and medium to enterprise scores 0 where enterprise to medium scores 8. *)
Theorem score_symmetric_except_for_size (a b : BrandProfile)
    (va oa vb ob : list string) (s1 s2 : string) :
  own_name (industry a) -> own_name (industry b) ->
  has_lists a va oa -> has_lists b vb ob ->
  NoDup va -> NoDup vb -> NoDup oa -> NoDup ob ->
  companySize a = Some s1 -> companySize b = Some s2 ->
  s1 ∈ company_sizes -> s2 ∈ company_sizes ->
  exists x y,
    calculateCompatibilityScore (Some a) (Some b) = Return x /\
    calculateCompatibilityScore (Some b) (Some a) = Return y /\
    y - x = size_gap s1 s2.
Proof.
  intros _ _ Ha Hb Hva Hvb Hoa Hob Hs1 Hs2 Hin1 Hin2.
  do 2 eexists. split; [by eapply score_with_lists |].
  split; [by eapply score_with_lists |].
  rewrite <- (size_points_gap a b s1 s2 Hs1 Hs2 Hin1 Hin2).
  rewrite (industry_points_sym b a), (geography_points_sym b a).
  rewrite (common_length_sym vb va), (common_length_sym ob oa) by done.
  lia.
Qed.

Lemma score_symmetric_except_for_size_witness :
  exists x y,
    calculateCompatibilityScore (Some medium_company) (Some small_company) = Return x /\
    calculateCompatibilityScore (Some small_company) (Some medium_company) = Return y /\
    y - x = 4.
Proof.
  apply (score_symmetric_except_for_size medium_company small_company
           ["quality"; "service"] ["awareness"] ["quality"; "service"] ["awareness"]
           "medium" "small").
  - not_inherited.
  - not_inherited.
  - split; [reflexivity |]. eexists. split; reflexivity.
  - split; [reflexivity |]. eexists. split; reflexivity.
  - no_duplicates.
  - no_duplicates.
  - no_duplicates.
  - no_duplicates.
  - reflexivity.
  - reflexivity.
  - listed_size.
  - listed_size.
Defined.

End DataManagerFacts.
